(** * analyzeMOPS: linkage diffing, relation building and database assembly

    A shallow embedding of [analyzeMOPS/io.py]:
    - [_makeNewLinkageDataFrames] (the linkage relation builder),
    - [attachDatabases],
    - [buildTrackletDatabase] and [buildTrackDatabase],
    - [_findNewLinesAndDeletedIndices] together with the part of Python's
      [difflib] it drives ([SequenceMatcher] and [unified_diff]).

    Python [int] is [Z] (or [nat] where the value is a length or an index),
    [str] is [string], a Python list is a [list], and a raised exception is
    the [Raise] branch of [Result]. *)

From Stdlib Require Import List String Ascii ZArith Lia Bool Arith PeanoNat.
From Stdlib Require Import Permutation Sorted.
Import ListNotations.

Open Scope string_scope.
Open Scope list_scope.
Open Scope nat_scope.

(** ** Exceptions and results *)

(** The exceptions the modelled code can raise. [OutOfFuel] is not a
    Python exception: it marks a loop of the model that was given too few
    rounds, and the theorems show it never comes out. *)

Inductive PyError : Type :=
| NameError (name : string)
| UnboundLocalError (name : string)
| AttributeError (name : string)
| ValueError (msg : string)
| IndexError (msg : string)
| IOError (path : string)
| OutOfFuel.

Inductive Result (A : Type) : Type :=
| Ok (a : A)
| Raise (e : PyError).

Arguments Ok {A} a.
Arguments Raise {A} e.

Definition bind {A B : Type} (r : Result A) (k : A -> Result B) : Result B :=
  match r with
  | Ok a => k a
  | Raise e => Raise e
  end.

Notation "x <- r ;; k" := (bind r (fun x => k))
  (at level 61, r at next level, right associativity).

Definition is_ok {A : Type} (r : Result A) : bool :=
  match r with Ok _ => true | Raise _ => false end.

(** ** Python string primitives *)

Module Py.

(** [s.split(sep)] with an explicit one-character separator: every
    occurrence of [sep] cuts, so consecutive separators give empty tokens
    and the result is never empty. *)
Fixpoint split_on (sep : ascii) (s : string) : list string :=
  match s with
  | EmptyString => [EmptyString]
  | String c s' =>
      if Ascii.eqb c sep then EmptyString :: split_on sep s'
      else match split_on sep s' with
           | [] => [String c EmptyString]
           | t :: ts => String c t :: ts
           end
  end.

(** The characters [str.split()] treats as white space (byte strings):
    space, tab, line feed, vertical tab, form feed, carriage return. *)
Definition is_space (c : ascii) : bool :=
  let n := nat_of_ascii c in
  (n =? 32) || ((9 <=? n) && (n <=? 13)).

(** [s.split()]: tokens are the maximal runs of non-space characters;
    [cur] is the token being read, if any. *)
Fixpoint split_ws_aux (s : string) (cur : option string) : list string :=
  match s with
  | EmptyString =>
      match cur with
      | None => []
      | Some t => [t]
      end
  | String c s' =>
      if is_space c then
        match cur with
        | None => split_ws_aux s' None
        | Some t => t :: split_ws_aux s' None
        end
      else
        match cur with
        | None => split_ws_aux s' (Some (String c EmptyString))
        | Some t => split_ws_aux s' (Some (t ++ String c EmptyString)%string)
        end
  end.

Definition split_ws (s : string) : list string := split_ws_aux s None.

(** [s[1:]] *)
Definition drop1 (s : string) : string :=
  match s with
  | EmptyString => EmptyString
  | String _ s' => s'
  end.

(** [s[1:-2]]: from index 1 up to, and excluding, the last two characters. *)
Definition slice_1_m2 (s : string) : string :=
  substring 1 (String.length s - 2 - 1) s.

(** [l[0:10]] and the like. *)
Definition take {A : Type} (n : nat) (l : list A) : list A := firstn n l.

(** [l[2:]] and the like. *)
Definition drop {A : Type} (n : nat) (l : list A) : list A := skipn n l.

(** [str(n)] for a non-negative integer. *)
Definition digit_char (d : nat) : ascii := ascii_of_nat (48 + d).

Fixpoint str_of_nat_aux (fuel n : nat) (acc : string) : string :=
  match fuel with
  | O => acc
  | S fuel' =>
      let acc' := String (digit_char (n mod 10)) acc in
      match n / 10 with
      | O => acc'
      | q => str_of_nat_aux fuel' q acc'
      end
  end.

Definition str_of_nat (n : nat) : string := str_of_nat_aux (S n) n EmptyString.

(** [int(s)] on a string of decimal digits; anything else is a
    [ValueError] (the diff's hunk headers carry digits only). *)
Definition digit_val (c : ascii) : option nat :=
  let n := nat_of_ascii c in
  if (48 <=? n) && (n <=? 57) then Some (n - 48) else None.

Fixpoint int_digits (s : string) (acc : nat) : option nat :=
  match s with
  | EmptyString => Some acc
  | String c s' =>
      match digit_val c with
      | Some d => int_digits s' (10 * acc + d)
      | None => None
      end
  end.

Definition int_of_str (s : string) : Result nat :=
  match s with
  | EmptyString => Raise (ValueError "invalid literal for int()")
  | _ =>
      match int_digits s 0 with
      | Some n => Ok n
      | None => Raise (ValueError "invalid literal for int()")
      end
  end.

End Py.


(** ** Auxiliary notions on strings *)

Module PyAux.

(** Every character of [s] satisfies [p]. *)
Fixpoint all_chars (p : ascii -> bool) (s : string) : bool :=
  match s with
  | EmptyString => true
  | String c s' => p c && all_chars p s'
  end.

Definition is_digit (c : ascii) : bool :=
  let n := nat_of_ascii c in (48 <=? n) && (n <=? 57).

Definition not_space (c : ascii) : bool := negb (Py.is_space c).

Definition not_comma (c : ascii) : bool := negb (Ascii.eqb c ",").

End PyAux.
(** ** The pandas and numpy operations the relation builder uses *)

Module Pandas.

Open Scope Z_scope.

(** [np.arange(start, start + n, dtype=int)] *)
Definition arange (start : Z) (n : nat) : list Z :=
  map (fun k => start + Z.of_nat k) (seq 0 n).

(** A cell of an object column: a string, or the missing value
    ([None] / [NaN]). *)
Definition cell : Type := option string.

(** [pd.DataFrame(rows, index=index)] on a list of lists of unequal
    lengths: one column per position up to the longest row, short rows
    filled with the missing value. The index must be as long as the data. *)
Definition width (rows : list (list string)) : nat :=
  fold_right Nat.max 0%nat (map (@List.length string) rows).

Definition pad (w : nat) (r : list string) : list cell :=
  map Some r ++ repeat None (w - List.length r)%nat.

Definition frame_of_lists (rows : list (list string)) (index : list Z)
  : Result (list (Z * list cell)) :=
  if (List.length index =? List.length rows)%nat
  then Ok (combine index (map (pad (width rows)) rows))
  else Raise (ValueError "Shape of passed values does not match the index").

(** [DataFrame.stack()] followed by [reset_index(1, drop=True)]: the cells
    row by row, left to right, each under its row label, missing cells
    left out. *)
Definition stack_row (r : Z * list cell) : list (Z * string) :=
  flat_map (fun c => match c with
                     | Some v => [(fst r, v)]
                     | None => []
                     end) (snd r).

Definition stack (frame : list (Z * list cell)) : list (Z * string) :=
  flat_map stack_row frame.

(** [column.replace("", np.nan, inplace=True)] *)
Definition replace_empty (rows : list (Z * string)) : list (Z * cell) :=
  map (fun r => (fst r, if String.eqb (snd r) "" then None else Some (snd r)))
      rows.

(** [DataFrame.dropna(inplace=True)] *)
Definition dropna (rows : list (Z * cell)) : list (Z * string) :=
  flat_map (fun r => match snd r with
                     | Some v => [(fst r, v)]
                     | None => []
                     end) rows.

(** [Series.unique()]: the distinct values in order of first appearance. *)
Fixpoint unique_from (seen : list Z) (l : list Z) : list Z :=
  match l with
  | [] => []
  | x :: r =>
      if existsb (Z.eqb x) seen then unique_from seen r
      else x :: unique_from (x :: seen) r
  end.

Definition unique (l : list Z) : list Z := unique_from [] l.

(** [Series.value_counts()]: one entry (value, count) per distinct value,
    most frequent first. *)
Definition count_of (x : Z) (l : list Z) : Z :=
  Z.of_nat (List.length (filter (Z.eqb x) l)).

Fixpoint insert_by_count (e : Z * Z) (l : list (Z * Z)) : list (Z * Z) :=
  match l with
  | [] => [e]
  | h :: t => if snd h <? snd e then e :: h :: t
              else h :: insert_by_count e t
  end.

Definition value_counts (l : list Z) : list (Z * Z) :=
  fold_right insert_by_count [] (map (fun x => (x, count_of x l)) (unique l)).

(** [Series.sort_index()]: ascending by label. *)
Fixpoint insert_by_index (e : Z * Z) (l : list (Z * Z)) : list (Z * Z) :=
  match l with
  | [] => [e]
  | h :: t => if fst e <=? fst h then e :: h :: t
              else h :: insert_by_index e t
  end.

Definition sort_index (l : list (Z * Z)) : list (Z * Z) :=
  fold_right insert_by_index [] l.

(** [frame[name] = values]: the values must be as many as the rows. *)
Definition set_column {A B : Type} (rows : list A) (values : list B)
  : Result (list (A * B)) :=
  if (List.length rows =? List.length values)%nat
  then Ok (combine rows values)
  else Raise (ValueError "Length of values does not match length of index").

End Pandas.

(** ** The linkage relation builder *)

Module Builder.

Import Pandas.
Open Scope Z_scope.

(** The members relation: its two column names and one row
    (linkage ID, member token) per member. The member tokens stay the
    strings the line was split into. *)
Record MembersFrame : Type := {
  m_columns : list string;
  m_rows : list (Z * string)
}.

(** One row of the summary relation. *)
Record SummaryRow : Type := {
  linkageId : Z;
  numMembers : Z;
  createdBy : Z;
  deletedBy : Z
}.

Record SummaryFrame : Type := {
  s_columns : list string;
  s_rows : list SummaryRow
}.

Definition mkSummaryRow (r : Z * Z * Z * Z) : SummaryRow :=
  let '(i, n, c, d) := r in
  {| linkageId := i; numMembers := n; createdBy := c; deletedBy := d |}.

(** [_makeNewLinkageDataFrames(newLines, linkageType, createdBy, idStart)] *)
Definition _makeNewLinkageDataFrames
  (newLines : list string) (linkageType : string) (createdBy idStart : Z)
  : Result (MembersFrame * SummaryFrame) :=
  let ids := arange idStart (List.length newLines) in
  frame <- frame_of_lists (map (Py.split_on " ") newLines) ids ;;
  let linkageMembers := stack frame in
  let linkageMembers := dropna (replace_empty linkageMembers) in
  let allLinkages := unique (map fst linkageMembers) in
  withNum <- set_column allLinkages
               (map snd (sort_index (value_counts (map fst linkageMembers)))) ;;
  withCreated <- set_column withNum
               (map (fun one => one * createdBy)
                    (repeat 1 (List.length withNum))) ;;
  withDeleted <- set_column withCreated
               (repeat 0 (List.length withCreated)) ;;
  Ok ({| m_columns := [linkageType; "diaId"];
         m_rows := linkageMembers |},
      {| s_columns := [linkageType; "numMembers"; "createdBy"; "deletedBy"];
         s_rows := map mkSummaryRow withDeleted |}).

(** The member tokens of a line: what [split(" ")] gives, empty strings
    left out. *)
Definition tokens (line : string) : list string :=
  filter (fun t => negb (String.eqb t "")) (Py.split_on " " line).

(** The number of member rows carrying a given linkage ID. *)
Definition member_count (i : Z) (m : MembersFrame) : Z :=
  Z.of_nat (List.length (filter (fun r => Z.eqb i (fst r)) (m_rows m))).

Definition summary_ids (s : SummaryFrame) : list Z :=
  map linkageId (s_rows s).

Definition member_ids (m : MembersFrame) : list Z :=
  map fst (m_rows m).

End Builder.

(** ** The relation builder in closed form *)

Module BuilderSpec.

Import Pandas Builder.
Open Scope Z_scope.

Definition nonempty (t : string) : bool := negb (String.eqb t "").

(** What the members relation comes to: each row label with the
    non-empty tokens of its row. *)
Definition members_of (ids : list Z) (rows : list (list string))
  : list (Z * string) :=
  flat_map (fun p => map (pair (fst p)) (filter nonempty (snd p)))
           (combine ids rows).

Definition clean (rows : list (Z * string)) : list (Z * string) :=
  dropna (replace_empty rows).

Definition key_le (a b : Z * Z) : Prop := fst a <= fst b.

(** The rows of the two relations, as functions of the input. *)
Definition member_rows (newLines : list string) (idStart : Z)
  : list (Z * string) :=
  members_of (arange idStart (List.length newLines))
             (map (Py.split_on " ") newLines).

Definition summary_rows (newLines : list string) (createdBy idStart : Z)
  : list SummaryRow :=
  let col := map fst (member_rows newLines idStart) in
  map (fun x => {| linkageId := x; numMembers := count_of x col;
                   createdBy := createdBy; deletedBy := 0 |})
      (unique col).

(** The member rows, line by line: the tokens of line [k] under the
    label [idStart + k]. *)
Definition rows_of_line (newLines : list string) (idStart : Z) (k : nat)
  : list (Z * string) :=
  map (pair (idStart + Z.of_nat k)) (tokens (nth k newLines "")).

End BuilderSpec.

(** ** The relational store, the console and the module's global names *)

Module Store.

Open Scope Z_scope.

(** The [WHERE] clause of a view: comparisons of an integer column with a
    constant, joined by [OR]. *)
Inductive Pred : Type :=
| ColEq (column : string) (value : Z)
| POr (p q : Pred).

(** The statements [io.py] sends to the store. A view is always
    [SELECT * FROM source WHERE where_]. *)
Inductive Statement : Type :=
| CreateTable (name : string) (columns : list (string * string))
| CreateView (name : string) (source : string) (where_ : Pred)
| AttachDatabase (file : string) (alias : string).

(** A connection is known by the path of the database it was opened on. *)
Definition Connection : Type := string.

(** What a call can change: the lines printed so far and the statements
    sent to the store so far, each with the connection it was sent on. The
    store itself is an external collaborator: the model records what it is
    asked to execute. *)
Record State : Type := {
  console : list string;
  sent : list (Connection * Statement)
}.

Definition M (A : Type) : Type := State -> Result A * State.

Definition ret {A : Type} (a : A) : M A := fun st => (Ok a, st).

Definition raise {A : Type} (e : PyError) : M A := fun st => (Raise e, st).

Definition mbind {A B : Type} (c : M A) (k : A -> M B) : M B :=
  fun st => match c st with
            | (Ok a, st') => k a st'
            | (Raise e, st') => (Raise e, st')
            end.

Notation "x <-- c ;; k" := (mbind c (fun x => k))
  (at level 61, c at next level, right associativity).

Notation "c ;;; k" := (mbind c (fun _ => k))
  (at level 61, right associativity).

(** [print s] *)
Definition print (s : string) : M unit :=
  fun st => (Ok tt, {| console := console st ++ [s]; sent := sent st |}).

(** [con.execute(statement)] *)
Definition execute (con : Connection) (stmt : Statement) : M unit :=
  fun st => (Ok tt, {| console := console st;
                       sent := sent st ++ [(con, stmt)] |}).

(** The values the global names of [io.py] are bound to: the imported
    modules, and everything else. *)
Inductive PyValue : Type :=
| Module_os
| Module_numpy
| Module_pandas
| Module_sqlite3
| Module_difflib
| OtherValue.

Definition Globals : Type := list (string * PyValue).

(** The global names of [io.py] once the module is loaded: its five
    [import]s, [Config], [__all__] and its eight functions. *)
Definition io_globals : Globals :=
  [ ("os", Module_os); ("np", Module_numpy); ("pd", Module_pandas);
    ("sqlite3", Module_sqlite3); ("difflib", Module_difflib);
    ("Config", OtherValue); ("__all__", OtherValue);
    ("readDetectionsIntoDatabase", OtherValue);
    ("readTrackletsIntoDatabase", OtherValue);
    ("readTracksIntoDatabase", OtherValue);
    ("buildTrackletDatabase", OtherValue);
    ("buildTrackDatabase", OtherValue);
    ("attachDatabases", OtherValue);
    ("_findNewLinesAndDeletedIndices", OtherValue);
    ("_makeNewLinkageDataFrames", OtherValue) ].

Fixpoint lookup (name : string) (g : Globals) : option PyValue :=
  match g with
  | [] => None
  | (n, v) :: g' => if String.eqb n name then Some v else lookup name g'
  end.

(** Reading a global name. *)
Definition load_global (g : Globals) (name : string) : M PyValue :=
  match lookup name g with
  | Some v => ret v
  | None => raise (NameError name)
  end.

(** [v.connect(database)]: only the [sqlite3] module has it. *)
Definition connect (v : PyValue) (database : string) : M Connection :=
  match v with
  | Module_sqlite3 => ret database
  | _ => raise (AttributeError "connect")
  end.

(** [os.path.join(a, *p)] on a POSIX system. *)
Definition starts_with_slash (s : string) : bool :=
  match s with
  | String c _ => Ascii.eqb c "/"
  | EmptyString => false
  end.

Fixpoint ends_with_slash (s : string) : bool :=
  match s with
  | EmptyString => false
  | String c EmptyString => Ascii.eqb c "/"
  | String _ s' => ends_with_slash s'
  end.

Definition os_path_join (a : string) (p : list string) : string :=
  fold_left (fun path b =>
               if starts_with_slash b then b
               else if String.eqb path "" || ends_with_slash path
                    then (path ++ b)%string
                    else (path ++ "/" ++ b)%string) p a.

End Store.

(** ** Database assembly: [buildTrackletDatabase], [buildTrackDatabase],
    [attachDatabases] *)

Module Assembly.

Import Store.
Open Scope Z_scope.

Section Build.

(** [os.path.abspath] depends on the process's working directory. *)
Variable abspath : string -> string.

(** The module's global names at the time of the call. *)
Variable globals : Globals.

Definition DiaSources_columns : list (string * string) :=
  [ ("diaId", "INTEGER PRIMARY KEY"); ("visitId", "INTEGER");
    ("objectId", "INTEGER"); ("ra", "REAL"); ("dec", "REAL");
    ("mjd", "REAL"); ("mag", "REAL"); ("snr", "REAL") ].

Definition AllTracklets_columns : list (string * string) :=
  [ ("trackletId", "INTEGER PRIMARY KEY"); ("linkedObjectId", "INTEGER");
    ("numLinkedObjects", "INTEGER"); ("numMembers", "INTEGER");
    ("velocity", "REAL"); ("rms", "REAL"); ("night", "REAL");
    ("createdBy", "INTEGER"); ("deletedBy", "INTEGER");
    ("_lineNum_1", "INTEGER"); ("_lineNum_2", "INTEGER");
    ("_lineNum_3", "INTEGER"); ("_lineNum_4", "INTEGER") ].

Definition TrackletMembers_columns : list (string * string) :=
  [ ("trackletId", "INTEGER"); ("diaId", "INTEGER") ].

Definition AllTracks_columns : list (string * string) :=
  [ ("trackId", "INTEGER PRIMARY KEY"); ("linkedObjectId", "INTEGER");
    ("numLinkedObjects", "INTEGER"); ("numMembers", "INTEGER");
    ("rms", "REAL"); ("windowStart", "REAL"); ("startTime", "REAL");
    ("endTime", "REAL"); ("subsetOf", "INTEGER");
    ("createdBy", "INTEGER"); ("deletedBy", "INTEGER");
    ("chiSqDec", "FLOAT"); ("chiSqRa", "FLOAT"); ("fitRange", "FLOAT");
    ("_lineNum_5", "INTEGER"); ("_lineNum_6", "INTEGER") ].

Definition TrackMembers_columns : list (string * string) :=
  [ ("trackId", "INTEGER"); ("diaId", "INTEGER") ].

(** [buildTrackletDatabase(database, outDir)] *)
Definition buildTrackletDatabase (database outDir : string)
  : M (Connection * string) :=
  let database := os_path_join (abspath outDir) [""; database] in
  sql <-- load_global globals "sql" ;;
  con <-- connect sql database ;;
  print "Creating DiaSources table..." ;;;
  execute con (CreateTable "DiaSources" DiaSources_columns) ;;;
  print "Creating AllTracklets table..." ;;;
  execute con (CreateTable "AllTracklets" AllTracklets_columns) ;;;
  print "Creating TrackletMembers table..." ;;;
  execute con (CreateTable "TrackletMembers" TrackletMembers_columns) ;;;
  print "Creating Tracklets view..." ;;;
  execute con (CreateView "Tracklets" "AllTracklets"
                 (ColEq "createdBy" 1)) ;;;
  print "Creating CollapsedTracklets view..." ;;;
  execute con (CreateView "CollapsedTracklets" "AllTracklets"
                 (POr (ColEq "deletedBy" 2) (ColEq "createdBy" 2))) ;;;
  print "Creating PurifiedTracklets view..." ;;;
  execute con (CreateView "PurifiedTracklets" "AllTracklets"
                 (POr (ColEq "deletedBy" 3) (ColEq "createdBy" 3))) ;;;
  print "Creating FinalTracklets view..." ;;;
  execute con (CreateView "FinalTracklets" "AllTracklets"
                 (POr (ColEq "deletedBy" 4) (ColEq "createdBy" 4))) ;;;
  print "" ;;;
  ret (con, database).

(** [buildTrackDatabase(database, outDir)] *)
Definition buildTrackDatabase (database outDir : string)
  : M (Connection * string) :=
  let database := os_path_join (abspath outDir) [""; database] in
  sql <-- load_global globals "sql" ;;
  con <-- connect sql database ;;
  print "Creating AllTracks table..." ;;;
  execute con (CreateTable "AllTracks" AllTracks_columns) ;;;
  print "Creating TrackMembers table..." ;;;
  execute con (CreateTable "TrackMembers" TrackMembers_columns) ;;;
  print "Creating Tracks view..." ;;;
  execute con (CreateView "Tracks" "AllTracks" (ColEq "createdBy" 5)) ;;;
  print "Creating FinalTracks view..." ;;;
  execute con (CreateView "FinalTracks" "AllTracks"
                 (POr (ColEq "deletedBy" 6) (ColEq "createdBy" 6))) ;;;
  print "" ;;;
  ret (con, database).

End Build.

(** [enumerate(l)] *)
Definition enumerate {A : Type} (l : list A) : list (nat * A) :=
  combine (seq 0 (List.length l)) l.

(** The body of the loop of [attachDatabases], for one pair [(i, window)]. *)
Definition attach_one (con : Connection) (attached_names : list string)
  (item : nat * string) : M (list string) :=
  let '(i, window) := item in
  let attached_names := attached_names ++ [("db" ++ Py.str_of_nat i)%string] in
  print ("Attaching " ++ window ++ " to con as db" ++ Py.str_of_nat i ++ "...")
    ;;;
  execute con (AttachDatabase window ("db" ++ Py.str_of_nat i)) ;;;
  ret attached_names.

Fixpoint attach_loop (con : Connection) (items : list (nat * string))
  (attached_names : list string) : M (list string) :=
  match items with
  | [] => ret attached_names
  | item :: rest =>
      attached_names <-- attach_one con attached_names item ;;
      attach_loop con rest attached_names
  end.

(** [attachDatabases(con, databases)] *)
Definition attachDatabases (con : Connection) (databases : list string)
  : M (list string) :=
  let attached_names := [] in
  databases <-- (if (10 <? List.length databases)%nat
                 then print "Warning: Cannot attach more than 10 databases..." ;;;
                      print "Proceeding with the first 10 databases..." ;;;
                      ret (Py.take 10 databases)
                 else ret databases) ;;
  attach_loop con (enumerate databases) attached_names.

(** *** What a view shows *)

(** A row of a ledger table, as far as the views look at it. *)
Record LedgerRow : Type := {
  row_createdBy : Z;
  row_deletedBy : Z
}.

Fixpoint holds (p : Pred) (r : LedgerRow) : bool :=
  match p with
  | ColEq column value =>
      if String.eqb column "createdBy" then row_createdBy r =? value
      else if String.eqb column "deletedBy" then row_deletedBy r =? value
      else false
  | POr p q => holds p r || holds q r
  end.

(** The views among the statements sent on a connection, in order:
    (name, source table, predicate). *)
Definition views_sent (con : Connection) (st : State)
  : list (string * string * Pred) :=
  flat_map (fun cs => match cs with
                      | (c, CreateView name source p) =>
                          if String.eqb c con then [(name, source, p)] else []
                      | _ => []
                      end) (sent st).

(** The views of the two claimed kinds for stage [n]. *)
Definition is_created_by (n : Z) (p : Pred) : Prop :=
  forall r, holds p r = (row_createdBy r =? n).

Definition is_affected_by (n : Z) (p : Pred) : Prop :=
  forall r, holds p r = ((row_createdBy r =? n) || (row_deletedBy r =? n)).

(** The initial state of a fresh process: nothing printed, nothing sent. *)
Definition initial : State := {| console := []; sent := [] |}.

(** The views each function defines, as the statements read. *)
Definition tracklet_views : list (string * string * Pred) :=
  [ ("Tracklets", "AllTracklets", ColEq "createdBy" 1);
    ("CollapsedTracklets", "AllTracklets",
       POr (ColEq "deletedBy" 2) (ColEq "createdBy" 2));
    ("PurifiedTracklets", "AllTracklets",
       POr (ColEq "deletedBy" 3) (ColEq "createdBy" 3));
    ("FinalTracklets", "AllTracklets",
       POr (ColEq "deletedBy" 4) (ColEq "createdBy" 4)) ].

Definition track_views : list (string * string * Pred) :=
  [ ("Tracks", "AllTracks", ColEq "createdBy" 5);
    ("FinalTracks", "AllTracks",
       POr (ColEq "deletedBy" 6) (ColEq "createdBy" 6)) ].

(** The lines [attachDatabases] prints and the statements it sends for
    the pairs [(i, window)] it goes through. *)
Definition attach_message (item : nat * string) : string :=
  ("Attaching " ++ snd item ++ " to con as db" ++ Py.str_of_nat (fst item)
     ++ "...")%string.

Definition attach_statement (con : Connection) (item : nat * string)
  : Connection * Statement :=
  (con, AttachDatabase (snd item) ("db" ++ Py.str_of_nat (fst item))).

Definition attach_name (item : nat * string) : string :=
  ("db" ++ Py.str_of_nat (fst item))%string.

End Assembly.

(** ** Python's [difflib]: [SequenceMatcher] and [unified_diff]

    The part of the standard library [_findNewLinesAndDeletedIndices]
    drives, as [SequenceMatcher(None, a, b)] runs it: no junk predicate,
    the automatic "popular element" rule on. Sequences are lists of lines;
    indices and lengths are [nat]. *)

Module Difflib.

Section SequenceMatcher.

Variables a b : list string.

(** [a[i]]; the loops only read inside the sequences. *)
Definition item (l : list string) (i : nat) : string := nth i l "".

(** [l[i1:i2]] *)
Definition slice {A : Type} (l : list A) (i1 i2 : nat) : list A :=
  firstn (i2 - i1) (skipn i1 l).

(** *** [__chain_b] *)

(** The indices at which [elt] occurs in [l], ascending, starting the
    count at [j]. *)
Fixpoint indices_from (j : nat) (elt : string) (l : list string) : list nat :=
  match l with
  | [] => []
  | x :: l' =>
      if String.eqb x elt then j :: indices_from (S j) elt l'
      else indices_from (S j) elt l'
  end.

(** An element is popular when [b] has 200 items or more and the element
    occurs more than [len(b) // 100 + 1] times. *)
Definition popular (elt : string) : bool :=
  let n := List.length b in
  (200 <=? n) && (n / 100 + 1 <? List.length (indices_from 0 elt b)).

(** No junk predicate was given: the junk set is empty. *)
Definition isbjunk (elt : string) : bool := false.

(** [b2j.get(elt, [])]: the indices of [elt] in [b], popular elements
    purged. *)
Definition b2j_get (elt : string) : list nat :=
  if popular elt then [] else indices_from 0 elt b.

(** *** [find_longest_match] *)

(** A dictionary from indices to lengths, read with [get(key, 0)]. *)
Definition j2len_t : Type := nat -> nat.

Definition j2len_empty : j2len_t := fun _ => 0.

Definition j2len_set (d : j2len_t) (j k : nat) : j2len_t :=
  fun x => if x =? j then k else d x.

(** [j2len.get(j - 1, 0)]: no key is negative. *)
Definition j2len_get_pred (d : j2len_t) (j : nat) : nat :=
  match j with
  | O => 0
  | S j' => d j'
  end.

(** The best match so far: [(besti, bestj, bestsize)]. *)
Definition Match : Type := (nat * nat * nat)%type.

(** The inner loop, [for j in b2j.get(a[i], nothing)], with its
    [continue] and [break]. *)
Fixpoint inner_loop (i blo bhi : nat) (j2len : j2len_t) (js : list nat)
  (newj2len : j2len_t) (best : Match) : j2len_t * Match :=
  match js with
  | [] => (newj2len, best)
  | j :: js' =>
      if j <? blo then inner_loop i blo bhi j2len js' newj2len best
      else if bhi <=? j then (newj2len, best)
      else
        let k := j2len_get_pred j2len j + 1 in
        let newj2len := j2len_set newj2len j k in
        let '(besti, bestj, bestsize) := best in
        let best := if bestsize <? k then (i + 1 - k, j + 1 - k, k)
                    else (besti, bestj, bestsize) in
        inner_loop i blo bhi j2len js' newj2len best
  end.

(** The outer loop, [for i in range(alo, ahi)]. *)
Fixpoint outer_loop (blo bhi : nat) (is_ : list nat) (j2len : j2len_t)
  (best : Match) : j2len_t * Match :=
  match is_ with
  | [] => (j2len, best)
  | i :: is' =>
      let '(newj2len, best) :=
        inner_loop i blo bhi j2len (b2j_get (item a i)) j2len_empty best in
      outer_loop blo bhi is' newj2len best
  end.

(** The two [while] loops that extend the best match to the left, taking
    non-junk elements ([junk = false]) or junk elements ([junk = true]). *)
Fixpoint extend_left (junk : bool) (alo blo besti bestj bestsize : nat)
  : Match :=
  match besti, bestj with
  | S i', S j' =>
      if (alo <? besti) && (blo <? bestj)
         && Bool.eqb (isbjunk (item b j')) junk
         && String.eqb (item a i') (item b j')
      then extend_left junk alo blo i' j' (S bestsize)
      else (besti, bestj, bestsize)
  | _, _ => (besti, bestj, bestsize)
  end.

(** The two [while] loops that extend it to the right; [steps] bounds the
    number of rounds and is given as [ahi - (besti + bestsize)], which the
    loop condition never lets it exceed. *)
Fixpoint extend_right (junk : bool) (steps ahi bhi besti bestj bestsize : nat)
  : nat :=
  match steps with
  | O => bestsize
  | S steps' =>
      if (besti + bestsize <? ahi) && (bestj + bestsize <? bhi)
         && Bool.eqb (isbjunk (item b (bestj + bestsize))) junk
         && String.eqb (item a (besti + bestsize)) (item b (bestj + bestsize))
      then extend_right junk steps' ahi bhi besti bestj (S bestsize)
      else bestsize
  end.

Definition find_longest_match (alo ahi blo bhi : nat) : Match :=
  let best := (alo, blo, 0) in
  let '(_, (besti, bestj, bestsize)) :=
    outer_loop blo bhi (seq alo (ahi - alo)) j2len_empty best in
  let '(besti, bestj, bestsize) :=
    extend_left false alo blo besti bestj bestsize in
  let bestsize :=
    extend_right false (ahi - (besti + bestsize)) ahi bhi besti bestj bestsize in
  let '(besti, bestj, bestsize) :=
    extend_left true alo blo besti bestj bestsize in
  let bestsize :=
    extend_right true (ahi - (besti + bestsize)) ahi bhi besti bestj bestsize in
  (besti, bestj, bestsize).

(** *** [get_matching_blocks] *)

(** The work list is a stack; its top is the head of the list. The loop
    runs until the stack is empty; [fuel] bounds the number of rounds, and
    [None] means the bound was too small. *)
Fixpoint matching_loop (fuel : nat) (queue : list (nat * nat * nat * nat))
  (matching_blocks : list Match) : option (list Match) :=
  match queue with
  | [] => Some matching_blocks
  | (alo, ahi, blo, bhi) :: queue =>
      match fuel with
      | O => None
      | S fuel' =>
          let '(i, j, k) := find_longest_match alo ahi blo bhi in
          if k =? 0 then matching_loop fuel' queue matching_blocks
          else
            let matching_blocks := matching_blocks ++ [(i, j, k)] in
            let queue := if (alo <? i) && (blo <? j)
                         then (alo, i, blo, j) :: queue else queue in
            let queue := if (i + k <? ahi) && (j + k <? bhi)
                         then (i + k, ahi, j + k, bhi) :: queue else queue in
            matching_loop fuel' queue matching_blocks
      end
  end.

(** [list.sort()] on triples: ascending, compared component by
    component. *)
Definition match_leb (x y : Match) : bool :=
  let '(i1, j1, k1) := x in
  let '(i2, j2, k2) := y in
  (i1 <? i2) || ((i1 =? i2) && ((j1 <? j2) || ((j1 =? j2) && (k1 <=? k2)))).

Fixpoint insert_match (x : Match) (l : list Match) : list Match :=
  match l with
  | [] => [x]
  | h :: t => if match_leb x h then x :: h :: t else h :: insert_match x t
  end.

Definition sort_matches (l : list Match) : list Match :=
  fold_right insert_match [] l.

(** The loop that merges adjacent blocks; [(i1, j1, k1)] is the block
    being grown. *)
Fixpoint collapse_loop (blocks : list Match) (i1 j1 k1 : nat)
  (non_adjacent : list Match) : list Match * Match :=
  match blocks with
  | [] => (non_adjacent, (i1, j1, k1))
  | (i2, j2, k2) :: rest =>
      if (i1 + k1 =? i2) && (j1 + k1 =? j2)
      then collapse_loop rest i1 j1 (k1 + k2) non_adjacent
      else
        let non_adjacent := if k1 =? 0 then non_adjacent
                            else non_adjacent ++ [(i1, j1, k1)] in
        collapse_loop rest i2 j2 k2 non_adjacent
  end.

(** The number of rounds [matching_loop] is given: more than it can
    use on sequences of these lengths. *)
Definition matching_fuel : nat := 2 * List.length a + 2.

Definition get_matching_blocks : option (list Match) :=
  let la := List.length a in
  let lb := List.length b in
  match matching_loop matching_fuel [(0, la, 0, lb)] [] with
  | None => None
  | Some matching_blocks =>
      let matching_blocks := sort_matches matching_blocks in
      let '(non_adjacent, (i1, j1, k1)) :=
        collapse_loop matching_blocks 0 0 0 [] in
      let non_adjacent := if k1 =? 0 then non_adjacent
                          else non_adjacent ++ [(i1, j1, k1)] in
      Some (non_adjacent ++ [(la, lb, 0)])
  end.

(** *** [get_opcodes] *)

Inductive Tag : Type := Replace | Delete | Insert | Equal.

Definition tag_eqb (t u : Tag) : bool :=
  match t, u with
  | Replace, Replace | Delete, Delete | Insert, Insert | Equal, Equal => true
  | _, _ => false
  end.

(** An opcode [(tag, i1, i2, j1, j2)]. *)
Definition Opcode : Type := (Tag * nat * nat * nat * nat)%type.

Fixpoint opcodes_loop (blocks : list Match) (i j : nat) (answer : list Opcode)
  : list Opcode :=
  match blocks with
  | [] => answer
  | (ai, bj, size) :: rest =>
      let tag := if (i <? ai) && (j <? bj) then Some Replace
                 else if i <? ai then Some Delete
                 else if j <? bj then Some Insert
                 else None in
      let answer := match tag with
                    | Some t => answer ++ [(t, i, ai, j, bj)]
                    | None => answer
                    end in
      let i' := ai + size in
      let j' := bj + size in
      let answer := if size =? 0 then answer
                    else answer ++ [(Equal, ai, i', bj, j')] in
      opcodes_loop rest i' j' answer
  end.

Definition get_opcodes : option (list Opcode) :=
  match get_matching_blocks with
  | None => None
  | Some blocks => Some (opcodes_loop blocks 0 0 [])
  end.

(** *** [get_grouped_opcodes] *)

Definition opcode_tag (c : Opcode) : Tag :=
  let '(tag, _, _, _, _) := c in tag.

(** [codes[0] = ...] when the first opcode is [equal]. *)
Definition fix_leading (n : nat) (codes : list Opcode) : list Opcode :=
  match codes with
  | (Equal, i1, i2, j1, j2) :: rest =>
      (Equal, Nat.max i1 (i2 - n), i2, Nat.max j1 (j2 - n), j2) :: rest
  | _ => codes
  end.

(** [codes[-1] = ...] when the last opcode is [equal]. *)
Fixpoint fix_trailing (n : nat) (codes : list Opcode) : list Opcode :=
  match codes with
  | [] => []
  | [(Equal, i1, i2, j1, j2)] =>
      [(Equal, i1, Nat.min i2 (i1 + n), j1, Nat.min j2 (j1 + n))]
  | c :: rest => c :: fix_trailing n rest
  end.

(** The grouping loop: the groups yielded so far and the group being
    filled. *)
Fixpoint group_loop (n : nat) (codes : list Opcode)
  (yielded : list (list Opcode)) (group : list Opcode)
  : list (list Opcode) * list Opcode :=
  match codes with
  | [] => (yielded, group)
  | (tag, i1, i2, j1, j2) :: rest =>
      if tag_eqb tag Equal && (n + n <? i2 - i1)
      then
        let group := group ++ [(tag, i1, Nat.min i2 (i1 + n),
                                j1, Nat.min j2 (j1 + n))] in
        let yielded := yielded ++ [group] in
        let i1 := Nat.max i1 (i2 - n) in
        let j1 := Nat.max j1 (j2 - n) in
        group_loop n rest yielded [(tag, i1, i2, j1, j2)]
      else group_loop n rest yielded (group ++ [(tag, i1, i2, j1, j2)])
  end.

(** The last [yield], for a group that is neither empty nor a single
    [equal] opcode. *)
Definition yield_last (yielded : list (list Opcode)) (group : list Opcode)
  : list (list Opcode) :=
  match group with
  | [] => yielded
  | [(Equal, _, _, _, _)] => yielded
  | _ => yielded ++ [group]
  end.

Definition get_grouped_opcodes (n : nat) : option (list (list Opcode)) :=
  match get_opcodes with
  | None => None
  | Some codes =>
      let codes := match codes with
                   | [] => [(Equal, 0, 1, 0, 1)]
                   | _ => codes
                   end in
      let codes := fix_leading n codes in
      let codes := fix_trailing n codes in
      let '(yielded, group) := group_loop n codes [] [] in
      Some (yield_last yielded group)
  end.

(** *** [unified_diff] *)

Definition newline : string := String (ascii_of_nat 10) EmptyString.

Definition _format_range_unified (start stop : nat) : string :=
  let beginning := start + 1 in
  let length := stop - start in
  if length =? 1 then Py.str_of_nat beginning
  else
    let beginning := if length =? 0 then beginning - 1 else beginning in
    (Py.str_of_nat beginning ++ "," ++ Py.str_of_nat length)%string.

(** The lines one opcode of a group contributes. *)
Definition opcode_lines (c : Opcode) : list string :=
  let '(tag, i1, i2, j1, j2) := c in
  match tag with
  | Equal => map (fun line => (" " ++ line)%string) (slice a i1 i2)
  | _ =>
      (if tag_eqb tag Replace || tag_eqb tag Delete
       then map (fun line => ("-" ++ line)%string) (slice a i1 i2) else [])
      ++
      (if tag_eqb tag Replace || tag_eqb tag Insert
       then map (fun line => ("+" ++ line)%string) (slice b j1 j2) else [])
  end.

(** The lines of one group: the hunk header, then the lines of its
    opcodes. A group is never empty. *)
Definition group_lines (lineterm : string) (group : list Opcode)
  : list string :=
  match group, last group (Equal, 0, 0, 0, 0) with
  | first :: _, lst =>
      let '(_, f1, _, f3, _) := first in
      let '(_, _, l2, _, l4) := lst in
      let file1_range := _format_range_unified f1 l2 in
      let file2_range := _format_range_unified f3 l4 in
      ("@@ -" ++ file1_range ++ " +" ++ file2_range ++ " @@" ++ lineterm)%string
      :: flat_map opcode_lines group
  | [], _ => []
  end.

(** [unified_diff(a, b, n=n)] with the other arguments at their defaults
    (empty file names and dates, [lineterm] a line feed). *)
Definition unified_diff (n : nat) : option (list string) :=
  let lineterm := newline in
  match get_grouped_opcodes n with
  | None => None
  | Some groups =>
      Some (match groups with
            | [] => []
            | _ => ("--- " ++ lineterm)%string :: ("+++ " ++ lineterm)%string
                   :: flat_map (group_lines lineterm) groups
            end)
  end.

End SequenceMatcher.

End Difflib.

(** ** Notions used to state what the matcher computes *)

Module MatcherSpec.

Import Difflib.

Section Spec.

Variables a b : list string.

(** [a[i:i+k] == b[j:j+k]], item by item. *)
Definition same_run (i j k : nat) : Prop :=
  forall t, t < k -> item a (i + t) = item b (j + t).

(** A match inside the window [a[alo:ahi]], [b[blo:bhi]]. *)
Definition valid_match (alo ahi blo bhi : nat) (m : Match) : Prop :=
  let '(i, j, k) := m in
  alo <= i /\ i + k <= ahi /\ blo <= j /\ j + k <= bhi /\ same_run i j k.

(** What the dictionary [j2len] holds when the outer loop of
    [find_longest_match] is about to read row [n]: every positive entry
    [d j] is the length of a run that ends at [a[n-1]] and [b[j]] inside
    the window. *)
Definition j2len_ok (alo ahi blo bhi n : nat) (d : j2len_t) : Prop :=
  forall j, 0 < d j ->
    d j <= n - alo /\ n <= ahi /\ d j <= j + 1 - blo /\ j < bhi
    /\ same_run (n - d j) (j + 1 - d j) (d j).

(** The blocks [matching_loop] appends while it works a window off, in the
    order it appends them: the window's longest match, then the blocks of
    the window to its right, then those of the window to its left. The
    first argument bounds the depth and is given as the window's size. *)
Fixpoint visit_order (n alo ahi blo bhi : nat) : list Match :=
  match n with
  | O => []
  | S n' =>
      let '(i, j, k) := find_longest_match a b alo ahi blo bhi in
      if k =? 0 then []
      else (i, j, k)
           :: (if (i + k <? ahi) && (j + k <? bhi)
               then visit_order n' (i + k) ahi (j + k) bhi else [])
           ++ (if (alo <? i) && (blo <? j)
               then visit_order n' alo i blo j else [])
  end.

(** The same blocks from left to right. *)
Fixpoint in_order (n alo ahi blo bhi : nat) : list Match :=
  match n with
  | O => []
  | S n' =>
      let '(i, j, k) := find_longest_match a b alo ahi blo bhi in
      if k =? 0 then []
      else (if (alo <? i) && (blo <? j)
            then in_order n' alo i blo j else [])
           ++ (i, j, k)
           :: (if (i + k <? ahi) && (j + k <? bhi)
               then in_order n' (i + k) ahi (j + k) bhi else [])
  end.

(** Blocks that follow one another without overlap in both sequences,
    from [(i0, j0)] up to [(ie, je)], each a run of equal items. With
    [strict] every block is non-empty. *)
Fixpoint chain (strict : bool) (i0 j0 : nat) (l : list Match) (ie je : nat)
  : Prop :=
  match l with
  | [] => i0 <= ie /\ j0 <= je
  | (i, j, k) :: rest =>
      i0 <= i /\ j0 <= j /\ (strict = true -> 0 < k) /\ same_run i j k
      /\ chain strict (i + k) (j + k) rest ie je
  end.

(** [queue.append(w)] under a condition. *)
Definition push (cond : bool) (w : nat * nat * nat * nat)
  (q : list (nat * nat * nat * nat)) : list (nat * nat * nat * nat) :=
  if cond then w :: q else q.

(** The order [list.sort()] puts triples in. *)
Definition match_le (x y : Match) : Prop := match_leb x y = true.

End Spec.

End MatcherSpec.

(** ** Notions used to state what the opcodes and the diff hold *)

Module OpcodeSpec.

Import Difflib MatcherSpec.

Section Spec.

Variables a b : list string.

(** An opcode in keeping with its tag. *)
Definition op_ok (c : Opcode) : Prop :=
  let '(tag, i1, i2, j1, j2) := c in
  i1 <= i2 /\ j1 <= j2 /\
  match tag with
  | Equal => i2 - i1 = j2 - j1 /\ same_run a b i1 j1 (i2 - i1)
  | Replace => True
  | Delete => j1 = j2
  | Insert => i1 = i2
  end.

(** Opcodes that follow one another from [(i, j)] to [(ie, je)]: each
    starts where the one before it ends. *)
Fixpoint path (i j : nat) (ops : list Opcode) (ie je : nat) : Prop :=
  match ops with
  | [] => i = ie /\ j = je
  | (tag, i1, i2, j1, j2) :: rest =>
      i1 = i /\ j1 = j /\ op_ok (tag, i1, i2, j1, j2)
      /\ path i2 j2 rest ie je
  end.

(** An [equal] opcode that spans nothing, as all of them do in the groups
    made with no context line. *)
Definition thin (c : Opcode) : Prop :=
  let '(tag, i1, i2, j1, j2) := c in
  tag = Equal -> i1 = i2 /\ j1 = j2.

(** The 1-based positions in [a] an opcode removes, the 1-based positions
    in [b] it adds, and the text reported for the lines it adds. *)
Definition deleted_of (c : Opcode) : list nat :=
  let '(tag, i1, i2, j1, j2) := c in
  match tag with
  | Replace | Delete => seq (i1 + 1) (i2 - i1)
  | _ => []
  end.

Definition added_of (c : Opcode) : list nat :=
  let '(tag, i1, i2, j1, j2) := c in
  match tag with
  | Replace | Insert => seq (j1 + 1) (j2 - j1)
  | _ => []
  end.

Definition reported (line : string) : string :=
  Py.slice_1_m2 ("+" ++ line).

Definition added_lines_of (c : Opcode) : list string :=
  let '(tag, i1, i2, j1, j2) := c in
  match tag with
  | Replace | Insert => map reported (slice b j1 j2)
  | _ => []
  end.

(** A group as [get_grouped_opcodes(0)] yields them. *)
Definition good_group (g : list Opcode) : Prop :=
  g <> [] /\ Forall thin g /\
  exists gi gj gi' gj',
    path gi gj g gi' gj' /\ gi' <= List.length a /\ gj' <= List.length b.

End Spec.

End OpcodeSpec.

(** ** The linkage diff engine: [_findNewLinesAndDeletedIndices] *)

Module Diff.

Import Difflib.

(** The files the call can open: path and content. *)
Definition FileSystem : Type := list (string * string).

(** [open(path, "r")] followed by reading the whole file. *)
Fixpoint open_read (fs : FileSystem) (path : string) : Result string :=
  match fs with
  | [] => Raise (IOError path)
  | (p, content) :: fs' =>
      if String.eqb p path then Ok content else open_read fs' path
  end.

(** [f.readlines()]: the lines of the content, each with its line feed;
    the last line has none when the content does not end with one. *)
Fixpoint readlines_aux (s : string) (cur : string) : list string :=
  match s with
  | EmptyString =>
      match cur with
      | EmptyString => []
      | _ => [cur]
      end
  | String c s' =>
      if Ascii.eqb c (ascii_of_nat 10)
      then (cur ++ newline)%string :: readlines_aux s' EmptyString
      else readlines_aux s' (cur ++ String c EmptyString)%string
  end.

Definition readlines (content : string) : list string :=
  readlines_aux content EmptyString.

(** The variables of the loop over the diff. The two counters are unbound
    until the first hunk header is read. *)
Record ScanState : Type := {
  new_lines : list string;
  new_line_nums : list nat;
  deleted_lines : list string;
  deleted_line_nums : list nat;
  file1_index : option nat;
  file2_index : option nat
}.

Definition scan_start : ScanState :=
  {| new_lines := []; new_line_nums := [];
     deleted_lines := []; deleted_line_nums := [];
     file1_index := None; file2_index := None |}.

(** Reading a local variable. *)
Definition load_local (name : string) (v : option nat) : Result nat :=
  match v with
  | Some n => Ok n
  | None => Raise (UnboundLocalError name)
  end.

(** [l[i]] *)
Definition index {A : Type} (l : list A) (i : nat) : Result A :=
  match nth_error l i with
  | Some x => Ok x
  | None => Raise (IndexError "list index out of range")
  end.

(** [int(element.split(",")[0][1:])] *)
Definition hunk_start (element : string) : Result nat :=
  first <- index (Py.split_on "," element) 0 ;;
  Py.int_of_str (Py.drop1 first).

(** The body of the loop [for line in udiff[2:]]. *)
Definition scan_line (st : ScanState) (line : string) : Result ScanState :=
  let line_elements := Py.split_ws line in
  e0 <- index line_elements 0 ;;
  if String.eqb e0 "@@" then
    e1 <- index line_elements 1 ;;
    f1 <- hunk_start e1 ;;
    e2 <- index line_elements 2 ;;
    f2 <- hunk_start e2 ;;
    Ok {| new_lines := new_lines st; new_line_nums := new_line_nums st;
          deleted_lines := deleted_lines st;
          deleted_line_nums := deleted_line_nums st;
          file1_index := Some f1; file2_index := Some f2 |}
  else
    match e0 with
    | EmptyString => Raise (IndexError "string index out of range")
    | String c _ =>
        if Ascii.eqb c "+" then
          f2 <- load_local "file2_index" (file2_index st) ;;
          Ok {| new_lines := new_lines st ++ [Py.slice_1_m2 line];
                new_line_nums := new_line_nums st ++ [f2];
                deleted_lines := deleted_lines st;
                deleted_line_nums := deleted_line_nums st;
                file1_index := file1_index st;
                file2_index := Some (f2 + 1) |}
        else if Ascii.eqb c "-" then
          f1 <- load_local "file1_index" (file1_index st) ;;
          Ok {| new_lines := new_lines st;
                new_line_nums := new_line_nums st;
                deleted_lines := deleted_lines st ++ [line];
                deleted_line_nums := deleted_line_nums st ++ [f1];
                file1_index := Some (f1 + 1);
                file2_index := file2_index st |}
        else Ok st
    end.

Fixpoint scan (st : ScanState) (udiff : list string) : Result ScanState :=
  match udiff with
  | [] => Ok st
  | line :: rest =>
      st' <- scan_line st line ;;
      scan st' rest
  end.

(** The function on the lines of the two files: the diff, then the scan
    of all but its first two lines. *)
Definition find_new_and_deleted (lines1 lines2 : list string)
  : Result (list string * list nat * list nat) :=
  match unified_diff lines1 lines2 0 with
  | None => Raise OutOfFuel
  | Some udiff =>
      st <- scan scan_start (Py.drop 2 udiff) ;;
      Ok (new_lines st, new_line_nums st, deleted_line_nums st)
  end.

(** [_findNewLinesAndDeletedIndices(file1, file2)] *)
Definition _findNewLinesAndDeletedIndices (fs : FileSystem)
  (file1 file2 : string) : Result (list string * list nat * list nat) :=
  file1In <- open_read fs file1 ;;
  file2In <- open_read fs file2 ;;
  find_new_and_deleted (readlines file1In) (readlines file2In).

End Diff.

(** ** Notions used to state what the diff engine returns *)

Module DiffSpec.

Import Difflib OpcodeSpec Diff.

(** [l] without the items at the 1-based positions listed in [ps]; [p] is
    the position of the head of [l]. *)
Fixpoint keep_from {A : Type} (p : nat) (ps : list nat) (l : list A) : list A :=
  match l with
  | [] => []
  | x :: r =>
      if existsb (Nat.eqb p) ps then keep_from (S p) ps r
      else x :: keep_from (S p) ps r
  end.

Definition remove_positions {A : Type} (ps : list nat) (l : list A) : list A :=
  keep_from 1 ps l.

(** The line at a 1-based position of a file. *)
Definition line_at (lines : list string) (p : nat) : string :=
  nth (p - 1) lines "".

(** The items an opcode leaves in place, read in [a] and read in [b]. *)
Definition kept_a (a : list string) (c : Opcode) : list string :=
  let '(tag, i1, i2, j1, j2) := c in
  match tag with
  | Equal => slice a i1 i2
  | _ => []
  end.

Definition kept_b (b : list string) (c : Opcode) : list string :=
  let '(tag, i1, i2, j1, j2) := c in
  match tag with
  | Equal => slice b j1 j2
  | _ => []
  end.

(** The state the scan is in after some lines were added and removed. *)
Definition scanned (st : ScanState) (lines : list string) (nums : list nat)
  (dlines : list string) (dnums : list nat) (f1 f2 : option nat) : ScanState :=
  {| new_lines := new_lines st ++ lines;
     new_line_nums := new_line_nums st ++ nums;
     deleted_lines := deleted_lines st ++ dlines;
     deleted_line_nums := deleted_line_nums st ++ dnums;
     file1_index := f1;
     file2_index := f2 |}.

(** The start a hunk header announces for a range, as the scan reads
    it. *)
Definition announced (start stop : nat) : nat :=
  if stop - start =? 0 then start else start + 1.

(** One sequence seen through the opcodes: segments [(start, stop,
    removed)] that follow one another. An opcode gives one segment of [a]
    and one of [b]. *)
Definition Segment : Type := (nat * nat * bool)%type.

Fixpoint contig (i : nat) (segs : list Segment) (ie : nat) : Prop :=
  match segs with
  | [] => i = ie
  | (s, e, _) :: rest => s = i /\ s <= e /\ contig e rest ie
  end.

Definition removed_of (sg : Segment) : list nat :=
  let '(s, e, r) := sg in
  if r then seq (s + 1) (e - s) else [].

Definition kept_of {A : Type} (l : list A) (sg : Segment) : list A :=
  let '(s, e, r) := sg in
  if r then [] else slice l s e.

Definition seg_a (c : Opcode) : Segment :=
  let '(tag, i1, i2, j1, j2) := c in
  (i1, i2, match tag with Replace | Delete => true | _ => false end).

Definition seg_b (c : Opcode) : Segment :=
  let '(tag, i1, i2, j1, j2) := c in
  (j1, j2, match tag with Replace | Insert => true | _ => false end).

(** A hunk header as [unified_diff] writes it. *)
Definition header_line (gi gi' gj gj' : nat) : string :=
  ("@@ -" ++ _format_range_unified gi gi' ++ " +"
     ++ _format_range_unified gj gj' ++ " @@" ++ newline)%string.

End DiffSpec.

(** ** Files used as examples *)

Module Examples.

Import Difflib Diff.

(** A file from its lines, each ended by a line feed. *)
Definition file_of (lines : list string) : string :=
  String.concat "" (map (fun l => (l ++ newline)%string) lines).

(** The scenario of the specification: the new file is the old one with
    one line appended. *)
Definition scenario_fs : FileSystem :=
  [ ("stage1.txt", file_of ["1 2 3"; "4 5 6"]);
    ("stage2.txt", file_of ["1 2 3"; "4 5 6"; "7 8 9"]) ].

(** Two lines appended, and the same two lines removed again. *)
Definition append_fs : FileSystem :=
  [ ("short.txt", file_of ["1 2 3"]);
    ("long.txt", file_of ["1 2 3"; "7 8 9"; "10 11 12"]) ].

(** Two files that differ in several places. *)
Definition hunks_fs : FileSystem :=
  [ ("before.txt",
     file_of ["1 2"; "3 4"; "5 6"; "7 8"; "9 10"; "11 12"; "13 14"; "15 16"]);
    ("after.txt",
     file_of ["1 2"; "30 40"; "5 6"; "7 8"; "11 12"; "13 14"; "17 18";
              "19 20"; "15 16"; "15 16"]) ].

End Examples.

(** ** The runs [find_longest_match] counts *)

Module RunSpec.

Import Difflib.

Section Spec.

Variables a b : list string.

(** [j] is one of the places [b2j] lists for [a[i]]: [b[j]] is [a[i]] and
    the element was not purged as popular. *)
Definition listed (i j : nat) : bool :=
  (j <? List.length b) && String.eqb (item b j) (item a i)
  && negb (popular b (item a i)).

(** The length the dictionary [j2len] holds for the run of listed places
    that ends at [a[i-1]] and [b[j-1]]. *)
Fixpoint run (i j : nat) : nat :=
  match i, j with
  | S i', S j' => if listed i' j' then S (run i' j') else 0
  | _, _ => 0
  end.

(** The opcodes when one sequence is the other with items added at the
    end: the common part, then what only the longer one has. *)
Definition prefix_opcodes (la lb : nat) : list Opcode :=
  let m := Nat.min la lb in
  (if m =? 0 then [] else [(Equal, 0, m, 0, m)])
  ++ (if m <? la then [(Delete, m, la, m, lb)]
      else if m <? lb then [(Insert, m, la, m, lb)] else []).

End Spec.

End RunSpec.

(** ** The relations of the builder, line by line *)

Module BuilderRows.

Import Pandas Builder BuilderSpec.
Open Scope Z_scope.

(** The summary row of line [k]: none when the line has no token. *)
Definition summary_of_line (newLines : list string) (createdBy idStart : Z)
  (k : nat) : list SummaryRow :=
  match tokens (nth k newLines "") with
  | [] => []
  | ts => [ {| linkageId := idStart + Z.of_nat k;
               numMembers := Z.of_nat (List.length ts);
               createdBy := createdBy;
               deletedBy := 0 |} ]
  end.

(** The ID of line [k] when the line has a token. *)
Definition id_of_line (newLines : list string) (idStart : Z) (k : nat)
  : list Z :=
  match tokens (nth k newLines "") with
  | [] => []
  | _ => [idStart + Z.of_nat k]
  end.

(** The member tokens the members relation holds under a linkage ID, in
    the order of its rows. *)
Definition members_under (i : Z) (m : MembersFrame) : list string :=
  map snd (filter (fun r => Z.eqb i (fst r)) (m_rows m)).

End BuilderRows.

(** ** Linkage files as the stages write them *)

Module PipelineSpec.

Import Difflib.
Open Scope Z_scope.

(** A line of a linkage file: the member tokens separated by single
    spaces, then one more character [c] and the line feed. *)
Definition linkage_line (c : ascii) (row : list string) : string :=
  (String.concat " " row ++ String c newline)%string.

(** A member token: not empty, no space in it. *)
Definition member_token (t : string) : Prop :=
  t <> ""%string
  /\ PyAux.all_chars (fun ch => negb (Ascii.eqb ch " ")) t = true.

(** A linkage: at least one member token. *)
Definition linkage (row : list string) : Prop :=
  row <> [] /\ Forall member_token row.

End PipelineSpec.

(** ** Notions used to state what the database assembly sends *)

Module AssemblySpec.

Import Store Assembly.

(** The columns a [WHERE] clause reads. *)
Fixpoint pred_columns (p : Pred) : list string :=
  match p with
  | ColEq column _ => [column]
  | POr p q => pred_columns p ++ pred_columns q
  end.

(** A table known on a connection: connection, name, column names. *)
Definition KnownTable : Type := (Connection * string * list string)%type.

Definition has_columns (c : Connection) (source : string)
  (columns : list string) (t : KnownTable) : bool :=
  let '(tc, tname, tcolumns) := t in
  String.eqb tc c && String.eqb tname source
  && forallb (fun col => existsb (String.eqb col) tcolumns) columns.

(** Going through the statements in the order they were sent: every view
    selects from a table created before it on the same connection, and
    filters on columns that table has. *)
Fixpoint resolves (tables : list KnownTable)
  (log : list (Connection * Statement)) : bool :=
  match log with
  | [] => true
  | (c, CreateTable name columns) :: rest =>
      resolves ((c, name, map fst columns) :: tables) rest
  | (c, CreateView name source p) :: rest =>
      existsb (has_columns c source (pred_columns p)) tables
      && resolves tables rest
  | (c, AttachDatabase _ _) :: rest => resolves tables rest
  end.

(** The names of the tables created by the statements of a log. *)
Definition tables_created (log : list (Connection * Statement))
  : list string :=
  flat_map (fun cs => match snd cs with
                      | CreateTable name _ => [name]
                      | _ => []
                      end) log.

(** The alias and the file of an [ATTACH] statement. *)
Definition attached (log : list (Connection * Statement))
  : list (string * string) :=
  flat_map (fun cs => match snd cs with
                      | AttachDatabase file alias => [(file, alias)]
                      | _ => []
                      end) log.

(** The two lines printed when more than ten databases are given. *)
Definition too_many_warning : list string :=
  ["Warning: Cannot attach more than 10 databases...";
   "Proceeding with the first 10 databases..."].

End AssemblySpec.

(** ** The linkage file loaders: [readTrackletsIntoDatabase],
    [readTracksIntoDatabase] *)

Module Loader.

Import Pandas Store Assembly.
Open Scope Z_scope.

(** What a name can be bound to: a string, or one of the values of
    [Store.PyValue]. *)
Inductive Value : Type :=
| Str (s : string)
| Other (v : PyValue).

Definition Names : Type := list (string * Value).

(** The global names of [io.py] once the module is loaded. *)
Definition module_names : Names :=
  map (fun nv => (fst nv, Other (snd nv))) io_globals.

Fixpoint lookup_name (name : string) (g : Names) : option Value :=
  match g with
  | [] => None
  | (n, v) :: g' => if String.eqb n name then Some v else lookup_name name g'
  end.

(** One call of [frame.to_sql(table, con, if_exists="append",
    index=False)]: the table, the connection, and the columns and rows of
    the frame handed over. The store is an external collaborator: the
    model records what it is given. *)
Record Write : Type := {
  w_table : string;
  w_con : Connection;
  w_columns : list string;
  w_rows : list (Z * string)
}.

(** What a loader leaves behind: its outcome and the writes made so far. *)
Definition Loaded : Type := (Result unit * list Write)%type.

Section Readers.

(** [pd.read_csv(f, header=None, names=["diaId"], chunksize=chunksize)],
    an external collaborator: it raises at once, or gives an iterator that
    yields chunks, each the strings of its one column [diaId], and may
    raise after them. *)
Variable read_csv :
  Value -> Z -> Result (list (list string) * option PyError).

(** The end of the loop: the iterator is exhausted, or raises. *)
Definition finish (after : option PyError) (done : Loaded) : Loaded :=
  match done, after with
  | (Ok tt, log), Some e => (Raise e, log)
  | _, _ => done
  end.

(** The frame made of one chunk: the body of the loop, down to
    [dropna]. *)
Definition chunk_rows (chunk : list string) (first_id : Z)
  : Result (list (Z * string)) :=
  let ids := arange first_id (List.length chunk) in
  frame <- frame_of_lists (map (Py.split_on " ") chunk) ids ;;
  let chunk_df := stack frame in
  let chunk_df := dropna (replace_empty chunk_df) in
  Ok chunk_df.

(** The loop [for i, chunk in enumerate(...)]. *)
Fixpoint load_chunks (table id_column : string) (con : Connection)
  (idOffset chunksize : Z) (items : list (nat * list string))
  (log : list Write) : Loaded :=
  match items with
  | [] => (Ok tt, log)
  | (i, chunk) :: rest =>
      match chunk_rows chunk (idOffset + chunksize * Z.of_nat i + 1) with
      | Raise e => (Raise e, log)
      | Ok chunk_df =>
          load_chunks table id_column con idOffset chunksize rest
            (log ++ [ {| w_table := table; w_con := con;
                         w_columns := [id_column; "diaId"];
                         w_rows := chunk_df |} ])
      end
  end.

(** [readTrackletsIntoDatabase(trackletFile, con, trackletIdOffset,
    chunksize)]. The file read is the one the name [trackFile] stands
    for, which is no parameter and no local variable of the function. *)
Definition readTrackletsIntoDatabase (names : Names)
  (trackletFile : string) (con : Connection)
  (trackletIdOffset chunksize : Z) (log : list Write) : Loaded :=
  match lookup_name "trackFile" names with
  | None => (Raise (NameError "trackFile"), log)
  | Some trackFile =>
      match read_csv trackFile chunksize with
      | Raise e => (Raise e, log)
      | Ok (chunks, after) =>
          finish after
            (load_chunks "TrackletMembers" "trackletId" con trackletIdOffset
                         chunksize (enumerate chunks) log)
      end
  end.

(** [readTracksIntoDatabase(trackFile, con, trackIdOffset, chunksize)] *)
Definition readTracksIntoDatabase (trackFile : string) (con : Connection)
  (trackIdOffset chunksize : Z) (log : list Write) : Loaded :=
  match read_csv (Str trackFile) chunksize with
  | Raise e => (Raise e, log)
  | Ok (chunks, after) =>
      finish after
        (load_chunks "TrackMembers" "trackId" con trackIdOffset chunksize
                     (enumerate chunks) log)
  end.

End Readers.

(** A write as a loader makes them. *)
Definition track_write (table id_column : string) (con : Connection)
  (w : Write) : Prop :=
  w_table w = table /\ w_con w = con
  /\ w_columns w = [id_column; "diaId"]%string.

(** A reader that yields the same chunks whatever it is asked. *)
Definition reader_of (chunks : list (list string))
  : Value -> Z -> Result (list (list string) * option PyError) :=
  fun _ _ => Ok (chunks, None).

End Loader.

(** ** The detection file reader: [readDetectionsIntoDatabase] *)

Module Detections.

Import Store.
Open Scope Z_scope.

(** A dict with string keys, in its iteration order. *)
Definition Dict (V : Type) : Type := list (string * V).

Fixpoint dict_get {V : Type} (d : Dict V) (key : string) : option V :=
  match d with
  | [] => None
  | (k, v) :: d' => if String.eqb k key then Some v else dict_get d' key
  end.

(** [str(z)] for an integer. *)
Definition str_of_int (z : Z) : string :=
  if z <? 0 then ("-" ++ Py.str_of_nat (Z.to_nat (- z)))%string
  else Py.str_of_nat (Z.to_nat z).

Definition tab : string := String (ascii_of_nat 9) EmptyString.

(** What the call can raise: [KeyError] from a dict, or an exception of
    [PyError]. *)
Inductive DetError : Type :=
| KeyError (key : string)
| Raised (e : PyError).

Inductive Outcome (A : Type) : Type :=
| Done (a : A)
| Failed (e : DetError).

Arguments Done {A} a.
Arguments Failed {A} e.

(** The query [pd.read_sql] is given:
    [SELECT DISTINCT column FROM table], with
    [WHERE column NOT IN ('not_in')] when [not_in] is there. *)
Record Query : Type := {
  q_column : string;
  q_table : string;
  q_not_in : option string
}.

(** The statements the function executes. The view is
    [CREATE VIEW name AS SELECT alias.column AS as_name, ... FROM
    detections AS d], with [JOIN table AS m ON d.left = m.right] when
    [v_join] is there; a selected column is (alias, column, as_name). *)
Inductive DetStatement : Type :=
| Stmt (s : Statement)
| CreateSourcesView (name : string)
                    (selected : list (string * string * string))
                    (detections : string)
                    (join : option (string * string * string)).

(** The frame [objects]: its column names, and its rows as (the object
    name, when the frame still has that column; the integer of the column
    [objectId]). *)
Record ObjectsFrame : Type := {
  o_columns : list string;
  o_rows : list (option string * Z)
}.

(** [objects["objectId"] = objects.index + 1] on the frame the query
    gave, whose one column is [column]: a column of that very name is
    replaced, any other is kept beside the new one. *)
Definition number_objects (column : string) (found : list string)
  : ObjectsFrame :=
  let ids := map (fun k => Z.of_nat k + 1) (seq 0 (List.length found)) in
  if String.eqb column "objectId"
  then {| o_columns := ["objectId"];
          o_rows := map (fun i => (None, i)) ids |}
  else {| o_columns := [column; "objectId"];
          o_rows := combine (map Some found) ids |}.

(** [objects.sort_values("objectId", inplace=True)]. Rows with equal
    [objectId] keep the order they had; pandas promises no order for
    them. *)
Fixpoint insert_by_id (r : option string * Z) (l : list (option string * Z))
  : list (option string * Z) :=
  match l with
  | [] => [r]
  | h :: t => if snd r <? snd h then r :: h :: t
              else h :: insert_by_id r t
  end.

Definition sort_values (rows : list (option string * Z))
  : list (option string * Z) :=
  fold_right insert_by_id [] rows.

Section Reader.

(** The chunks [pd.read_csv] yields are frames the function hands to the
    store as they are. *)
Variable Chunk : Type.

Variable ReadParams : Type.

(** What the call leaves behind, in order. *)
Inductive Event : Type :=
| Printed (line : string)
| ChunkWritten (table : string) (con : Connection) (chunk : Chunk)
| Executed (con : Connection) (stmt : DetStatement)
| Queried (con : Connection) (query : Query)
| ObjectsWritten (table : string) (con : Connection) (frame : ObjectsFrame).

(** [pd.read_csv(detsFile, chunksize=chunksize, **readParams)], an
    external collaborator: it raises at once, or gives an iterator that
    yields chunks and may raise after them. *)
Variable read_csv :
  string -> Z -> ReadParams -> Result (list Chunk * option PyError).

(** [pd.read_sql(query, con)], an external collaborator: the values of
    the one column selected, or an exception. What it gives may depend on
    all that was done before. *)
Variable read_sql : Query -> Connection -> list Event -> Result (list string).

Definition D (A : Type) : Type := list Event -> Outcome A * list Event.

Definition dret {A : Type} (a : A) : D A := fun log => (Done a, log).

Definition dfail {A : Type} (e : DetError) : D A := fun log => (Failed e, log).

Definition dbind {A B : Type} (c : D A) (k : A -> D B) : D B :=
  fun log => match c log with
             | (Done a, log') => k a log'
             | (Failed e, log') => (Failed e, log')
             end.

Notation "x <~ c ;; k" := (dbind c (fun x => k))
  (at level 61, c at next level, right associativity).

Notation "c ~;; k" := (dbind c (fun _ => k))
  (at level 61, right associativity).

Definition emit (e : Event) : D unit := fun log => (Done tt, log ++ [e]).

(** [print(s)] *)
Definition dprint (s : string) : D unit := emit (Printed s).

(** [d[key]] *)
Definition getitem {V : Type} (d : Dict V) (key : string) : D V :=
  match dict_get d key with
  | Some v => dret v
  | None => dfail (KeyError key)
  end.

Definition lift {A : Type} (r : Result A) : D A :=
  match r with
  | Ok a => dret a
  | Raise e => dfail (Raised e)
  end.

(** [for chunk in ...: chunk.to_sql(detectionsTable, con,
    if_exists="append", index=False)] *)
Fixpoint write_chunks (detectionsTable : string) (con : Connection)
  (chunks : list Chunk) : D unit :=
  match chunks with
  | [] => dret tt
  | chunk :: rest =>
      emit (ChunkWritten detectionsTable con chunk) ~;;
      write_chunks detectionsTable con rest
  end.

(** [for key in specialIds: print("\t{} : {}".format(key,
    specialIds[key]))] *)
Fixpoint print_specials (specialIds : Dict Z) (keys : list string) : D unit :=
  match keys with
  | [] => dret tt
  | key :: rest =>
      value <~ getitem specialIds key ;;
      dprint (tab ++ key ++ " : " ++ str_of_int value) ~;;
      print_specials specialIds rest
  end.

(** The eight lines printed before the view is created. *)
Definition print_columns (detsFileColumns : Dict string) : D unit :=
  diaId <~ getitem detsFileColumns "diaId" ;;
  dprint (tab ++ "diaId : " ++ diaId) ~;;
  visitId <~ getitem detsFileColumns "visitId" ;;
  dprint (tab ++ "visitId : " ++ visitId) ~;;
  objectId <~ getitem detsFileColumns "objectId" ;;
  dprint (tab ++ "objectId : " ++ objectId) ~;;
  ra <~ getitem detsFileColumns "ra" ;;
  dprint (tab ++ "ra : " ++ ra) ~;;
  dec <~ getitem detsFileColumns "dec" ;;
  dprint (tab ++ "dec : " ++ dec) ~;;
  mjd <~ getitem detsFileColumns "mjd" ;;
  dprint (tab ++ "mjd : " ++ mjd) ~;;
  mag <~ getitem detsFileColumns "mag" ;;
  dprint (tab ++ "mag : " ++ mag) ~;;
  snr <~ getitem detsFileColumns "snr" ;;
  dprint (tab ++ "snr : " ++ snr).

(** [readDetectionsIntoDatabase(detsFile, con, detectionsTable,
    diaSourcesTable, mappingTable, detsFileColumns, specialIds,
    readParams, chunksize, mapObjectIds)]. The parameter [mapObjectIds]
    is [true] for the object [True] and [false] for any other value: the
    test is [mapObjectIds is True]. *)
Definition readDetectionsIntoDatabase
  (detsFile : string) (con : Connection)
  (detectionsTable diaSourcesTable mappingTable : string)
  (detsFileColumns : Dict string) (specialIds : option (Dict Z))
  (readParams : ReadParams) (chunksize : Z) (mapObjectIds : bool) : D unit :=
  dprint ("Reading " ++ detsFile ++ " into " ++ detectionsTable ++ " table") ~;;
  reader <~ lift (read_csv detsFile chunksize readParams) ;;
  write_chunks detectionsTable con (fst reader) ~;;
  match snd reader with
  | Some e => dfail (Raised e)
  | None => dret tt
  end ~;;
  (if mapObjectIds then
     dprint ("Creating " ++ mappingTable ++ " table") ~;;
     column <~ getitem detsFileColumns "objectId" ;;
     emit (Executed con
             (Stmt (CreateTable "Mapping"
                      [("objectId", "INTEGER PRIMARY KEY");
                       (column, "VARCHAR")]))) ~;;
     column <~ getitem detsFileColumns "objectId" ;;
     dprint ("Mapping " ++ column ++ " to MOPS-friendly integer objectIds") ~;;
     objects <~
       match specialIds with
       | Some special =>
           column <~ getitem detsFileColumns "objectId" ;;
           column2 <~ getitem detsFileColumns "objectId" ;;
           let query := {| q_column := column; q_table := detectionsTable;
                           q_not_in :=
                             Some (String.concat "', '" (map fst special)) |} in
           emit (Queried con query) ~;;
           found <~ (fun log => lift (read_sql query con log) log) ;;
           dprint ("Found " ++ Py.str_of_nat (List.length found)
                   ++ " unique objectIds") ~;;
           dprint "Mapping the following specialIds to:" ~;;
           print_specials special (map fst special) ~;;
           let objects := number_objects column found in
           match o_columns objects with
           | c0 :: c1 :: _ =>
               dret {| o_columns := o_columns objects;
                       o_rows := o_rows objects
                                 ++ map (fun kv => (Some (fst kv), snd kv))
                                        special |}
           | _ => dfail (Raised (IndexError
                           "index 1 is out of bounds for axis 0 with size 1"))
           end
       | None =>
           column <~ getitem detsFileColumns "objectId" ;;
           let query := {| q_column := column; q_table := detectionsTable;
                           q_not_in := None |} in
           emit (Queried con query) ~;;
           found <~ (fun log => lift (read_sql query con log) log) ;;
           dprint ("Found " ++ Py.str_of_nat (List.length found)
                   ++ " unique objectIds") ~;;
           dret (number_objects column found)
       end ;;
     dprint ("Building " ++ mappingTable ++ " table") ~;;
     let objects := {| o_columns := o_columns objects;
                       o_rows := sort_values (o_rows objects) |} in
     emit (ObjectsWritten mappingTable con objects) ~;;
     dprint ("Creating " ++ diaSourcesTable
             ++ " view using the following columns:") ~;;
     print_columns detsFileColumns ~;;
     diaId <~ getitem detsFileColumns "diaId" ;;
     visitId <~ getitem detsFileColumns "visitId" ;;
     ra <~ getitem detsFileColumns "ra" ;;
     dec <~ getitem detsFileColumns "dec" ;;
     mjd <~ getitem detsFileColumns "mjd" ;;
     mag <~ getitem detsFileColumns "mag" ;;
     snr <~ getitem detsFileColumns "snr" ;;
     left <~ getitem detsFileColumns "objectId" ;;
     right <~ getitem detsFileColumns "objectId" ;;
     emit (Executed con
             (CreateSourcesView diaSourcesTable
                [("d", diaId, "diaId"); ("d", visitId, "visitId");
                 ("m", "objectId", "objectId"); ("d", ra, "ra");
                 ("d", dec, "dec"); ("d", mjd, "mjd"); ("d", mag, "mag");
                 ("d", snr, "snr")]
                detectionsTable
                (Some (mappingTable, left, right))))
   else
     dprint ("Creating " ++ diaSourcesTable
             ++ " view using the following columns:") ~;;
     print_columns detsFileColumns ~;;
     diaId <~ getitem detsFileColumns "diaId" ;;
     visitId <~ getitem detsFileColumns "visitId" ;;
     objectId <~ getitem detsFileColumns "objectId" ;;
     ra <~ getitem detsFileColumns "ra" ;;
     dec <~ getitem detsFileColumns "dec" ;;
     mjd <~ getitem detsFileColumns "mjd" ;;
     mag <~ getitem detsFileColumns "mag" ;;
     snr <~ getitem detsFileColumns "snr" ;;
     emit (Executed con
             (CreateSourcesView diaSourcesTable
                [("d", diaId, "diaId"); ("d", visitId, "visitId");
                 ("d", objectId, "objectId"); ("d", ra, "ra");
                 ("d", dec, "dec"); ("d", mjd, "mjd"); ("d", mag, "mag");
                 ("d", snr, "snr")]
                detectionsTable None))) ~;;
  dprint "Done.".

(** *** What was done, read off the events *)

Definition chunk_writes (events : list Event)
  : list (string * Connection * Chunk) :=
  flat_map (fun e => match e with
                     | ChunkWritten table con chunk => [(table, con, chunk)]
                     | _ => []
                     end) events.

Definition object_writes (events : list Event)
  : list (string * Connection * ObjectsFrame) :=
  flat_map (fun e => match e with
                     | ObjectsWritten table con frame => [(table, con, frame)]
                     | _ => []
                     end) events.

Definition statements (events : list Event)
  : list (Connection * DetStatement) :=
  flat_map (fun e => match e with
                     | Executed con stmt => [(con, stmt)]
                     | _ => []
                     end) events.

Definition queries (events : list Event) : list (Connection * Query) :=
  flat_map (fun e => match e with
                     | Queried con query => [(con, query)]
                     | _ => []
                     end) events.

End Reader.

Arguments Printed {Chunk} line.
Arguments ChunkWritten {Chunk} table con chunk.
Arguments Executed {Chunk} con stmt.
Arguments Queried {Chunk} con query.
Arguments ObjectsWritten {Chunk} table con frame.
Arguments chunk_writes {Chunk} events.
Arguments object_writes {Chunk} events.
Arguments statements {Chunk} events.
Arguments queries {Chunk} events.

(** The eight columns a detection file must name. *)
Definition names_columns (d : Dict string)
  (diaId visitId objectId ra dec mjd mag snr : string) : Prop :=
  dict_get d "diaId" = Some diaId /\ dict_get d "visitId" = Some visitId
  /\ dict_get d "objectId" = Some objectId /\ dict_get d "ra" = Some ra
  /\ dict_get d "dec" = Some dec /\ dict_get d "mjd" = Some mjd
  /\ dict_get d "mag" = Some mag /\ dict_get d "snr" = Some snr.

(** The view over the detections table alone, and the view that takes
    [objectId] from the mapping table. *)
Definition direct_view (diaSourcesTable detectionsTable : string)
  (diaId visitId objectId ra dec mjd mag snr : string) : DetStatement :=
  CreateSourcesView diaSourcesTable
    [("d", diaId, "diaId"); ("d", visitId, "visitId");
     ("d", objectId, "objectId"); ("d", ra, "ra"); ("d", dec, "dec");
     ("d", mjd, "mjd"); ("d", mag, "mag"); ("d", snr, "snr")]
    detectionsTable None.

Definition joined_view (diaSourcesTable detectionsTable mappingTable : string)
  (diaId visitId objectId ra dec mjd mag snr : string) : DetStatement :=
  CreateSourcesView diaSourcesTable
    [("d", diaId, "diaId"); ("d", visitId, "visitId");
     ("m", "objectId", "objectId"); ("d", ra, "ra"); ("d", dec, "dec");
     ("d", mjd, "mjd"); ("d", mag, "mag"); ("d", snr, "snr")]
    detectionsTable (Some (mappingTable, objectId, objectId)).

(** The eight lines printed before the view is created. *)
Definition column_lines (diaId visitId objectId ra dec mjd mag snr : string)
  : list string :=
  [ tab ++ "diaId : " ++ diaId; tab ++ "visitId : " ++ visitId;
    tab ++ "objectId : " ++ objectId; tab ++ "ra : " ++ ra;
    tab ++ "dec : " ++ dec; tab ++ "mjd : " ++ mjd;
    tab ++ "mag : " ++ mag; tab ++ "snr : " ++ snr ]%string.

(** Rows in ascending order of [objectId]. *)
Definition id_le (r1 r2 : option string * Z) : Prop := snd r1 <= snd r2.

(** The rows of the objects found, numbered from 1 in the order the
    query gave them, and the rows of the special IDs. *)
Definition numbered (found : list string) : list (option string * Z) :=
  combine (map Some found)
          (map (fun k => Z.of_nat k + 1) (seq 0 (List.length found))).

Definition special_rows (special : Dict Z) : list (option string * Z) :=
  map (fun kv => (Some (fst kv), snd kv)) special.

(** A reader of the detection file that yields the chunks it is made of,
    and a store that answers every query with the same values. *)
Definition chunks_reader {Chunk : Type} (chunks : list Chunk)
  : string -> Z -> unit -> Result (list Chunk * option PyError) :=
  fun _ _ _ => Ok (chunks, None).

Definition answers {Chunk : Type} (found : list string)
  : Query -> Connection -> list (@Event Chunk) -> Result (list string) :=
  fun _ _ _ => Ok found.

(** The column names of the example. *)
Definition example_columns : Dict string :=
  [ ("diaId", "det_id"); ("visitId", "visit_id"); ("objectId", "obj_name");
    ("ra", "ra_deg"); ("dec", "dec_deg"); ("mjd", "epoch_mjd");
    ("mag", "mag"); ("snr", "snr") ].

End Detections.

(** ** More files used as examples *)

Module MoreExamples.

Import Difflib Diff Examples.

(** A stage that replaced every linkage. *)
Definition rewrite_fs : FileSystem :=
  [ ("all_old.txt", file_of ["1 2"; "3 4"]);
    ("all_new.txt", file_of ["5 6"; "7 8"; "9 10"]) ].

(** Two linkages appended, every detection ID followed by a space. *)
Definition spaced_fs : FileSystem :=
  [ ("night1.txt", file_of ["1 2 "; "3 4 "]);
    ("night2.txt", file_of ["1 2 "; "3 4 "; "5 6 7 "; "8 9 "]) ].

End MoreExamples.

(** ** Facts about the relation builder *)

Module BuilderFacts.

Import Pandas Builder BuilderSpec.
Open Scope Z_scope.

Lemma clean_app (a b : list (Z * string)) :
  clean (a ++ b) = clean a ++ clean b.
Proof.
  unfold clean, dropna, replace_empty.
  now rewrite map_app, flat_map_app.
Qed.

Lemma clean_cons (r : Z * string) (l : list (Z * string)) :
  clean (r :: l) = (if nonempty (snd r) then [r] else []) ++ clean l.
Proof.
  unfold clean, dropna, replace_empty, nonempty. cbn [map flat_map fst snd].
  destruct r as [i v]; cbn [fst snd]. now destruct (String.eqb v "").
Qed.

Lemma stack_row_pad (i : Z) (w : nat) (r : list string) :
  stack_row (i, pad w r) = map (pair i) r.
Proof.
  unfold stack_row, pad. cbn [fst snd]. rewrite flat_map_app.
  assert (Hn : forall n, flat_map
            (fun c : cell => match c with Some v => [(i, v)] | None => [] end)
            (repeat None n) = []).
  { induction n as [|n IH]; [reflexivity | exact IH]. }
  rewrite Hn, app_nil_r.
  induction r as [|t r IH]; [reflexivity | cbn; now rewrite IH].
Qed.

Lemma clean_map_pair (i : Z) (r : list string) :
  clean (map (pair i) r) = map (pair i) (filter nonempty r).
Proof.
  induction r as [|t r IH]; [reflexivity|].
  cbn [map filter]. rewrite clean_cons, IH. cbn [snd].
  now destruct (nonempty t).
Qed.

Lemma clean_stack (w : nat) (rows : list (list string)) :
  forall ids, clean (stack (combine ids (map (pad w) rows)))
              = members_of ids rows.
Proof.
  induction rows as [|r rows IH]; intros [|i ids]; try reflexivity.
  unfold stack, members_of in *. cbn [map combine flat_map fst snd].
  rewrite clean_app, stack_row_pad, clean_map_pair. f_equal. apply IH.
Qed.

Lemma length_arange (start : Z) (n : nat) : List.length (arange start n) = n.
Proof. unfold arange. now rewrite length_map, length_seq. Qed.

Lemma arange_S (start : Z) (n : nat) :
  arange start (S n) = start :: arange (start + 1) n.
Proof.
  unfold arange. cbn [seq map]. f_equal; [lia|].
  rewrite <- seq_shift, map_map. apply map_ext. intros k. lia.
Qed.

Lemma nth_arange (start : Z) (n k : nat) :
  (k < n)%nat -> nth k (arange start n) 0 = start + Z.of_nat k.
Proof.
  intros Hk. unfold arange.
  rewrite nth_indep with (d' := (fun k => start + Z.of_nat k) 0%nat)
    by (rewrite length_map, length_seq; lia).
  rewrite (map_nth (fun k => start + Z.of_nat k)).
  rewrite seq_nth by assumption. simpl. lia.
Qed.

(** *** [unique], [value_counts] and [sort_index] on a sorted column *)

Lemma In_unique_from (x : Z) (l : list Z) :
  forall seen, In x (unique_from seen l) <-> In x l /\ ~ In x seen.
Proof.
  induction l as [|y l IH]; intros seen; cbn [unique_from].
  - cbn. tauto.
  - destruct (existsb (Z.eqb y) seen) eqn:E.
    + rewrite IH. apply existsb_exists in E. destruct E as [z [Hz Hyz]].
      apply Z.eqb_eq in Hyz. subst z. cbn. split.
      * tauto.
      * intros [[->|H] Hn]; tauto.
    + cbn [In]. rewrite IH. cbn [In].
      assert (Hy : ~ In y seen).
      { intros Hy. apply Bool.not_true_iff_false in E. apply E.
        apply existsb_exists. exists y. split; [assumption | apply Z.eqb_refl]. }
      split.
      * intros [->|[H Hn]]; [tauto|]. split; [tauto|]. intros H'. apply Hn. now right.
      * intros [[->|H] Hn]; [tauto|].
        destruct (Z.eq_dec y x) as [->|Hne]; [tauto|]. right. split; [assumption|].
        intros [H'|H']; tauto.
Qed.

Lemma unique_from_sorted (l : list Z) :
  StronglySorted Z.le l ->
  forall seen, StronglySorted Z.lt (unique_from seen l).
Proof.
  induction 1 as [|x l Hs IH Hall]; intros seen; cbn [unique_from].
  - constructor.
  - destruct (existsb (Z.eqb x) seen); [apply IH|].
    constructor; [apply IH|].
    apply Forall_forall. intros y Hy. apply In_unique_from in Hy.
    destruct Hy as [Hy Hn]. rewrite Forall_forall in Hall.
    specialize (Hall y Hy). cbn [In] in Hn.
    destruct (Z.eq_dec x y); [tauto | lia].
Qed.

Lemma sorted_lt_NoDup (l : list Z) : StronglySorted Z.lt l -> NoDup l.
Proof.
  induction 1 as [|x l Hs IH Hall]; constructor; [|assumption].
  intros Hx. rewrite Forall_forall in Hall. specialize (Hall x Hx). lia.
Qed.

Lemma insert_by_count_perm (e : Z * Z) (l : list (Z * Z)) :
  Permutation (insert_by_count e l) (e :: l).
Proof.
  induction l as [|h t IH]; cbn [insert_by_count]; [reflexivity|].
  destruct (snd h <? snd e); [reflexivity|].
  rewrite IH. apply perm_swap.
Qed.

Lemma insert_by_index_perm (e : Z * Z) (l : list (Z * Z)) :
  Permutation (insert_by_index e l) (e :: l).
Proof.
  induction l as [|h t IH]; cbn [insert_by_index]; [reflexivity|].
  destruct (fst e <=? fst h); [reflexivity|].
  rewrite IH. apply perm_swap.
Qed.

Lemma value_counts_perm (l : list Z) :
  Permutation (value_counts l) (map (fun x => (x, count_of x l)) (unique l)).
Proof.
  unfold value_counts. induction (map (fun x => (x, count_of x l)) (unique l))
    as [|e t IH]; cbn [fold_right]; [reflexivity|].
  rewrite insert_by_count_perm. now constructor.
Qed.

Lemma sort_index_perm (l : list (Z * Z)) : Permutation (sort_index l) l.
Proof.
  unfold sort_index. induction l as [|e t IH]; cbn [fold_right]; [reflexivity|].
  rewrite insert_by_index_perm. now constructor.
Qed.

Lemma insert_by_index_sorted (e : Z * Z) (l : list (Z * Z)) :
  StronglySorted key_le l -> StronglySorted key_le (insert_by_index e l).
Proof.
  induction 1 as [|h t Hs IH Hall]; cbn [insert_by_index].
  - repeat constructor.
  - destruct (fst e <=? fst h) eqn:E.
    + apply Z.leb_le in E. constructor; [now constructor|].
      constructor; [exact E|]. eapply Forall_impl; [|exact Hall].
      unfold key_le. intros; lia.
    + apply Z.leb_gt in E. constructor; [assumption|].
      apply Forall_forall. intros y Hy.
      apply (Permutation_in _ (insert_by_index_perm e t)) in Hy.
      destruct Hy as [<-|Hy]; [unfold key_le; lia|].
      rewrite Forall_forall in Hall. now apply Hall.
Qed.

Lemma sort_index_sorted (l : list (Z * Z)) : StronglySorted key_le (sort_index l).
Proof.
  unfold sort_index. induction l as [|e t IH]; cbn [fold_right].
  - constructor.
  - now apply insert_by_index_sorted.
Qed.

Lemma sorted_perm_unique (l1 : list (Z * Z)) :
  forall l2, StronglySorted key_le l1 -> StronglySorted key_le l2 ->
             NoDup (map fst l1) -> Permutation l1 l2 -> l1 = l2.
Proof.
  induction l1 as [|a t1 IH]; intros l2 H1 H2 Hnd Hp.
  - now apply Permutation_nil in Hp.
  - destruct l2 as [|b t2].
    { apply Permutation_sym, Permutation_nil in Hp. discriminate. }
    inversion H1 as [|? ? Hs1 Ha1]; subst. inversion H2 as [|? ? Hs2 Ha2]; subst.
    inversion Hnd as [|? ? Hna Hnd']; subst.
    assert (Hab : a = b).
    { assert (Hia : In a (b :: t2)) by (eapply Permutation_in; [exact Hp | now left]).
      assert (Hib : In b (a :: t1))
        by (eapply Permutation_in; [apply Permutation_sym; exact Hp | now left]).
      destruct Hib as [Hib|Hib]; [assumption|].
      destruct Hia as [Hia|Hia]; [now symmetry|].
      rewrite Forall_forall in Ha1, Ha2.
      specialize (Ha1 b Hib). specialize (Ha2 a Hia). unfold key_le in *.
      exfalso. apply Hna. replace (fst a) with (fst b) by lia.
      now apply in_map. }
    subst b. f_equal. apply IH; try assumption.
    eapply Permutation_cons_inv; exact Hp.
Qed.

Lemma counts_sorted (l : list Z) :
  StronglySorted Z.le l ->
  sort_index (value_counts l) = map (fun x => (x, count_of x l)) (unique l).
Proof.
  intros Hs. symmetry. apply sorted_perm_unique.
  - pose proof (unique_from_sorted l Hs []) as Hu. fold (unique l) in Hu.
    induction Hu as [|x u Hu IH Hall]; cbn [map]; constructor; [assumption|].
    apply Forall_forall. intros y Hy. apply in_map_iff in Hy.
    destruct Hy as [z [<- Hz]]. rewrite Forall_forall in Hall.
    specialize (Hall z Hz). unfold key_le. cbn. lia.
  - apply sort_index_sorted.
  - rewrite map_map. cbn [fst]. rewrite map_id.
    apply sorted_lt_NoDup. now apply unique_from_sorted.
  - rewrite sort_index_perm. symmetry. apply value_counts_perm.
Qed.

(** *** The builder in closed form *)

Lemma In_members_of_ids (x : Z) (rows : list (list string)) :
  forall ids, In x (map fst (members_of ids rows)) -> In x ids.
Proof.
  induction rows as [|r rows IH]; intros [|i ids]; cbn; try tauto.
  unfold members_of. cbn [combine flat_map fst snd].
  rewrite map_app, in_app_iff, map_map. cbn [fst].
  intros [H|H].
  - apply in_map_iff in H. destruct H as [t [<- _]]. now left.
  - right. now apply IH.
Qed.

Lemma members_of_sorted (rows : list (list string)) :
  forall ids, StronglySorted Z.lt ids ->
              StronglySorted Z.le (map fst (members_of ids rows)).
Proof.
  induction rows as [|r rows IH]; intros [|i ids] Hs; try constructor.
  inversion Hs as [|? ? Hs' Hall]; subst.
  unfold members_of. cbn [combine flat_map fst snd]. rewrite map_app, map_map.
  cbn [fst]. fold (members_of ids rows).
  induction (filter nonempty r) as [|t ts IHt]; cbn [map app].
  - now apply IH.
  - constructor; [assumption|].
    apply Forall_forall. intros y Hy. apply in_app_iff in Hy.
    destruct Hy as [Hy|Hy].
    + apply in_map_iff in Hy. destruct Hy as [? [<- _]]. lia.
    + apply In_members_of_ids in Hy. rewrite Forall_forall in Hall.
      specialize (Hall y Hy). lia.
Qed.

Lemma arange_sorted (n : nat) :
  forall start, StronglySorted Z.lt (arange start n).
Proof.
  induction n as [|n IH]; intros start; [constructor|].
  rewrite arange_S. constructor; [apply IH|].
  apply Forall_forall. intros y Hy. unfold arange in Hy.
  apply in_map_iff in Hy. destruct Hy as [k [<- _]]. lia.
Qed.

Lemma set_column_ok {A B : Type} (rows : list A) (values : list B) :
  List.length rows = List.length values ->
  set_column rows values = Ok (combine rows values).
Proof.
  intros H. unfold set_column. now rewrite H, Nat.eqb_refl.
Qed.

Lemma combine_repeat {A B : Type} (c : B) (l : list A) :
  combine l (repeat c (List.length l)) = map (fun p => (p, c)) l.
Proof. induction l as [|a l IH]; [reflexivity | cbn; now rewrite IH]. Qed.

Lemma combine_map_snd {A B : Type} (f : A -> B) (l : list A) :
  combine l (map snd (map (fun x => (x, f x)) l)) = map (fun x => (x, f x)) l.
Proof. induction l as [|a l IH]; [reflexivity | cbn; now rewrite IH]. Qed.

Lemma makeNewLinkageDataFrames_eq
  (newLines : list string) (linkageType : string) (createdBy idStart : Z) :
  _makeNewLinkageDataFrames newLines linkageType createdBy idStart
  = Ok ({| m_columns := [linkageType; "diaId"];
           m_rows := member_rows newLines idStart |},
        {| s_columns := [linkageType; "numMembers"; "createdBy"; "deletedBy"];
           s_rows := summary_rows newLines createdBy idStart |}).
Proof.
  unfold _makeNewLinkageDataFrames, frame_of_lists.
  rewrite length_arange, length_map, Nat.eqb_refl. cbn [bind].
  fold (clean (stack (combine (arange idStart (List.length newLines))
     (map (pad (width (map (Py.split_on " ") newLines)))
          (map (Py.split_on " ") newLines))))).
  rewrite clean_stack. fold (member_rows newLines idStart).
  set (col := map fst (member_rows newLines idStart)).
  assert (Hs : StronglySorted Z.le col).
  { apply members_of_sorted, arange_sorted. }
  rewrite (counts_sorted col Hs).
  rewrite set_column_ok by now rewrite !length_map.
  cbn [bind]. rewrite combine_map_snd.
  rewrite set_column_ok by now rewrite !length_map, repeat_length.
  cbn [bind]. rewrite map_repeat, combine_repeat.
  rewrite set_column_ok by now rewrite repeat_length.
  cbn [bind]. rewrite combine_repeat.
  unfold summary_rows. fold col. rewrite !map_map. do 3 f_equal.
  apply map_ext. intros x. unfold mkSummaryRow. f_equal. apply Z.mul_1_l.
Qed.

End BuilderFacts.

(** ** The relation builder: settled claims *)

Module BuilderClaims.

Import Pandas Builder BuilderSpec BuilderFacts.
Open Scope Z_scope.

Lemma flat_map_map {A B C : Type} (f : B -> list C) (g : A -> B) (l : list A) :
  flat_map f (map g l) = flat_map (fun x => f (g x)) l.
Proof. induction l as [|a l IH]; [reflexivity | cbn; now rewrite IH]. Qed.

Lemma member_rows_by_line (newLines : list string) :
  forall idStart,
    member_rows newLines idStart
    = flat_map (rows_of_line newLines idStart) (seq 0 (List.length newLines)).
Proof.
  unfold member_rows.
  induction newLines as [|l ls IH]; intros idStart; [reflexivity|].
  cbn [List.length map]. rewrite arange_S.
  unfold members_of at 1. cbn [combine flat_map fst snd].
  fold (members_of (arange (idStart + 1) (List.length ls))
                   (map (Py.split_on " ") ls)).
  rewrite IH. cbn [seq flat_map]. f_equal.
  - unfold rows_of_line. cbn [nth]. now rewrite Z.add_0_r.
  - rewrite <- seq_shift, flat_map_map. apply flat_map_ext. intros k.
    unfold rows_of_line. cbn [nth]. f_equal. f_equal. lia.
Qed.

Lemma count_of_map_fst (x : Z) (rows : list (Z * string)) :
  count_of x (map fst rows)
  = Z.of_nat (List.length (filter (fun r => Z.eqb x (fst r)) rows)).
Proof.
  unfold count_of. f_equal.
  induction rows as [|r rows IH]; [reflexivity|].
  cbn [map filter]. destruct (Z.eqb x (fst r)); cbn [List.length]; now rewrite IH.
Qed.

Lemma In_member_rows_ids (x : Z) (newLines : list string) (idStart : Z) :
  In x (map fst (member_rows newLines idStart)) <->
  exists k, (k < List.length newLines)%nat /\ x = idStart + Z.of_nat k
            /\ tokens (nth k newLines "") <> [].
Proof.
  rewrite member_rows_by_line, in_map_iff. split.
  - intros [[i t] [Hx Hin]]. cbn in Hx. subst i.
    apply in_flat_map in Hin. destruct Hin as [k [Hk Hin]].
    apply in_seq in Hk. unfold rows_of_line in Hin.
    apply in_map_iff in Hin. destruct Hin as [t' [Heq Ht]].
    inversion Heq; subst. exists k. split; [lia|]. split; [reflexivity|].
    intros E. rewrite E in Ht. contradiction.
  - intros [k [Hk [-> Hne]]].
    destruct (tokens (nth k newLines "")) as [|t ts] eqn:E; [contradiction|].
    exists (idStart + Z.of_nat k, t). split; [reflexivity|].
    apply in_flat_map. exists k. split; [apply in_seq; lia|].
    unfold rows_of_line. rewrite E. now left.
Qed.

Lemma In_summary_ids (x : Z) (newLines : list string) (createdBy idStart : Z) :
  In x (map linkageId (summary_rows newLines createdBy idStart)) <->
  In x (map fst (member_rows newLines idStart)).
Proof.
  unfold summary_rows. rewrite map_map. cbn [linkageId]. rewrite map_id.
  unfold unique. rewrite In_unique_from. cbn. tauto.
Qed.

(** C6. For every input to [_makeNewLinkageDataFrames] that returns, and
    every row of the returned summary relation, [numMembers] is the number
    of rows of the returned members relation carrying that row's
    linkage ID. *)
Theorem numMembers_is_member_count
  (newLines : list string) (linkageType : string) (createdBy idStart : Z)
  (m : MembersFrame) (s : SummaryFrame) (row : SummaryRow) :
  _makeNewLinkageDataFrames newLines linkageType createdBy idStart = Ok (m, s) ->
  In row (s_rows s) ->
  numMembers row = member_count (linkageId row) m.
Proof.
  rewrite makeNewLinkageDataFrames_eq. intros H Hin.
  inversion H; subst m s; clear H. cbn [s_rows] in Hin.
  unfold summary_rows in Hin. apply in_map_iff in Hin.
  destruct Hin as [x [<- _]]. cbn [numMembers linkageId].
  unfold member_count. cbn [m_rows]. apply count_of_map_fst.
Qed.

Lemma numMembers_is_member_count_witness :
  numMembers {| linkageId := 2; numMembers := 2; createdBy := 1; deletedBy := 0 |}
  = member_count 2
      {| m_columns := ["trackletId"; "diaId"];
         m_rows := [(1, "7"); (1, "8"); (1, "9"); (2, "4"); (2, "5")] |}.
Proof.
  eapply (numMembers_is_member_count ["7 8 9"; "4  5 "] "trackletId" 1 1).
  - reflexivity.
  - cbn. right. left. reflexivity.
Defined.

(** C7. The k-th input line (0-based) gets the ID [idStart + k]: the
    members relation is, line after line, the tokens of line k under
    [idStart + k]; the IDs of the summary relation are those [idStart + k]
    whose line has a token, in ascending order; and equal arguments give
    equal relations. *)
Theorem ids_consecutive_from_idStart
  (newLines : list string) (linkageType : string) (createdBy idStart : Z) :
  exists m s,
    _makeNewLinkageDataFrames newLines linkageType createdBy idStart = Ok (m, s)
    /\ m_rows m
       = flat_map (rows_of_line newLines idStart) (seq 0 (List.length newLines))
    /\ (forall x, In x (summary_ids s) <->
          exists k, (k < List.length newLines)%nat /\ x = idStart + Z.of_nat k
                    /\ tokens (nth k newLines "") <> [])
    /\ StronglySorted Z.lt (summary_ids s)
    /\ (forall newLines' linkageType' createdBy' idStart',
          newLines' = newLines -> linkageType' = linkageType ->
          createdBy' = createdBy -> idStart' = idStart ->
          _makeNewLinkageDataFrames newLines' linkageType' createdBy' idStart'
          = Ok (m, s)).
Proof.
  eexists. eexists. split; [apply makeNewLinkageDataFrames_eq|].
  cbn [m_rows]. split; [apply member_rows_by_line|].
  unfold summary_ids. cbn [s_rows]. split; [|split].
  - intros x. rewrite In_summary_ids. apply In_member_rows_ids.
  - unfold summary_rows. rewrite map_map. cbn [linkageId]. rewrite map_id.
    apply unique_from_sorted, members_of_sorted, arange_sorted.
  - intros ? ? ? ? -> -> -> ->. apply makeNewLinkageDataFrames_eq.
Qed.

(** C4, the claim as stated fails: with the lines ["1 2"; ""; "3"] and
    [idStart = 1], the empty line is assigned 2, the call returns, and the
    summary relation has no row for 2 (so none with [numMembers = 0]). *)
Lemma zero_member_line_has_no_summary_row :
  exists m s,
    _makeNewLinkageDataFrames ["1 2"; ""; "3"] "trackletId" 1 1 = Ok (m, s)
    /\ summary_ids s = [1; 3]
    /\ ~ (exists row, In row (s_rows s)
                      /\ linkageId row = 2 /\ numMembers row = 0).
Proof.
  eexists. eexists. split; [reflexivity|]. split; [reflexivity|].
  intros [row [Hin [Hid _]]]. cbn in Hin.
  destruct Hin as [<-|[<-|[]]]; cbn in Hid; discriminate.
Qed.

(** C4, amended. A line with zero member tokens (empty, or spaces only)
    makes the call neither fail nor stop: the relations are returned, and
    the ID [idStart + k] assigned to that line appears in neither of them;
    the line has no summary row and no member row. *)
Theorem zero_member_line_is_left_out
  (newLines : list string) (linkageType : string) (createdBy idStart : Z)
  (k : nat) :
  (k < List.length newLines)%nat ->
  tokens (nth k newLines "") = [] ->
  exists m s,
    _makeNewLinkageDataFrames newLines linkageType createdBy idStart = Ok (m, s)
    /\ ~ In (idStart + Z.of_nat k) (summary_ids s)
    /\ ~ In (idStart + Z.of_nat k) (member_ids m).
Proof.
  intros Hk Hz. eexists. eexists.
  split; [apply makeNewLinkageDataFrames_eq|].
  unfold summary_ids, member_ids. cbn [s_rows m_rows].
  rewrite In_summary_ids, In_member_rows_ids.
  assert (Hno : ~ (exists k0 : nat,
             (k0 < List.length newLines)%nat /\
             idStart + Z.of_nat k = idStart + Z.of_nat k0 /\
             tokens (nth k0 newLines "") <> [])).
  { intros [k0 [_ [He Hne]]]. assert (k0 = k) by lia. subst k0. contradiction. }
  split; exact Hno.
Qed.

Lemma zero_member_line_is_left_out_witness :
  exists m s,
    _makeNewLinkageDataFrames ["1 2"; "  "; "3"] "trackletId" 1 1 = Ok (m, s)
    /\ ~ In (1 + Z.of_nat 1) (summary_ids s)
    /\ ~ In (1 + Z.of_nat 1) (member_ids m).
Proof.
  apply (zero_member_line_is_left_out ["1 2"; "  "; "3"] "trackletId" 1 1 1).
  - cbn. lia.
  - reflexivity.
Defined.



End BuilderClaims.

(** ** Database assembly: settled claims *)

Module AssemblyClaims.

Import Store Assembly.
Open Scope Z_scope.

(** C10. With the global names the module really has, every call of
    [buildTrackletDatabase] and of [buildTrackDatabase] raises a
    [NameError] for [sql] (the module binds [sqlite3], never [sql]) and
    leaves the state as it found it: no connection is returned, nothing is
    printed and no statement reaches a store. *)
Theorem build_database_raises_NameError
  (abspath : string -> string) (database outDir : string) (st : State) :
  lookup "sql" io_globals = None
  /\ lookup "sqlite3" io_globals = Some Module_sqlite3
  /\ buildTrackletDatabase abspath io_globals database outDir st
     = (Raise (NameError "sql"), st)
  /\ buildTrackDatabase abspath io_globals database outDir st
     = (Raise (NameError "sql"), st).
Proof. repeat split. Qed.

Lemma views_sent_app (con : Connection) (c : list string)
  (s1 s2 : list (Connection * Statement)) :
  views_sent con {| console := c; sent := s1 ++ s2 |}
  = views_sent con {| console := c; sent := s1 |}
    ++ views_sent con {| console := c; sent := s2 |}.
Proof. unfold views_sent. cbn [sent]. apply flat_map_app. Qed.

Lemma views_sent_console (con : Connection) (c1 c2 : list string)
  (s : list (Connection * Statement)) :
  views_sent con {| console := c1; sent := s |}
  = views_sent con {| console := c2; sent := s |}.
Proof. reflexivity. Qed.

(** The views [buildTrackletDatabase] defines once the connection is made. *)
Lemma buildTrackletDatabase_views
  (abspath : string -> string) (globals : Globals)
  (database outDir : string) (st : State) :
  lookup "sql" globals = Some Module_sqlite3 ->
  exists con path st',
    buildTrackletDatabase abspath globals database outDir st
    = (Ok (con, path), st')
    /\ views_sent con st' = views_sent con st ++ tracklet_views.
Proof.
  intros Hsql. unfold buildTrackletDatabase, load_global. rewrite Hsql.
  destruct st as [c s]. eexists. eexists. eexists.
  split; [reflexivity|]. cbn [console sent].
  rewrite !views_sent_app.
  rewrite (views_sent_console _ _ c), <- !app_assoc. f_equal.
  unfold views_sent. cbn. now rewrite !String.eqb_refl.
Qed.

(** The views [buildTrackDatabase] defines once the connection is made. *)
Lemma buildTrackDatabase_views
  (abspath : string -> string) (globals : Globals)
  (database outDir : string) (st : State) :
  lookup "sql" globals = Some Module_sqlite3 ->
  exists con path st',
    buildTrackDatabase abspath globals database outDir st
    = (Ok (con, path), st')
    /\ views_sent con st' = views_sent con st ++ track_views.
Proof.
  intros Hsql. unfold buildTrackDatabase, load_global. rewrite Hsql.
  destruct st as [c s]. eexists. eexists. eexists.
  split; [reflexivity|]. cbn [console sent].
  rewrite !views_sent_app.
  rewrite (views_sent_console _ _ c), <- !app_assoc. f_equal.
  unfold views_sent. cbn. now rewrite !String.eqb_refl.
Qed.

(** The predicates of the tracklet views, one by one. *)
Lemma tracklet_views_preds (name source : string) (p : Pred) :
  In (name, source, p) tracklet_views ->
  p = ColEq "createdBy" 1
  \/ p = POr (ColEq "deletedBy" 2) (ColEq "createdBy" 2)
  \/ p = POr (ColEq "deletedBy" 3) (ColEq "createdBy" 3)
  \/ p = POr (ColEq "deletedBy" 4) (ColEq "createdBy" 4).
Proof.
  unfold tracklet_views. intros [H|[H|[H|[H|[]]]]];
    apply (f_equal snd) in H; cbn [snd] in H; subst p; auto.
Qed.

(** C5, the claim as stated fails: even where the name [sql] is bound to
    the [sqlite3] module, the views [buildTrackletDatabase] defines include
    no affected-by view for stage 1 and no created-by view for stage 2. *)
Lemma no_affected_by_stage_1_view :
  exists con path st,
    buildTrackletDatabase (fun d => d) (("sql", Module_sqlite3) :: io_globals)
                          "tracklets.db" "/data" initial
    = (Ok (con, path), st)
    /\ ~ (exists name source p,
            In (name, source, p) (views_sent con st) /\ is_affected_by 1 p)
    /\ ~ (exists name source p,
            In (name, source, p) (views_sent con st) /\ is_created_by 2 p).
Proof.
  destruct (buildTrackletDatabase_views
              (fun d => d) (("sql", Module_sqlite3) :: io_globals)
              "tracklets.db" "/data" initial eq_refl)
    as [con [path [st [Hrun Hviews]]]].
  exists con, path, st. split; [exact Hrun|].
  rewrite Hviews. change (views_sent con initial) with (@nil (string * string * Pred)).
  cbn [app].
  pose (r01 := {| row_createdBy := 0; row_deletedBy := 1 |}).
  pose (r10 := {| row_createdBy := 1; row_deletedBy := 0 |}).
  pose (r02 := {| row_createdBy := 0; row_deletedBy := 2 |}).
  pose (r20 := {| row_createdBy := 2; row_deletedBy := 0 |}).
  split; intros [name [source [p [Hin Hp]]]];
    apply tracklet_views_preds in Hin.
  - destruct Hin as [H|[H|[H|H]]]; subst p.
    + specialize (Hp r01). discriminate Hp.
    + specialize (Hp r20). discriminate Hp.
    + specialize (Hp r01). discriminate Hp.
    + specialize (Hp r01). discriminate Hp.
  - destruct Hin as [H|[H|[H|H]]]; subst p.
    + specialize (Hp r10). discriminate Hp.
    + specialize (Hp r02). discriminate Hp.
    + specialize (Hp r20). discriminate Hp.
    + specialize (Hp r20). discriminate Hp.
Qed.

(** C5, amended. Once the connection is made (the name [sql] standing for
    the [sqlite3] module), database creation defines these views and no
    others, each a filter [SELECT * FROM ledger WHERE ...] over the kind's
    ledger table: for tracklets a created-by view for stage 1 ([Tracklets])
    and affected-by views for stages 2, 3 and 4 ([CollapsedTracklets],
    [PurifiedTracklets], [FinalTracklets]); for tracks a created-by view
    for stage 5 ([Tracks]) and an affected-by view for stage 6
    ([FinalTracks]). *)
Theorem views_defined_by_database_creation
  (abspath : string -> string) (globals : Globals)
  (database outDir : string) (st : State) :
  lookup "sql" globals = Some Module_sqlite3 ->
  (exists con path st',
      buildTrackletDatabase abspath globals database outDir st
      = (Ok (con, path), st')
      /\ views_sent con st' = views_sent con st ++ tracklet_views)
  /\ (exists con path st',
      buildTrackDatabase abspath globals database outDir st
      = (Ok (con, path), st')
      /\ views_sent con st' = views_sent con st ++ track_views)
  /\ Forall (fun v => snd (fst v) = "AllTracklets") tracklet_views
  /\ Forall (fun v => snd (fst v) = "AllTracks") track_views
  /\ map (fun v => fst (fst v)) tracklet_views
     = ["Tracklets"; "CollapsedTracklets"; "PurifiedTracklets"; "FinalTracklets"]
  /\ map (fun v => fst (fst v)) track_views = ["Tracks"; "FinalTracks"]
  /\ Forall2 (fun v kind => kind (snd v))
       tracklet_views
       [is_created_by 1; is_affected_by 2; is_affected_by 3; is_affected_by 4]
  /\ Forall2 (fun v kind => kind (snd v))
       track_views [is_created_by 5; is_affected_by 6].
Proof.
  intros Hsql. split; [|split].
  - now apply buildTrackletDatabase_views.
  - now apply buildTrackDatabase_views.
  - repeat split; repeat constructor;
      intros r; cbn; apply Bool.orb_comm.
Qed.

Lemma views_defined_by_database_creation_witness :
  exists con path st',
    buildTrackletDatabase (fun d => d) (("sql", Module_sqlite3) :: io_globals)
                          "tracklets.db" "/data" initial
    = (Ok (con, path), st')
    /\ views_sent con st' = views_sent con initial ++ tracklet_views.
Proof.
  apply (views_defined_by_database_creation
           (fun d => d) (("sql", Module_sqlite3) :: io_globals)
           "tracklets.db" "/data" initial).
  reflexivity.
Defined.

(** *** [attachDatabases] *)

Lemma attach_loop_eq (con : Connection) (items : list (nat * string)) :
  forall attached_names st,
    attach_loop con items attached_names st
    = (Ok (attached_names ++ map attach_name items),
       {| console := console st ++ map attach_message items;
          sent := sent st ++ map (attach_statement con) items |}).
Proof.
  induction items as [|[i window] items IH]; intros names [c s].
  - cbn. now rewrite !app_nil_r.
  - cbn [attach_loop]. unfold mbind at 1. unfold attach_one.
    unfold mbind at 1 2. unfold print, execute, ret. cbn [console sent].
    rewrite IH. cbn [console sent map]. rewrite <- !app_assoc. reflexivity.
Qed.

Lemma map_fst_enumerate {A : Type} (l : list A) :
  map fst (enumerate l) = seq 0 (List.length l).
Proof.
  unfold enumerate. generalize 0%nat.
  induction l as [|a l IH]; intros n; [reflexivity|].
  cbn. now rewrite IH.
Qed.

Lemma map_snd_enumerate {A : Type} (l : list A) :
  map (fun x => snd x) (enumerate l) = l.
Proof.
  unfold enumerate. generalize 0%nat.
  induction l as [|a l IH]; intros n; [reflexivity|].
  cbn. now rewrite IH.
Qed.

Lemma length_enumerate {A : Type} (l : list A) :
  List.length (enumerate l) = List.length l.
Proof.
  unfold enumerate. rewrite length_combine, length_seq. apply Nat.min_id.
Qed.



End AssemblyClaims.

(** ** Facts about the string primitives *)

Module PyFacts.

Import Py PyAux.

Lemma all_chars_app (p : ascii -> bool) (s t : string) :
  all_chars p (s ++ t) = all_chars p s && all_chars p t.
Proof.
  induction s as [|c s IH]; [reflexivity|].
  cbn. now rewrite IH, andb_assoc.
Qed.

Lemma all_chars_impl (p q : ascii -> bool) (s : string) :
  (forall c, p c = true -> q c = true) ->
  all_chars p s = true -> all_chars q s = true.
Proof.
  intros Hpq. induction s as [|c s IH]; [reflexivity|].
  cbn. rewrite !andb_true_iff. intros [H1 H2]. auto.
Qed.

Lemma is_digit_not_space (c : ascii) : is_digit c = true -> not_space c = true.
Proof.
  unfold is_digit, not_space, is_space. intros H.
  apply andb_true_iff in H. destruct H as [H1 H2].
  apply Nat.leb_le in H1, H2. apply negb_true_iff, orb_false_iff. split.
  - apply Nat.eqb_neq. lia.
  - apply andb_false_iff. right. apply Nat.leb_gt. lia.
Qed.

Lemma is_digit_not_comma (c : ascii) : is_digit c = true -> not_comma c = true.
Proof.
  unfold is_digit, not_comma. intros H.
  apply andb_true_iff in H. destruct H as [H1 H2].
  apply Nat.leb_le in H1, H2. apply negb_true_iff.
  apply Ascii.eqb_neq. intros ->. cbn in H1. lia.
Qed.

(** *** [str] and [int] *)

Lemma digit_char_val (d : nat) : d < 10 -> digit_val (digit_char d) = Some d.
Proof.
  intros Hd. unfold digit_val, digit_char.
  rewrite nat_ascii_embedding by lia.
  replace (48 <=? 48 + d) with true by (symmetry; apply Nat.leb_le; lia).
  replace (48 + d <=? 57) with true by (symmetry; apply Nat.leb_le; lia).
  cbn [andb]. f_equal. lia.
Qed.

Lemma digit_char_is_digit (d : nat) : d < 10 -> is_digit (digit_char d) = true.
Proof.
  intros Hd. unfold is_digit, digit_char.
  rewrite nat_ascii_embedding by lia.
  apply andb_true_iff. split; apply Nat.leb_le; lia.
Qed.

Lemma int_digits_str_aux (fuel : nat) :
  forall n acc, n < fuel ->
    exists p, forall v,
      int_digits (str_of_nat_aux fuel n acc) v = int_digits acc (v * p + n).
Proof.
  induction fuel as [|fuel IH]; intros n acc Hn; [lia|].
  cbn [str_of_nat_aux].
  pose proof (Nat.div_mod_eq n 10) as Hdm.
  pose proof (Nat.mod_upper_bound n 10 ltac:(lia)) as Hm.
  destruct (n / 10) as [|q] eqn:Hq.
  - exists 10. intros v. cbn [int_digits].
    rewrite digit_char_val by assumption. f_equal. lia.
  - destruct (IH (S q) (String (digit_char (n mod 10)) acc)) as [p Hp]; [lia|].
    exists (10 * p). intros v. rewrite Hp. cbn [int_digits].
    rewrite digit_char_val by assumption. f_equal. lia.
Qed.

Lemma str_of_nat_aux_digits (fuel : nat) :
  forall n acc, all_chars is_digit acc = true ->
                all_chars is_digit (str_of_nat_aux fuel n acc) = true.
Proof.
  induction fuel as [|fuel IH]; intros n acc Hacc; [assumption|].
  cbn [str_of_nat_aux].
  pose proof (Nat.mod_upper_bound n 10 ltac:(lia)) as Hm.
  assert (H : all_chars is_digit (String (digit_char (n mod 10)) acc) = true).
  { cbn [all_chars]. now rewrite digit_char_is_digit, Hacc. }
  destruct (n / 10); [assumption | now apply IH].
Qed.

Lemma str_of_nat_digits (n : nat) : all_chars is_digit (str_of_nat n) = true.
Proof. now apply str_of_nat_aux_digits. Qed.

Lemma str_of_nat_aux_nonempty (fuel : nat) :
  forall n acc, acc <> EmptyString ->
                str_of_nat_aux fuel n acc <> EmptyString.
Proof.
  induction fuel as [|fuel IH]; intros n acc Hacc; [assumption|].
  cbn [str_of_nat_aux]. destruct (n / 10); [discriminate|].
  apply IH. discriminate.
Qed.

Lemma str_of_nat_nonempty (n : nat) : str_of_nat n <> EmptyString.
Proof.
  unfold str_of_nat. cbn [str_of_nat_aux].
  destruct (n / 10); [discriminate|].
  apply str_of_nat_aux_nonempty. discriminate.
Qed.

(** [int(str(n)) == n] *)
Lemma int_of_str_of_nat (n : nat) : int_of_str (str_of_nat n) = Ok n.
Proof.
  unfold int_of_str. pose proof (str_of_nat_nonempty n) as Hne.
  destruct (str_of_nat n) eqn:E; [contradiction|]. rewrite <- E.
  destruct (int_digits_str_aux (S n) n EmptyString) as [p Hp]; [lia|].
  unfold str_of_nat. now rewrite Hp.
Qed.

(** *** [split] *)

Lemma append_assoc (s t u : string) : ((s ++ t) ++ u = s ++ (t ++ u))%string.
Proof. induction s as [|c s IH]; [reflexivity | cbn; now rewrite IH]. Qed.

Lemma split_ws_aux_token (tok : string) :
  forall s cur, all_chars not_space tok = true ->
    split_ws_aux (tok ++ s) (Some cur) = split_ws_aux s (Some (cur ++ tok)%string).
Proof.
  induction tok as [|c tok IH]; intros s cur H.
  - cbn. f_equal. f_equal. induction cur as [|d cur IHc]; [reflexivity|].
    cbn. now rewrite <- IHc.
  - cbn in H. apply andb_true_iff in H. destruct H as [Hc Ht].
    unfold not_space in Hc. apply negb_true_iff in Hc.
    cbn [append split_ws_aux]. rewrite Hc. rewrite IH by assumption.
    now rewrite append_assoc.
Qed.

Lemma split_ws_aux_space (c : ascii) (s cur : string) :
  is_space c = true ->
  split_ws_aux (String c s) (Some cur) = cur :: split_ws_aux s None.
Proof. intros H. cbn [split_ws_aux]. now rewrite H. Qed.

Lemma split_ws_aux_first (s : string) :
  forall cur, exists t rest,
    split_ws_aux s (Some cur) = (cur ++ t)%string :: rest.
Proof.
  induction s as [|c s IH]; intros cur.
  - exists EmptyString, []. cbn. f_equal.
    induction cur as [|d cur IHc]; [reflexivity | cbn; now rewrite <- IHc].
  - cbn [split_ws_aux]. destruct (is_space c).
    + exists EmptyString, (split_ws_aux s None). f_equal.
      induction cur as [|d cur IHc]; [reflexivity | cbn; now rewrite <- IHc].
    + destruct (IH (cur ++ String c EmptyString)%string) as [t [rest H]].
      exists (String c t), rest. rewrite H. f_equal. now rewrite append_assoc.
Qed.

(** The first element of [(c + s).split()] starts with [c] when [c] is
    not white space. *)
Lemma split_ws_first_char (c : ascii) (s : string) :
  is_space c = false ->
  exists t rest, split_ws (String c s) = String c t :: rest.
Proof.
  intros Hc. unfold split_ws. cbn [split_ws_aux]. rewrite Hc.
  destruct (split_ws_aux_first s (String c EmptyString)) as [t [rest H]].
  exists t, rest. exact H.
Qed.

Lemma split_ws_header (r1 r2 : string) :
  all_chars not_space r1 = true -> all_chars not_space r2 = true ->
  split_ws ("@@ -" ++ r1 ++ " +" ++ r2 ++ " @@" ++ Difflib.newline)
  = ["@@"; ("-" ++ r1)%string; ("+" ++ r2)%string; "@@"].
Proof.
  intros H1 H2. unfold split_ws.
  change ("@@ -" ++ r1 ++ " +" ++ r2 ++ " @@" ++ Difflib.newline)%string
    with (String "@" (String "@" (String " " (String "-"
            (r1 ++ " +" ++ r2 ++ " @@" ++ Difflib.newline))))).
  cbn [split_ws_aux]. 
  change (is_space "@") with false. change (is_space " ") with true.
  change (is_space "-") with false. cbv iota. cbn [append].
  rewrite split_ws_aux_token by assumption.
  change (" +" ++ r2 ++ " @@" ++ Difflib.newline)%string
    with (String " " (String "+" (r2 ++ " @@" ++ Difflib.newline))).
  cbn [split_ws_aux].
  change (is_space "+") with false. change (is_space " ") with true.
  cbv iota. f_equal. f_equal.
  rewrite split_ws_aux_token by assumption.
  reflexivity.
Qed.

Lemma split_on_no_sep (sep : ascii) (s : string) :
  all_chars (fun c => negb (Ascii.eqb c sep)) s = true ->
  split_on sep s = [s].
Proof.
  induction s as [|c s IH]; [reflexivity|].
  cbn. intros H. apply andb_true_iff in H. destruct H as [Hc Hs].
  apply negb_true_iff in Hc. rewrite Hc, IH by assumption. reflexivity.
Qed.

Lemma split_on_first (sep : ascii) (s t : string) :
  all_chars (fun c => negb (Ascii.eqb c sep)) s = true ->
  split_on sep (s ++ String sep t) = s :: split_on sep t.
Proof.
  induction s as [|c s IH]; intros H.
  - cbn. now rewrite Ascii.eqb_refl.
  - cbn in H. apply andb_true_iff in H. destruct H as [Hc Hs].
    apply negb_true_iff in Hc. cbn [append split_on].
    rewrite Hc, IH by assumption. reflexivity.
Qed.

End PyFacts.

(** ** [find_longest_match] returns a match inside its window *)

Module MatcherFacts.

Import Difflib MatcherSpec.

Section Facts.

Variables a b : list string.

Lemma In_indices_from (elt : string) (l : list string) :
  forall n j, In j (indices_from n elt l) ->
              n <= j /\ nth (j - n) l "" = elt.
Proof.
  induction l as [|x l IH]; intros n j H; [contradiction|].
  cbn [indices_from] in H. destruct (String.eqb x elt) eqn:E.
  - destruct H as [<-|H].
    + split; [lia|]. rewrite Nat.sub_diag. cbn. now apply String.eqb_eq.
    + apply IH in H. destruct H as [Hle Hn]. split; [lia|].
      replace (j - n) with (S (j - S n)) by lia. exact Hn.
  - apply IH in H. destruct H as [Hle Hn]. split; [lia|].
    replace (j - n) with (S (j - S n)) by lia. exact Hn.
Qed.

Lemma In_b2j_get (elt : string) (j : nat) :
  In j (b2j_get b elt) -> item b j = elt.
Proof.
  unfold b2j_get. destruct (popular b elt); [contradiction|].
  intros H. apply In_indices_from in H. destruct H as [_ H].
  now rewrite Nat.sub_0_r in H.
Qed.

Section Window.

Variables alo ahi blo bhi : nat.
Hypothesis Ha : alo <= ahi.
Hypothesis Hb : blo <= bhi.

Lemma valid_start : valid_match a b alo ahi blo bhi (alo, blo, 0).
Proof. cbn. repeat split; try lia. intros t Ht. lia. Qed.

Lemma j2len_ok_empty (n : nat) : j2len_ok a b alo ahi blo bhi n j2len_empty.
Proof. intros j H. unfold j2len_empty in H. lia. Qed.

(** One more item on a run. *)
Lemma same_run_snoc (i j k : nat) :
  same_run a b i j k -> item a (i + k) = item b (j + k) ->
  same_run a b i j (S k).
Proof.
  intros Hr He t Ht. destruct (Nat.eq_dec t k) as [->|Hne]; [assumption|].
  apply Hr. lia.
Qed.

Lemma inner_loop_ok (i : nat) (j2len : j2len_t) (js : list nat) :
  alo <= i -> i < ahi ->
  j2len_ok a b alo ahi blo bhi i j2len ->
  (forall j, In j js -> item b j = item a i) ->
  forall newj2len best,
    j2len_ok a b alo ahi blo bhi (S i) newj2len ->
    valid_match a b alo ahi blo bhi best ->
    let '(d, m) := inner_loop i blo bhi j2len js newj2len best in
    j2len_ok a b alo ahi blo bhi (S i) d /\ valid_match a b alo ahi blo bhi m.
Proof.
  intros Hi1 Hi2 Hd Hjs.
  induction js as [|j js IH]; intros newj2len best Hnew Hbest.
  - cbn. split; assumption.
  - cbn [inner_loop].
    assert (Hjs' : forall j0, In j0 js -> item b j0 = item a i)
      by (intros j0 H0; apply Hjs; now right).
    specialize (IH Hjs').
    destruct (j <? blo) eqn:E1; [now apply IH|].
    destruct (bhi <=? j) eqn:E2; [split; assumption|].
    apply Nat.ltb_ge in E1. apply Nat.leb_gt in E2.
    set (k := j2len_get_pred j2len j + 1).
    assert (Hk : k <= S i - alo /\ k <= j + 1 - blo
                 /\ same_run a b (S i - k) (j + 1 - k) k).
    { assert (Hone : same_run a b (S i - 1) (j + 1 - 1) 1).
      { intros t Ht. replace t with 0 by lia.
        replace (S i - 1 + 0) with i by lia.
        replace (j + 1 - 1 + 0) with j by lia.
        symmetry. apply Hjs. now left. }
      unfold k, j2len_get_pred. destruct j as [|j'].
      - replace (0 + 1) with 1 by lia. split; [lia|]. split; [lia|]. exact Hone.
      - destruct (j2len j') as [|kk] eqn:Ekk.
        + replace (0 + 1) with 1 by lia. split; [lia|]. split; [lia|].
          exact Hone.
        + destruct (Hd j') as [H1 [H2 [H3 [H4 H5]]]]; [lia|].
          rewrite Ekk in *. split; [lia|]. split; [lia|].
          replace (S kk + 1) with (S (S kk)) by lia.
          replace (S i - S (S kk)) with (i - S kk) by lia.
          replace (S j' + 1 - S (S kk)) with (j' + 1 - S kk) by lia.
          apply same_run_snoc; [assumption|].
          replace (i - S kk + S kk) with i by lia.
          replace (j' + 1 - S kk + S kk) with (S j') by lia.
          symmetry. apply Hjs. now left. }
    destruct Hk as [Hk1 [Hk2 Hk3]].
    assert (Hk0 : 0 < k) by (unfold k; lia).
    destruct best as [[besti bestj] bestsize].
    apply IH.
    + intros x Hx. unfold j2len_set in *.
      destruct (x =? j) eqn:Ex.
      * apply Nat.eqb_eq in Ex. subst x.
        split; [lia|]. split; [lia|]. split; [lia|]. split; [lia|].
        exact Hk3.
      * now apply Hnew.
    + destruct (bestsize <? k); [|assumption].
      cbn. replace (i + 1 - k) with (S i - k) by lia.
      repeat split; try lia. exact Hk3.
Qed.

Lemma outer_loop_ok (cnt : nat) :
  forall i0 j2len best,
    alo <= i0 -> i0 + cnt <= ahi ->
    j2len_ok a b alo ahi blo bhi i0 j2len ->
    valid_match a b alo ahi blo bhi best ->
    valid_match a b alo ahi blo bhi
      (snd (outer_loop a b blo bhi (seq i0 cnt) j2len best)).
Proof.
  induction cnt as [|cnt IH]; intros i0 j2len best H1 H2 Hd Hbest.
  - exact Hbest.
  - cbn [seq outer_loop].
    pose proof (inner_loop_ok i0 j2len (b2j_get b (item a i0)) H1
                  ltac:(lia) Hd (In_b2j_get (item a i0))
                  j2len_empty best (j2len_ok_empty (S i0)) Hbest) as Hin.
    destruct (inner_loop i0 blo bhi j2len (b2j_get b (item a i0))
                j2len_empty best) as [d m].
    destruct Hin as [Hd' Hm]. apply IH; try assumption; lia.
Qed.

Lemma extend_left_ok (junk : bool) (besti : nat) :
  forall bestj bestsize,
    valid_match a b alo ahi blo bhi (besti, bestj, bestsize) ->
    valid_match a b alo ahi blo bhi
      (extend_left a b junk alo blo besti bestj bestsize).
Proof.
  induction besti as [|i' IH]; intros bestj bestsize Hv; [exact Hv|].
  cbn [extend_left]. destruct bestj as [|j']; [exact Hv|].
  destruct ((alo <? S i') && (blo <? S j')
            && Bool.eqb (isbjunk (item b j')) junk
            && String.eqb (item a i') (item b j')) eqn:E; [|exact Hv].
  rewrite !andb_true_iff in E. destruct E as [[[E1 E2] _] E4].
  apply Nat.ltb_lt in E1, E2. apply String.eqb_eq in E4.
  apply IH. cbn in Hv |- *. destruct Hv as [V1 [V2 [V3 [V4 V5]]]].
  repeat split; try lia. intros t Ht. destruct t as [|t].
  - now rewrite !Nat.add_0_r.
  - replace (i' + S t) with (S i' + t) by lia.
    replace (j' + S t) with (S j' + t) by lia. apply V5. lia.
Qed.

Lemma extend_right_ok (junk : bool) (steps : nat) :
  forall besti bestj bestsize,
    valid_match a b alo ahi blo bhi (besti, bestj, bestsize) ->
    valid_match a b alo ahi blo bhi
      (besti, bestj,
       extend_right a b junk steps ahi bhi besti bestj bestsize).
Proof.
  induction steps as [|steps IH]; intros besti bestj bestsize Hv; [exact Hv|].
  cbn [extend_right].
  destruct ((besti + bestsize <? ahi) && (bestj + bestsize <? bhi)
            && Bool.eqb (isbjunk (item b (bestj + bestsize))) junk
            && String.eqb (item a (besti + bestsize))
                          (item b (bestj + bestsize))) eqn:E; [|exact Hv].
  rewrite !andb_true_iff in E. destruct E as [[[E1 E2] _] E4].
  apply Nat.ltb_lt in E1, E2. apply String.eqb_eq in E4.
  apply IH. cbn in Hv |- *. destruct Hv as [V1 [V2 [V3 [V4 V5]]]].
  repeat split; try lia. now apply same_run_snoc.
Qed.

Lemma find_longest_match_ok :
  valid_match a b alo ahi blo bhi (find_longest_match a b alo ahi blo bhi).
Proof.
  unfold find_longest_match.
  pose proof (outer_loop_ok (ahi - alo) alo j2len_empty (alo, blo, 0)
                (Nat.le_refl _) ltac:(lia) (j2len_ok_empty alo) valid_start)
    as H0.
  destruct (outer_loop a b blo bhi (seq alo (ahi - alo)) j2len_empty
              (alo, blo, 0)) as [d [[bi bj] bs]].
  cbn [snd] in H0.
  pose proof (extend_left_ok false bi bj bs H0) as H1.
  destruct (extend_left a b false alo blo bi bj bs) as [[bi1 bj1] bs1].
  pose proof (extend_right_ok false (ahi - (bi1 + bs1)) bi1 bj1 bs1 H1) as H2.
  set (bs2 := extend_right a b false (ahi - (bi1 + bs1)) ahi bhi bi1 bj1 bs1)
    in *.
  pose proof (extend_left_ok true bi1 bj1 bs2 H2) as H3.
  destruct (extend_left a b true alo blo bi1 bj1 bs2) as [[bi3 bj3] bs3].
  apply extend_right_ok. exact H3.
Qed.

End Window.

End Facts.

End MatcherFacts.

(** ** [get_matching_blocks] returns a chain of matching blocks *)

Module BlocksFacts.

Import Difflib MatcherSpec OpcodeSpec MatcherFacts.

Section Facts.

Variables a b : list string.

(** *** The work list *)

Lemma matching_loop_window (n : nat) :
  forall alo ahi blo bhi,
    alo <= ahi -> blo <= bhi -> ahi - alo <= n ->
    exists c, c <= 2 * (ahi - alo) + 1 /\
      forall fuel q acc,
        matching_loop a b (c + fuel) ((alo, ahi, blo, bhi) :: q) acc
        = matching_loop a b fuel q (acc ++ visit_order a b n alo ahi blo bhi).
Proof.
  induction n as [|n IH]; intros alo ahi blo bhi Ha Hb Hn.
  - exists 1. split; [lia|]. intros fuel q acc. cbn [Nat.add matching_loop].
    pose proof (find_longest_match_ok a b alo ahi blo bhi Ha Hb) as Hv.
    destruct (find_longest_match a b alo ahi blo bhi) as [[i j] k].
    cbn in Hv. replace k with 0 by lia. cbn. now rewrite app_nil_r.
  - pose proof (find_longest_match_ok a b alo ahi blo bhi Ha Hb) as Hv.
    cbn [visit_order].
    destruct (find_longest_match a b alo ahi blo bhi) as [[i j] k] eqn:Ef.
    cbn in Hv. destruct Hv as [V1 [V2 [V3 [V4 V5]]]].
    destruct (k =? 0) eqn:Ek.
    + exists 1. split; [lia|]. intros fuel q acc.
      cbn [Nat.add matching_loop]. rewrite Ef, Ek. now rewrite app_nil_r.
    + apply Nat.eqb_neq in Ek.
      assert (HR : exists cr,
                 cr <= (if (i + k <? ahi) && (j + k <? bhi)
                        then 2 * (ahi - (i + k)) + 1 else 0) /\
                 forall fuel q acc,
                   matching_loop a b (cr + fuel)
                     (push ((i + k <? ahi) && (j + k <? bhi))
                           (i + k, ahi, j + k, bhi) q) acc
                   = matching_loop a b fuel q
                       (acc ++ (if (i + k <? ahi) && (j + k <? bhi)
                                then visit_order a b n (i + k) ahi (j + k) bhi
                                else []))).
      { destruct ((i + k <? ahi) && (j + k <? bhi)) eqn:E.
        - apply andb_true_iff in E. destruct E as [E1 E2].
          apply Nat.ltb_lt in E1, E2.
          apply IH; lia.
        - exists 0. split; [lia|]. intros. cbn. now rewrite app_nil_r. }
      assert (HL : exists cl,
                 cl <= (if (alo <? i) && (blo <? j)
                        then 2 * (i - alo) + 1 else 0) /\
                 forall fuel q acc,
                   matching_loop a b (cl + fuel)
                     (push ((alo <? i) && (blo <? j)) (alo, i, blo, j) q) acc
                   = matching_loop a b fuel q
                       (acc ++ (if (alo <? i) && (blo <? j)
                                then visit_order a b n alo i blo j
                                else []))).
      { destruct ((alo <? i) && (blo <? j)) eqn:E.
        - apply andb_true_iff in E. destruct E as [E1 E2].
          apply Nat.ltb_lt in E1, E2.
          apply IH; lia.
        - exists 0. split; [lia|]. intros. cbn. now rewrite app_nil_r. }
      destruct HR as [cr [Hcr HR]]. destruct HL as [cl [Hcl HL]].
      exists (1 + (cr + cl)). split.
      * destruct ((i + k <? ahi) && (j + k <? bhi));
          destruct ((alo <? i) && (blo <? j)); lia.
      * intros fuel q acc. cbn [Nat.add matching_loop]. rewrite Ef.
        apply Nat.eqb_neq in Ek. rewrite Ek.
        fold (push ((alo <? i) && (blo <? j)) (alo, i, blo, j) q).
        fold (push ((i + k <? ahi) && (j + k <? bhi)) (i + k, ahi, j + k, bhi)
                   (push ((alo <? i) && (blo <? j)) (alo, i, blo, j) q)).
        rewrite <- Nat.add_assoc, HR, HL.
        f_equal. rewrite <- !app_assoc. reflexivity.
Qed.

Lemma matching_loop_top :
  matching_loop a b (matching_fuel a)
    [(0, List.length a, 0, List.length b)] []
  = Some (visit_order a b (List.length a) 0 (List.length a) 0 (List.length b)).
Proof.
  destruct (matching_loop_window (List.length a) 0 (List.length a)
              0 (List.length b)) as [c [Hc H]]; try lia.
  unfold matching_fuel.
  replace (2 * List.length a + 2) with (c + (2 * List.length a + 2 - c)) by lia.
  rewrite H. now destruct (2 * List.length a + 2 - c).
Qed.

(** *** Chains *)

Lemma chain_weaken_start (strict : bool) (l : list Match) :
  forall i0 j0 i0' j0' ie je,
    chain a b strict i0 j0 l ie je -> i0' <= i0 -> j0' <= j0 ->
    chain a b strict i0' j0' l ie je.
Proof.
  destruct l as [|[[i j] k] rest]; intros i0 j0 i0' j0' ie je H Hi Hj.
  - cbn in *. lia.
  - cbn in *. destruct H as [H1 [H2 [H3 [H4 H5]]]].
    repeat split; try assumption; lia.
Qed.

Lemma chain_weaken_end (strict : bool) (l : list Match) :
  forall i0 j0 ie je ie' je',
    chain a b strict i0 j0 l ie je -> ie <= ie' -> je <= je' ->
    chain a b strict i0 j0 l ie' je'.
Proof.
  induction l as [|[[i j] k] rest IH]; intros i0 j0 ie je ie' je' H Hi Hj.
  - cbn in *. lia.
  - cbn in *. destruct H as [H1 [H2 [H3 [H4 H5]]]].
    repeat split; try assumption. eapply IH; eassumption.
Qed.

Lemma chain_app (strict : bool) (l1 l2 : list Match) :
  forall i0 j0 im jm ie je,
    chain a b strict i0 j0 l1 im jm -> chain a b strict im jm l2 ie je ->
    chain a b strict i0 j0 (l1 ++ l2) ie je.
Proof.
  induction l1 as [|[[i j] k] rest IH]; intros i0 j0 im jm ie je H1 H2.
  - cbn in *. eapply chain_weaken_start; [eassumption| |]; lia.
  - cbn in *. destruct H1 as [A1 [A2 [A3 [A4 A5]]]].
    repeat split; try assumption. eapply IH; eassumption.
Qed.

Lemma chain_bounds (strict : bool) (l : list Match) :
  forall i0 j0 ie je,
    chain a b strict i0 j0 l ie je -> i0 <= ie /\ j0 <= je.
Proof.
  induction l as [|[[i j] k] rest IH]; intros i0 j0 ie je H.
  - exact H.
  - cbn in H. destruct H as [H1 [H2 [H3 [H4 H5]]]].
    apply IH in H5. lia.
Qed.

Lemma chain_strict_weak (l : list Match) :
  forall i0 j0 ie je,
    chain a b true i0 j0 l ie je -> chain a b false i0 j0 l ie je.
Proof.
  induction l as [|[[i j] k] rest IH]; intros i0 j0 ie je H.
  - exact H.
  - cbn in *. destruct H as [H1 [H2 [H3 [H4 H5]]]].
    repeat split; try assumption; [discriminate | now apply IH].
Qed.

Lemma in_order_chain (n : nat) :
  forall alo ahi blo bhi,
    alo <= ahi -> blo <= bhi ->
    chain a b true alo blo (in_order a b n alo ahi blo bhi) ahi bhi.
Proof.
  induction n as [|n IH]; intros alo ahi blo bhi Ha Hb.
  - cbn. lia.
  - cbn [in_order].
    pose proof (find_longest_match_ok a b alo ahi blo bhi Ha Hb) as Hv.
    destruct (find_longest_match a b alo ahi blo bhi) as [[i j] k].
    cbn in Hv. destruct Hv as [V1 [V2 [V3 [V4 V5]]]].
    destruct (k =? 0) eqn:Ek; [cbn; lia|]. apply Nat.eqb_neq in Ek.
    apply chain_app with (im := i) (jm := j).
    + destruct ((alo <? i) && (blo <? j)); [apply IH; lia | cbn; lia].
    + cbn [chain]. repeat split; try lia; try assumption.
      destruct ((i + k <? ahi) && (j + k <? bhi)); [apply IH; lia | cbn; lia].
Qed.

Lemma visit_order_perm (n : nat) :
  forall alo ahi blo bhi,
    Permutation (visit_order a b n alo ahi blo bhi)
                (in_order a b n alo ahi blo bhi).
Proof.
  induction n as [|n IH]; intros alo ahi blo bhi; [reflexivity|].
  cbn [visit_order in_order].
  destruct (find_longest_match a b alo ahi blo bhi) as [[i j] k].
  destruct (k =? 0); [reflexivity|].
  apply Permutation_cons_app. rewrite Permutation_app_comm.
  apply Permutation_app.
  - destruct ((alo <? i) && (blo <? j)); [apply IH | reflexivity].
  - destruct ((i + k <? ahi) && (j + k <? bhi)); [apply IH | reflexivity].
Qed.

(** *** Sorting *)

Lemma match_leb_spec (x y : Match) :
  match_leb x y = true <->
  let '(i1, j1, k1) := x in
  let '(i2, j2, k2) := y in
  i1 < i2 \/ (i1 = i2 /\ (j1 < j2 \/ (j1 = j2 /\ k1 <= k2))).
Proof.
  destruct x as [[i1 j1] k1], y as [[i2 j2] k2]. unfold match_leb.
  rewrite !orb_true_iff, !andb_true_iff, !orb_true_iff, !andb_true_iff,
    !Nat.ltb_lt, !Nat.eqb_eq, Nat.leb_le. tauto.
Qed.

Lemma match_le_trans (x y z : Match) :
  match_le x y -> match_le y z -> match_le x z.
Proof.
  unfold match_le. rewrite !match_leb_spec.
  destruct x as [[i1 j1] k1], y as [[i2 j2] k2], z as [[i3 j3] k3]. lia.
Qed.

Lemma match_le_total (x y : Match) : match_leb x y = false -> match_le y x.
Proof.
  intros H. unfold match_le. apply match_leb_spec.
  assert (Hn : ~ (match_leb x y = true)) by (rewrite H; discriminate).
  rewrite match_leb_spec in Hn.
  destruct x as [[i1 j1] k1], y as [[i2 j2] k2]. lia.
Qed.

Lemma match_le_antisym (x y : Match) : match_le x y -> match_le y x -> x = y.
Proof.
  unfold match_le. rewrite !match_leb_spec.
  destruct x as [[i1 j1] k1], y as [[i2 j2] k2]. intros H1 H2.
  assert (i1 = i2 /\ j1 = j2 /\ k1 = k2) as [-> [-> ->]] by lia. reflexivity.
Qed.

Lemma insert_match_perm (x : Match) (l : list Match) :
  Permutation (insert_match x l) (x :: l).
Proof.
  induction l as [|h t IH]; cbn [insert_match]; [reflexivity|].
  destruct (match_leb x h); [reflexivity|]. rewrite IH. apply perm_swap.
Qed.

Lemma sort_matches_perm (l : list Match) : Permutation (sort_matches l) l.
Proof.
  unfold sort_matches. induction l as [|x l IH]; cbn [fold_right]; [reflexivity|].
  rewrite insert_match_perm. now constructor.
Qed.

Lemma insert_match_sorted (x : Match) (l : list Match) :
  StronglySorted match_le l -> StronglySorted match_le (insert_match x l).
Proof.
  induction 1 as [|h t Hs IH Hall]; cbn [insert_match].
  - repeat constructor.
  - destruct (match_leb x h) eqn:E.
    + constructor; [now constructor|]. constructor; [exact E|].
      eapply Forall_impl; [|exact Hall]. intros y Hy.
      eapply match_le_trans; [exact E | exact Hy].
    + constructor; [assumption|]. apply Forall_forall. intros y Hy.
      apply (Permutation_in _ (insert_match_perm x t)) in Hy.
      destruct Hy as [<-|Hy]; [now apply match_le_total|].
      rewrite Forall_forall in Hall. now apply Hall.
Qed.

Lemma sort_matches_sorted (l : list Match) :
  StronglySorted match_le (sort_matches l).
Proof.
  unfold sort_matches. induction l as [|x l IH]; cbn [fold_right].
  - constructor.
  - now apply insert_match_sorted.
Qed.

Lemma sorted_matches_unique (l1 : list Match) :
  forall l2, StronglySorted match_le l1 -> StronglySorted match_le l2 ->
             Permutation l1 l2 -> l1 = l2.
Proof.
  induction l1 as [|x t1 IH]; intros l2 H1 H2 Hp.
  - now apply Permutation_nil in Hp.
  - destruct l2 as [|y t2].
    { apply Permutation_sym, Permutation_nil in Hp. discriminate. }
    inversion H1 as [|? ? Hs1 Ha1]; subst. inversion H2 as [|? ? Hs2 Ha2]; subst.
    assert (Hxy : x = y).
    { assert (Hx : In x (y :: t2)) by (eapply Permutation_in; [exact Hp | now left]).
      assert (Hy : In y (x :: t1))
        by (eapply Permutation_in; [apply Permutation_sym; exact Hp | now left]).
      destruct Hy as [Hy|Hy]; [assumption|].
      destruct Hx as [Hx|Hx]; [now symmetry|].
      rewrite Forall_forall in Ha1, Ha2.
      apply match_le_antisym; [now apply Ha1 | now apply Ha2]. }
    subst y. f_equal. apply IH; try assumption.
    eapply Permutation_cons_inv; exact Hp.
Qed.

Lemma chain_sorted (l : list Match) :
  forall i0 j0 ie je,
    chain a b true i0 j0 l ie je ->
    StronglySorted match_le l /\ Forall (fun m => i0 <= fst (fst m)) l.
Proof.
  induction l as [|[[i j] k] rest IH]; intros i0 j0 ie je H.
  - split; constructor.
  - cbn in H. destruct H as [H1 [H2 [H3 [H4 H5]]]].
    specialize (H3 eq_refl). destruct (IH _ _ _ _ H5) as [Hs Hf]. split.
    + constructor; [assumption|]. eapply Forall_impl; [|exact Hf].
      intros [[i' j'] k'] Hm. cbn in Hm. unfold match_le.
      apply match_leb_spec. lia.
    + constructor; [cbn; lia|]. eapply Forall_impl; [|exact Hf].
      intros m Hm. cbn beta in Hm. lia.
Qed.

(** The sorted list of the blocks found is the chain of blocks from left
    to right. *)
Lemma sorted_blocks_eq :
  sort_matches
    (visit_order a b (List.length a) 0 (List.length a) 0 (List.length b))
  = in_order a b (List.length a) 0 (List.length a) 0 (List.length b).
Proof.
  apply sorted_matches_unique.
  - apply sort_matches_sorted.
  - eapply chain_sorted. apply in_order_chain; lia.
  - rewrite sort_matches_perm. apply visit_order_perm.
Qed.

(** *** Merging adjacent blocks *)

Lemma same_run_app (i j k1 k2 : nat) :
  same_run a b i j k1 -> same_run a b (i + k1) (j + k1) k2 ->
  same_run a b i j (k1 + k2).
Proof.
  intros H1 H2 t Ht. destruct (Nat.lt_ge_cases t k1) as [Hlt|Hge].
  - now apply H1.
  - specialize (H2 (t - k1) ltac:(lia)).
    replace (i + k1 + (t - k1)) with (i + t) in H2 by lia.
    replace (j + k1 + (t - k1)) with (j + t) in H2 by lia. exact H2.
Qed.

Lemma collapse_loop_chain (blocks : list Match) :
  forall i0 j0 i1 j1 k1 na ie je,
    chain a b false i0 j0 na i1 j1 ->
    same_run a b i1 j1 k1 ->
    chain a b true (i1 + k1) (j1 + k1) blocks ie je ->
    let '(na', (i', j', k')) := collapse_loop blocks i1 j1 k1 na in
    chain a b false i0 j0
          (if k' =? 0 then na' else na' ++ [(i', j', k')]) ie je.
Proof.
  induction blocks as [|[[i2 j2] k2] rest IH];
    intros i0 j0 i1 j1 k1 na ie je Hna Hrun Hch.
  - cbn [collapse_loop]. cbn in Hch. destruct (k1 =? 0) eqn:Ek.
    + apply Nat.eqb_eq in Ek. subst k1.
      eapply chain_weaken_end; [eassumption | |]; lia.
    + eapply chain_app; [eassumption|]. cbn.
      repeat split; try lia; try assumption; try discriminate.
  - cbn [collapse_loop]. cbn [chain] in Hch.
    destruct Hch as [C1 [C2 [C3 [C4 C5]]]]. specialize (C3 eq_refl).
    destruct ((i1 + k1 =? i2) && (j1 + k1 =? j2)) eqn:E.
    + apply andb_true_iff in E. destruct E as [E1 E2].
      apply Nat.eqb_eq in E1, E2. subst i2 j2.
      apply IH; [assumption | now apply same_run_app |].
      now rewrite !Nat.add_assoc.
    + apply IH; [|assumption|assumption].
      destruct (k1 =? 0) eqn:Ek.
      * eapply chain_weaken_end; [eassumption | |]; lia.
      * eapply chain_app; [eassumption|]. cbn.
        repeat split; try lia; try assumption; try discriminate.
Qed.

Lemma get_matching_blocks_chain :
  exists blocks,
    get_matching_blocks a b
    = Some (blocks ++ [(List.length a, List.length b, 0)])
    /\ chain a b false 0 0 blocks (List.length a) (List.length b).
Proof.
  unfold get_matching_blocks. rewrite matching_loop_top, sorted_blocks_eq.
  pose proof (in_order_chain (List.length a) 0 (List.length a)
                0 (List.length b) ltac:(lia) ltac:(lia)) as Hc.
  pose proof (collapse_loop_chain _ 0 0 0 0 0 [] _ _
                ltac:(cbn; lia) ltac:(intros t Ht; lia) Hc) as H.
  destruct (collapse_loop
              (in_order a b (List.length a) 0 (List.length a) 0 (List.length b))
              0 0 0 []) as [na [[i' j'] k']].
  eexists. split; [reflexivity | exact H].
Qed.

(** *** The opcodes *)

Lemma opcodes_loop_acc (blocks : list Match) :
  forall i j answer,
    opcodes_loop blocks i j answer = answer ++ opcodes_loop blocks i j [].
Proof.
  induction blocks as [|[[ai bj] size] rest IH]; intros i j answer.
  - cbn. now rewrite app_nil_r.
  - cbn [opcodes_loop]. rewrite IH. symmetry. rewrite IH.
    rewrite !app_assoc. f_equal.
    destruct ((i <? ai) && (j <? bj)), (i <? ai), (j <? bj), (size =? 0);
      cbn; rewrite ?app_nil_r, <- ?app_assoc; reflexivity.
Qed.

Lemma opcodes_loop_path (blocks : list Match) :
  forall i j,
    chain a b false i j blocks (List.length a) (List.length b) ->
    path a b i j
         (opcodes_loop (blocks ++ [(List.length a, List.length b, 0)]) i j [])
         (List.length a) (List.length b).
Proof.
  induction blocks as [|[[ai bj] size] rest IH]; intros i j Hc.
  - cbn in Hc. cbn [app opcodes_loop]. rewrite Nat.eqb_refl.
    destruct (i <? List.length a) eqn:E1; destruct (j <? List.length b) eqn:E2;
      cbn [andb app path op_ok];
      try apply Nat.ltb_lt in E1; try apply Nat.ltb_lt in E2;
      try apply Nat.ltb_ge in E1; try apply Nat.ltb_ge in E2;
      repeat split; lia.
  - cbn [chain] in Hc. destruct Hc as [C1 [C2 [_ [C4 C5]]]].
    specialize (IH _ _ C5).
    cbn [app opcodes_loop]. rewrite opcodes_loop_acc.
    assert (Heq : path a b ai bj
              ((if size =? 0 then []
                else [(Equal, ai, ai + size, bj, bj + size)])
               ++ opcodes_loop
                    (rest ++ [(List.length a, List.length b, 0)])
                    (ai + size) (bj + size) [])
              (List.length a) (List.length b)).
    { destruct (size =? 0) eqn:Es.
      - apply Nat.eqb_eq in Es. subst size.
        rewrite !Nat.add_0_r in IH |- *. exact IH.
      - cbn [app path op_ok]. repeat split; try lia; try assumption.
        now replace (ai + size - ai) with size by lia. }
    destruct (i <? ai) eqn:E1; destruct (j <? bj) eqn:E2;
      try apply Nat.ltb_lt in E1; try apply Nat.ltb_lt in E2;
      try apply Nat.ltb_ge in E1; try apply Nat.ltb_ge in E2;
      cbn [andb].
    + destruct (size =? 0); cbn [app path op_ok] in *;
        repeat split; try lia; tauto.
    + destruct (size =? 0); cbn [app path op_ok] in *;
        repeat split; try lia; tauto.
    + destruct (size =? 0); cbn [app path op_ok] in *;
        repeat split; try lia; tauto.
    + assert (i = ai) by lia. assert (j = bj) by lia. subst i j.
      destruct (size =? 0); cbn [app] in *; exact Heq.
Qed.

Lemma get_opcodes_path :
  exists codes,
    get_opcodes a b = Some codes
    /\ path a b 0 0 codes (List.length a) (List.length b).
Proof.
  unfold get_opcodes.
  destruct get_matching_blocks_chain as [blocks [-> Hc]].
  eexists. split; [reflexivity|]. now apply opcodes_loop_path.
Qed.

End Facts.

End BlocksFacts.

(** ** The groups of [get_grouped_opcodes(0)] *)

Module GroupFacts.

Import Difflib MatcherSpec OpcodeSpec MatcherFacts BlocksFacts.

Section Facts.

Variables a b : list string.

Lemma path_bounds (ops : list Opcode) :
  forall i j ie je, path a b i j ops ie je -> i <= ie /\ j <= je.
Proof.
  induction ops as [|[[[[tag i1] i2] j1] j2] rest IH]; intros i j ie je H.
  - cbn in H. lia.
  - cbn [path] in H. destruct H as [-> [-> [Hok Hp]]].
    apply IH in Hp. cbn in Hok. lia.
Qed.

Lemma path_snoc (g : list Opcode) :
  forall gi gj i j tag i2 j2,
    path a b gi gj g i j -> op_ok a b (tag, i, i2, j, j2) ->
    path a b gi gj (g ++ [(tag, i, i2, j, j2)]) i2 j2.
Proof.
  induction g as [|[[[[t i1] i2'] j1] j2'] rest IH];
    intros gi gj i j tag i2 j2 Hp Hok.
  - cbn in Hp. destruct Hp as [-> ->]. cbn [app path].
    split; [reflexivity|]. split; [reflexivity|]. split; [assumption|].
    split; reflexivity.
  - cbn [app path] in *. destruct Hp as [-> [-> [Hok' Hp]]].
    split; [reflexivity|]. split; [reflexivity|]. split; [assumption|].
    now apply IH.
Qed.

Lemma op_ok_thin_equal (i j : nat) : op_ok a b (Equal, i, i, j, j).
Proof.
  cbn. repeat split; try lia. intros t Ht. lia.
Qed.

Lemma fix_trailing_cons (n : nat) (c1 c2 : Opcode) (rest : list Opcode) :
  fix_trailing n (c1 :: c2 :: rest) = c1 :: fix_trailing n (c2 :: rest).
Proof. destruct c1 as [[[[[] i1] i2] j1] j2]; reflexivity. Qed.

Section Flat.

Variable X : Type.
Variable f : Opcode -> list X.
Hypothesis f_equal_nil : forall i1 i2 j1 j2, f (Equal, i1, i2, j1, j2) = [].

Lemma fix_leading_path (codes : list Opcode) :
  forall i j ie je,
    path a b i j codes ie je ->
    (exists i' j', path a b i' j' (fix_leading 0 codes) ie je)
    /\ flat_map f (fix_leading 0 codes) = flat_map f codes.
Proof.
  intros i j ie je H.
  destruct codes as [|[[[[tag i1] i2] j1] j2] rest].
  - split; [exists i, j; exact H | reflexivity].
  - assert (Hsame : (exists i' j',
               path a b i' j' ((tag, i1, i2, j1, j2) :: rest) ie je)
             /\ flat_map f ((tag, i1, i2, j1, j2) :: rest)
                = flat_map f ((tag, i1, i2, j1, j2) :: rest)).
    { split; [exists i, j; exact H | reflexivity]. }
    destruct tag; try exact Hsame. clear Hsame.
    cbn [path] in H. destruct H as [-> [-> [Hok Hp]]].
    cbn [fix_leading]. cbn in Hok.
    replace (Nat.max i (i2 - 0)) with i2 by lia.
    replace (Nat.max j (j2 - 0)) with j2 by lia.
    split.
    + exists i2, j2. cbn [path].
      split; [reflexivity|]. split; [reflexivity|].
      split; [apply op_ok_thin_equal | exact Hp].
    + cbn [flat_map]. now rewrite !f_equal_nil.
Qed.

Lemma fix_trailing_path (codes : list Opcode) :
  forall i j ie je,
    path a b i j codes ie je ->
    (exists ie' je', ie' <= ie /\ je' <= je
                     /\ path a b i j (fix_trailing 0 codes) ie' je')
    /\ flat_map f (fix_trailing 0 codes) = flat_map f codes.
Proof.
  induction codes as [|[[[[tag i1] i2] j1] j2] rest IH]; intros i j ie je H.
  - split; [|reflexivity]. exists ie, je.
    split; [lia|]. split; [lia|]. exact H.
  - destruct rest as [|c rest'].
    + assert (Hsame : (exists ie' je', ie' <= ie /\ je' <= je
                 /\ path a b i j [(tag, i1, i2, j1, j2)] ie' je')
               /\ flat_map f [(tag, i1, i2, j1, j2)]
                  = flat_map f [(tag, i1, i2, j1, j2)]).
      { split; [|reflexivity]. exists ie, je.
        split; [lia|]. split; [lia|]. exact H. }
      destruct tag; try exact Hsame. clear Hsame.
      cbn [path] in H. destruct H as [-> [-> [Hok [-> ->]]]].
      cbn [fix_trailing]. cbn in Hok.
      replace (Nat.min ie (i + 0)) with i by lia.
      replace (Nat.min je (j + 0)) with j by lia.
      split.
      * exists i, j. split; [lia|]. split; [lia|]. cbn [path].
        split; [reflexivity|]. split; [reflexivity|].
        split; [apply op_ok_thin_equal | split; reflexivity].
      * cbn [flat_map]. now rewrite !f_equal_nil.
    + cbn [path] in H. destruct H as [-> [-> [Hok Hp]]].
      destruct (IH _ _ _ _ Hp) as [[ie' [je' [H1 [H2 H3]]]] Hf].
      rewrite fix_trailing_cons. split.
      * exists ie', je'. split; [assumption|]. split; [assumption|].
        cbn [path]. split; [reflexivity|]. split; [reflexivity|].
        split; assumption.
      * cbn [flat_map] in *. now rewrite Hf.
Qed.

Lemma group_loop_0 (codes : list Opcode) :
  forall i j ie je yielded group gi gj,
    path a b i j codes ie je ->
    ie <= List.length a -> je <= List.length b ->
    Forall (good_group a b) yielded ->
    path a b gi gj group i j -> Forall thin group ->
    let '(y', g') := group_loop 0 codes yielded group in
    Forall (good_group a b) y' /\ Forall thin g'
    /\ (exists gi' gj', path a b gi' gj' g' ie je)
    /\ flat_map f (List.concat y' ++ g')
       = flat_map f (List.concat yielded ++ group ++ codes).
Proof.
  induction codes as [|[[[[tag i1] i2] j1] j2] rest IH];
    intros i j ie je yielded group gi gj Hp Hie Hje Hy Hg Ht.
  - cbn in Hp. destruct Hp as [-> ->]. cbn [group_loop].
    rewrite app_nil_r. split; [assumption|]. split; [assumption|].
    split; [now exists gi, gj | reflexivity].
  - cbn [path] in Hp. destruct Hp as [-> [-> [Hok Hp]]].
    pose proof (path_bounds _ _ _ _ _ Hp) as Hb.
    cbn [group_loop].
    destruct (tag_eqb tag Equal && (0 + 0 <? i2 - i)) eqn:E.
    + apply andb_true_iff in E. destruct E as [E1 E2].
      destruct tag; try discriminate. apply Nat.ltb_lt in E2.
      assert (Hle : i <= i2 /\ j <= j2) by (cbn in Hok; lia).
      replace (Nat.min i2 (i + 0)) with i by lia.
      replace (Nat.min j2 (j + 0)) with j by lia.
      replace (Nat.max i (i2 - 0)) with i2 by lia.
      replace (Nat.max j (j2 - 0)) with j2 by lia.
      specialize (IH i2 j2 ie je (yielded ++ [group ++ [(Equal, i, i, j, j)]])
                     [(Equal, i2, i2, j2, j2)] i2 j2 Hp Hie Hje).
      destruct (group_loop 0 rest
                  (yielded ++ [group ++ [(Equal, i, i, j, j)]])
                  [(Equal, i2, i2, j2, j2)]) as [y' g'].
      destruct IH as [I1 [I2 [I3 I4]]].
      * apply Forall_app. split; [assumption|]. constructor; [|constructor].
        split; [now destruct group|]. split.
        -- apply Forall_app. split; [assumption|].
           constructor; [|constructor]. cbn. tauto.
        -- exists gi, gj, i, j. split; [|lia].
           apply path_snoc; [assumption | apply op_ok_thin_equal].
      * cbn [path]. split; [reflexivity|]. split; [reflexivity|].
        split; [apply op_ok_thin_equal | split; reflexivity].
      * constructor; [|constructor]. cbn. tauto.
      * split; [assumption|]. split; [assumption|]. split; [assumption|].
        rewrite I4.
        rewrite List.concat_app. cbn [List.concat]. rewrite app_nil_r.
        rewrite !flat_map_app. cbn [flat_map].
        rewrite !f_equal_nil. cbn [app]. rewrite app_nil_r.
        now rewrite <- !app_assoc.
    + specialize (IH i2 j2 ie je yielded (group ++ [(tag, i, i2, j, j2)])
                     gi gj Hp Hie Hje Hy).
      destruct (group_loop 0 rest yielded (group ++ [(tag, i, i2, j, j2)]))
        as [y' g'].
      destruct IH as [I1 [I2 [I3 I4]]].
      * now apply path_snoc.
      * apply Forall_app. split; [assumption|]. constructor; [|constructor].
        cbn. intros ->. cbn [tag_eqb andb] in E. apply Nat.ltb_ge in E.
        cbn in Hok. lia.
      * split; [assumption|]. split; [assumption|]. split; [assumption|].
        rewrite I4. now rewrite <- !app_assoc.
Qed.

End Flat.

Lemma yield_last_cases (yielded : list (list Opcode)) (group : list Opcode) :
  (yield_last yielded group = yielded
   /\ forall (X : Type) (f : Opcode -> list X),
        (forall i1 i2 j1 j2, f (Equal, i1, i2, j1, j2) = []) ->
        flat_map f group = [])
  \/ (yield_last yielded group = yielded ++ [group] /\ group <> []).
Proof.
  destruct group as [|[[[[tag i1] i2] j1] j2] rest].
  - left. split; [reflexivity|]. reflexivity.
  - destruct tag; try (right; split; [reflexivity | discriminate]).
    destruct rest as [|c rest].
    + left. split; [reflexivity|]. intros X f Hf. cbn. now rewrite Hf.
    + right. split; [reflexivity | discriminate].
Qed.

(** The groups [get_grouped_opcodes(0)] yields: each a run of opcodes
    whose [equal] members span nothing, and together they hold the
    opcodes that are not [equal], in order. *)
Lemma get_grouped_opcodes_0 :
  exists codes groups,
    get_opcodes a b = Some codes
    /\ path a b 0 0 codes (List.length a) (List.length b)
    /\ get_grouped_opcodes a b 0 = Some groups
    /\ Forall (good_group a b) groups
    /\ forall (X : Type) (f : Opcode -> list X),
         (forall i1 i2 j1 j2, f (Equal, i1, i2, j1, j2) = []) ->
         flat_map f (List.concat groups) = flat_map f codes.
Proof.
  destruct (get_opcodes_path a b) as [codes [Hc Hp]].
  exists codes. unfold get_grouped_opcodes. rewrite Hc.
  destruct codes as [|c cs].
  - exists []. split; [reflexivity|]. split; [assumption|].
    split; [reflexivity|]. split; [constructor|]. intros; reflexivity.
  - set (codes := c :: cs) in *.
    pose (nil1 := fun _ : Opcode => @nil unit).
    destruct (fix_leading_path unit nil1 ltac:(reflexivity) codes _ _ _ _ Hp)
      as [[i' [j' Hl]] _].
    destruct (fix_trailing_path unit nil1 ltac:(reflexivity) _ _ _ _ _ Hl)
      as [[ie' [je' [Hie [Hje Ht]]]] _].
    pose proof (fun X f Hf =>
                  group_loop_0 X f Hf _ i' j' ie' je' [] [] i' j' Ht
                    Hie Hje (Forall_nil _) (conj eq_refl eq_refl)
                    (Forall_nil _)) as Hg.
    destruct (group_loop 0 (fix_trailing 0 (fix_leading 0 codes)) [] [])
      as [y' g'] eqn:Eg.
    exists (yield_last y' g').
    split; [reflexivity|]. split; [assumption|]. split; [reflexivity|].
    destruct (Hg unit nil1 ltac:(reflexivity)) as [G1 [G2 [[gi [gj G3]] _]]].
    destruct (yield_last_cases y' g') as [[-> Hnil]|[-> Hne]].
    + split; [assumption|]. intros X f Hf.
      destruct (Hg X f Hf) as [_ [_ [_ G4]]].
      rewrite flat_map_app, (Hnil X f Hf), app_nil_r in G4.
      rewrite G4. cbn [List.concat app].
      destruct (fix_leading_path X f Hf codes _ _ _ _ Hp) as [_ E1].
      destruct (fix_trailing_path X f Hf _ _ _ _ _ Hl) as [_ E2].
      now rewrite E2, E1.
    + split.
      * apply Forall_app. split; [assumption|]. constructor; [|constructor].
        split; [assumption|]. split; [assumption|].
        exists gi, gj, ie', je'. split; [assumption | lia].
      * intros X f Hf. destruct (Hg X f Hf) as [_ [_ [_ G4]]].
        rewrite List.concat_app. cbn [List.concat]. rewrite app_nil_r.
        rewrite G4. cbn [List.concat app].
        destruct (fix_leading_path X f Hf codes _ _ _ _ Hp) as [_ E1].
        destruct (fix_trailing_path X f Hf _ _ _ _ _ Hl) as [_ E2].
        now rewrite E2, E1.
Qed.

End Facts.

End GroupFacts.

(** ** The scan of the diff *)

Module ScanFacts.

Import Py PyAux PyFacts Difflib MatcherSpec OpcodeSpec Diff DiffSpec.
Import MatcherFacts BlocksFacts GroupFacts.

Lemma scan_app (l1 l2 : list string) :
  forall st, scan st (l1 ++ l2) = (st' <- scan st l1 ;; scan st' l2).
Proof.
  induction l1 as [|x l1 IH]; intros st; [reflexivity|].
  cbn [app scan]. destruct (scan_line st x) as [st'|e]; cbn [bind].
  - apply IH.
  - reflexivity.
Qed.

(** A line of the diff that adds a line advances the counter of the new
    file only. *)
Lemma scan_line_plus (st : ScanState) (line : string) (f2 : nat) :
  file2_index st = Some f2 ->
  scan_line st ("+" ++ line)
  = Ok {| new_lines := new_lines st ++ [reported line];
          new_line_nums := new_line_nums st ++ [f2];
          deleted_lines := deleted_lines st;
          deleted_line_nums := deleted_line_nums st;
          file1_index := file1_index st;
          file2_index := Some (f2 + 1) |}.
Proof.
  intros H2. unfold scan_line.
  change ("+" ++ line)%string with (String "+" line).
  destruct (split_ws_first_char "+" line eq_refl) as [t [rest ->]].
  cbn [index nth_error bind]. cbn [String.eqb]. 
  change (Ascii.eqb "+" "@") with false. cbv iota.
  change (Ascii.eqb "+" "+") with true. cbv iota.
  rewrite H2. reflexivity.
Qed.

(** A line of the diff that removes a line advances the counter of the
    old file only. *)
Lemma scan_line_minus (st : ScanState) (line : string) (f1 : nat) :
  file1_index st = Some f1 ->
  scan_line st ("-" ++ line)
  = Ok {| new_lines := new_lines st;
          new_line_nums := new_line_nums st;
          deleted_lines := deleted_lines st ++ [("-" ++ line)%string];
          deleted_line_nums := deleted_line_nums st ++ [f1];
          file1_index := Some (f1 + 1);
          file2_index := file2_index st |}.
Proof.
  intros H1. unfold scan_line.
  change ("-" ++ line)%string with (String "-" line).
  destruct (split_ws_first_char "-" line eq_refl) as [t [rest ->]].
  cbn [index nth_error bind]. cbn [String.eqb].
  change (Ascii.eqb "-" "@") with false. cbv iota.
  change (Ascii.eqb "-" "+") with false. cbv iota.
  change (Ascii.eqb "-" "-") with true. cbv iota.
  rewrite H1. reflexivity.
Qed.

Lemma scanned_nil (st : ScanState) :
  scanned st [] [] [] [] (file1_index st) (file2_index st) = st.
Proof. destruct st. unfold scanned. cbn. now rewrite !app_nil_r. Qed.

Lemma scan_minus_lines (ls : list string) :
  forall st f1,
    file1_index st = Some f1 ->
    scan st (map (fun line => ("-" ++ line)%string) ls)
    = Ok (scanned st [] [] (map (fun line => ("-" ++ line)%string) ls)
                  (seq f1 (List.length ls))
                  (Some (f1 + List.length ls)) (file2_index st)).
Proof.
  induction ls as [|l ls IH]; intros st f1 H1.
  - cbn [map scan List.length seq]. rewrite Nat.add_0_r, <- H1.
    now rewrite scanned_nil.
  - cbn [map scan]. rewrite (scan_line_minus st l f1 H1). cbn [bind].
    rewrite (IH _ (f1 + 1)) by reflexivity. f_equal.
    unfold scanned. cbn [new_lines new_line_nums deleted_lines
                          deleted_line_nums file1_index file2_index].
    cbn [List.length seq]. rewrite <- !app_assoc. cbn [app].
    replace (f1 + 1) with (S f1) by lia.
    replace (S f1 + List.length ls) with (f1 + S (List.length ls)) by lia.
    reflexivity.
Qed.

Lemma scan_plus_lines (ls : list string) :
  forall st f2,
    file2_index st = Some f2 ->
    scan st (map (fun line => ("+" ++ line)%string) ls)
    = Ok (scanned st (map reported ls) (seq f2 (List.length ls)) [] []
                  (file1_index st) (Some (f2 + List.length ls))).
Proof.
  induction ls as [|l ls IH]; intros st f2 H2.
  - cbn [map scan List.length seq]. rewrite Nat.add_0_r, <- H2.
    now rewrite scanned_nil.
  - cbn [map scan]. rewrite (scan_line_plus st l f2 H2). cbn [bind].
    rewrite (IH _ (f2 + 1)) by reflexivity. f_equal.
    unfold scanned. cbn [new_lines new_line_nums deleted_lines
                          deleted_line_nums file1_index file2_index].
    cbn [List.length seq]. rewrite <- !app_assoc. cbn [app].
    replace (f2 + 1) with (S f2) by lia.
    replace (S f2 + List.length ls) with (f2 + S (List.length ls)) by lia.
    reflexivity.
Qed.

(** *** Hunk headers *)

Lemma str_of_nat_not_space (n : nat) :
  all_chars not_space (str_of_nat n) = true.
Proof.
  eapply all_chars_impl; [apply is_digit_not_space | apply str_of_nat_digits].
Qed.

Lemma str_of_nat_not_comma (n : nat) :
  all_chars (fun c => negb (Ascii.eqb c ",")) (str_of_nat n) = true.
Proof.
  eapply all_chars_impl; [apply is_digit_not_comma | apply str_of_nat_digits].
Qed.

Lemma format_range_not_space (start stop : nat) :
  all_chars not_space (_format_range_unified start stop) = true.
Proof.
  unfold _format_range_unified. destruct (stop - start =? 1).
  - apply str_of_nat_not_space.
  - rewrite !all_chars_app, !str_of_nat_not_space. reflexivity.
Qed.

Lemma hunk_start_range (c : ascii) (start stop : nat) :
  Ascii.eqb c "," = false ->
  hunk_start (String c (_format_range_unified start stop))
  = Ok (announced start stop).
Proof.
  intros Hc. unfold hunk_start, _format_range_unified, announced.
  destruct (stop - start =? 1) eqn:E1.
  - rewrite split_on_no_sep.
    + cbn [index nth_error bind drop1]. rewrite int_of_str_of_nat.
      apply Nat.eqb_eq in E1. rewrite E1. reflexivity.
    + cbn [all_chars]. rewrite Hc. cbn [negb andb].
      apply str_of_nat_not_comma.
  - set (beg := if stop - start =? 0 then start + 1 - 1 else start + 1).
    change (String c (str_of_nat beg ++ "," ++ str_of_nat (stop - start)))
      with ((String c (str_of_nat beg))
              ++ String "," (str_of_nat (stop - start)))%string.
    rewrite split_on_first.
    + cbn [index nth_error bind drop1]. rewrite int_of_str_of_nat.
      unfold beg. destruct (stop - start =? 0); f_equal; lia.
    + cbn [all_chars]. rewrite Hc. cbn [negb andb].
      apply str_of_nat_not_comma.
Qed.

Lemma scan_line_header (st : ScanState) (gi gi' gj gj' : nat) :
  scan_line st (header_line gi gi' gj gj')
  = Ok {| new_lines := new_lines st;
          new_line_nums := new_line_nums st;
          deleted_lines := deleted_lines st;
          deleted_line_nums := deleted_line_nums st;
          file1_index := Some (announced gi gi');
          file2_index := Some (announced gj gj') |}.
Proof.
  unfold scan_line, header_line.
  rewrite split_ws_header by apply format_range_not_space.
  cbn [index nth_error bind]. change (String.eqb "@@" "@@") with true.
  cbv iota.
  change ("-" ++ _format_range_unified gi gi')%string
    with (String "-" (_format_range_unified gi gi')).
  change ("+" ++ _format_range_unified gj gj')%string
    with (String "+" (_format_range_unified gj gj')).
  rewrite !hunk_start_range by reflexivity. reflexivity.
Qed.

(** *** Groups *)

Section Groups.

Variables a b : list string.

Lemma length_slice {A : Type} (l : list A) (i1 i2 : nat) :
  i2 <= List.length l -> List.length (slice l i1 i2) = i2 - i1.
Proof.
  intros H. unfold slice. rewrite length_firstn, length_skipn. lia.
Qed.

Lemma slice_empty {A : Type} (l : list A) (i : nat) : slice l i i = [].
Proof. unfold slice. now rewrite Nat.sub_diag. Qed.

(** What an opcode of a group contributes, whatever its tag. *)
Lemma opcode_lines_uniform (tag : Tag) (i1 i2 j1 j2 : nat) :
  op_ok a b (tag, i1, i2, j1, j2) -> thin (tag, i1, i2, j1, j2) ->
  opcode_lines a b (tag, i1, i2, j1, j2)
  = map (fun line => ("-" ++ line)%string) (slice a i1 i2)
    ++ map (fun line => ("+" ++ line)%string) (slice b j1 j2)
  /\ deleted_of (tag, i1, i2, j1, j2) = seq (i1 + 1) (i2 - i1)
  /\ added_of (tag, i1, i2, j1, j2) = seq (j1 + 1) (j2 - j1)
  /\ added_lines_of b (tag, i1, i2, j1, j2) = map reported (slice b j1 j2).
Proof.
  intros Hok Hthin. cbn in Hok, Hthin. destruct tag.
  - cbn. tauto.
  - destruct Hok as [_ [_ <-]]. cbn.
    rewrite slice_empty, Nat.sub_diag. cbn. tauto.
  - destruct Hok as [_ [_ <-]]. cbn.
    rewrite slice_empty, Nat.sub_diag. cbn. tauto.
  - destruct (Hthin eq_refl) as [<- <-]. cbn.
    rewrite !slice_empty, !Nat.sub_diag. cbn. tauto.
Qed.

Lemma scan_group_ops (ops : list Opcode) :
  forall i j ie je st c1 c2,
    path a b i j ops ie je -> Forall thin ops ->
    ie <= List.length a -> je <= List.length b ->
    file1_index st = Some c1 -> file2_index st = Some c2 ->
    (i < ie -> c1 = i + 1) -> (j < je -> c2 = j + 1) ->
    exists st',
      scan st (flat_map (opcode_lines a b) ops) = Ok st'
      /\ new_lines st' = new_lines st ++ flat_map (added_lines_of b) ops
      /\ new_line_nums st' = new_line_nums st ++ flat_map added_of ops
      /\ deleted_line_nums st'
         = deleted_line_nums st ++ flat_map deleted_of ops.
Proof.
  induction ops as [|[[[[tag i1] i2] j1] j2] rest IH];
    intros i j ie je st c1 c2 Hp Hthin Hie Hje H1 H2 Hc1 Hc2.
  - exists st. cbn. now rewrite !app_nil_r.
  - cbn [path] in Hp. destruct Hp as [-> [-> [Hok Hp]]].
    inversion Hthin as [|? ? Ht Hthin']; subst.
    destruct (path_bounds a b _ _ _ _ _ Hp) as [Hb1 Hb2].
    assert (Hle : i <= i2 /\ j <= j2) by (cbn in Hok; lia).
    destruct (opcode_lines_uniform tag i i2 j j2 Hok Ht)
      as [EL [ED [EA EN]]].
    cbn [flat_map]. rewrite EL, ED, EA, EN. clear EL ED EA EN.
    rewrite !scan_app.
    rewrite (scan_minus_lines _ st c1 H1). cbn [bind].
    rewrite (scan_plus_lines _ _ c2) by exact H2. cbn [bind].
    rewrite !length_slice by lia.
    match goal with
    | |- exists st', scan ?s _ = _ /\ _ => set (st2 := s)
    end.
    destruct (IH i2 j2 ie je st2 (c1 + (i2 - i)) (c2 + (j2 - j)) Hp Hthin'
                Hie Hje eq_refl eq_refl ltac:(lia) ltac:(lia))
      as [st' [S1 [S2 [S3 S4]]]].
    exists st'. split; [exact S1|].
    rewrite S2, S3, S4. unfold st2, scanned.
    cbn [new_lines new_line_nums deleted_line_nums].
    rewrite !app_nil_r, <- !app_assoc.
    assert (Hd : seq c1 (i2 - i) = seq (i + 1) (i2 - i)).
    { destruct (Nat.eq_dec i2 i) as [->|Hne].
      - now rewrite Nat.sub_diag.
      - rewrite Hc1 by lia. reflexivity. }
    assert (Ha : seq c2 (j2 - j) = seq (j + 1) (j2 - j)).
    { destruct (Nat.eq_dec j2 j) as [->|Hne].
      - now rewrite Nat.sub_diag.
      - rewrite Hc2 by lia. reflexivity. }
    rewrite Hd, Ha. repeat split; reflexivity.
Qed.

Lemma path_last (g : list Opcode) :
  forall i j ie je d,
    path a b i j g ie je -> g <> [] ->
    exists t i1 j1, last g d = (t, i1, ie, j1, je).
Proof.
  induction g as [|[[[[tag i1] i2] j1] j2] rest IH];
    intros i j ie je d Hp Hne; [contradiction|].
  cbn [path] in Hp. destruct Hp as [-> [-> [Hok Hp]]].
  destruct rest as [|c rest'].
  - cbn in Hp. destruct Hp as [-> ->]. now exists tag, i, j.
  - cbn [last]. apply (IH i2 j2 ie je d Hp). discriminate.
Qed.

Lemma group_lines_eq (g : list Opcode) (gi gj gi' gj' : nat) :
  path a b gi gj g gi' gj' -> g <> [] ->
  group_lines a b newline g
  = header_line gi gi' gj gj' :: flat_map (opcode_lines a b) g.
Proof.
  intros Hp Hne.
  destruct (path_last g gi gj gi' gj' (Equal, 0, 0, 0, 0) Hp Hne)
    as [t [i1 [j1 Hlast]]].
  destruct g as [|[[[[tag f1] f2] f3] f4] rest]; [contradiction|].
  unfold group_lines. rewrite Hlast.
  cbn [path] in Hp. destruct Hp as [-> [-> _]]. reflexivity.
Qed.

Lemma scan_group (g : list Opcode) (st : ScanState) :
  good_group a b g ->
  exists st',
    scan st (group_lines a b newline g) = Ok st'
    /\ new_lines st' = new_lines st ++ flat_map (added_lines_of b) g
    /\ new_line_nums st' = new_line_nums st ++ flat_map added_of g
    /\ deleted_line_nums st' = deleted_line_nums st ++ flat_map deleted_of g.
Proof.
  intros [Hne [Hthin [gi [gj [gi' [gj' [Hp [Hi Hj]]]]]]]].
  rewrite (group_lines_eq g gi gj gi' gj' Hp Hne).
  cbn [scan]. rewrite scan_line_header. cbn [bind].
  match goal with
  | |- exists st', scan ?s _ = _ /\ _ => set (st1 := s)
  end.
  destruct (scan_group_ops g gi gj gi' gj' st1
              (announced gi gi') (announced gj gj') Hp Hthin Hi Hj
              eq_refl eq_refl) as [st' [S1 [S2 [S3 S4]]]].
  - intros H. unfold announced.
    replace (gi' - gi =? 0) with false by (symmetry; apply Nat.eqb_neq; lia).
    reflexivity.
  - intros H. unfold announced.
    replace (gj' - gj =? 0) with false by (symmetry; apply Nat.eqb_neq; lia).
    reflexivity.
  - exists st'. split; [exact S1|]. rewrite S2, S3, S4. now unfold st1.
Qed.

Lemma scan_groups (groups : list (list Opcode)) :
  Forall (good_group a b) groups ->
  forall st,
  exists st',
    scan st (flat_map (group_lines a b newline) groups) = Ok st'
    /\ new_lines st'
       = new_lines st ++ flat_map (added_lines_of b) (List.concat groups)
    /\ new_line_nums st'
       = new_line_nums st ++ flat_map added_of (List.concat groups)
    /\ deleted_line_nums st'
       = deleted_line_nums st ++ flat_map deleted_of (List.concat groups).
Proof.
  induction 1 as [|g groups Hg _ IH]; intros st.
  - exists st. cbn. now rewrite !app_nil_r.
  - cbn [flat_map List.concat]. rewrite scan_app.
    destruct (scan_group g st Hg) as [st1 [S1 [S2 [S3 S4]]]].
    rewrite S1. cbn [bind].
    destruct (IH st1) as [st' [T1 [T2 [T3 T4]]]].
    exists st'. split; [exact T1|].
    rewrite T2, T3, T4, S2, S3, S4, !flat_map_app, <- !app_assoc.
    repeat split; reflexivity.
Qed.

(** The function on two lists of lines, in closed form. *)
Lemma find_new_and_deleted_eq :
  exists codes,
    get_opcodes a b = Some codes
    /\ path a b 0 0 codes (List.length a) (List.length b)
    /\ find_new_and_deleted a b
       = Ok (flat_map (added_lines_of b) codes,
             flat_map added_of codes,
             flat_map deleted_of codes).
Proof.
  destruct (get_grouped_opcodes_0 a b)
    as [codes [groups [Hc [Hp [Hg [Hgood Hflat]]]]]].
  exists codes. split; [assumption|]. split; [assumption|].
  unfold find_new_and_deleted, unified_diff. rewrite Hg.
  assert (Hdrop : Py.drop 2
            (match groups with
             | [] => []
             | _ :: _ => ("--- " ++ newline)%string
                         :: ("+++ " ++ newline)%string
                         :: flat_map (group_lines a b newline) groups
             end) = flat_map (group_lines a b newline) groups).
  { destruct groups; reflexivity. }
  rewrite Hdrop.
  destruct (scan_groups groups Hgood scan_start) as [st' [S1 [S2 [S3 S4]]]].
  rewrite S1. cbn [bind]. rewrite S2, S3, S4. cbn [scan_start new_lines
    new_line_nums deleted_line_nums app].
  rewrite !Hflat; try reflexivity.
  all: intros; reflexivity.
Qed.

End Groups.

End ScanFacts.

(** ** The reported line numbers are positions in the two files *)

Module PositionFacts.

Import Py Difflib MatcherSpec OpcodeSpec Diff DiffSpec.
Import MatcherFacts BlocksFacts GroupFacts ScanFacts.

(** *** Removing positions from a list *)

Section Keep.

Variable A : Type.

Lemma keep_from_app (ps : list nat) (l1 l2 : list A) :
  forall p, keep_from p ps (l1 ++ l2)
            = keep_from p ps l1 ++ keep_from (p + List.length l1) ps l2.
Proof.
  induction l1 as [|x l1 IH]; intros p.
  - cbn. now rewrite Nat.add_0_r.
  - cbn [app keep_from List.length]. rewrite IH.
    replace (S p + List.length l1) with (p + S (List.length l1)) by lia.
    now destruct (existsb (Nat.eqb p) ps).
Qed.

Lemma existsb_eqb_In (p : nat) (ps : list nat) :
  existsb (Nat.eqb p) ps = true <-> In p ps.
Proof.
  rewrite existsb_exists. split.
  - intros [x [Hx He]]. apply Nat.eqb_eq in He. now subst.
  - intros H. exists p. split; [assumption | apply Nat.eqb_refl].
Qed.

Lemma keep_from_ext (ps ps' : list nat) (l : list A) :
  forall p, (forall q, p <= q -> (In q ps <-> In q ps')) ->
            keep_from p ps l = keep_from p ps' l.
Proof.
  induction l as [|x l IH]; intros p H; [reflexivity|].
  cbn [keep_from]. rewrite (IH (S p)) by (intros q Hq; apply H; lia).
  assert (E : existsb (Nat.eqb p) ps = existsb (Nat.eqb p) ps').
  { apply eq_true_iff_eq. rewrite !existsb_eqb_In. apply H. lia. }
  now rewrite E.
Qed.

Lemma keep_from_all (ps : list nat) (l : list A) :
  forall p, (forall q, p <= q < p + List.length l -> ~ In q ps) ->
            keep_from p ps l = l.
Proof.
  induction l as [|x l IH]; intros p H; [reflexivity|].
  cbn [keep_from].
  destruct (existsb (Nat.eqb p) ps) eqn:E.
  - apply existsb_eqb_In in E. exfalso. apply (H p); [cbn; lia | assumption].
  - f_equal. apply IH. intros q Hq. apply H. cbn. lia.
Qed.

Lemma keep_from_none (ps : list nat) (l : list A) :
  forall p, (forall q, p <= q < p + List.length l -> In q ps) ->
            keep_from p ps l = [].
Proof.
  induction l as [|x l IH]; intros p H; [reflexivity|].
  cbn [keep_from].
  assert (E : existsb (Nat.eqb p) ps = true).
  { apply existsb_eqb_In. apply H. cbn. lia. }
  rewrite E. apply IH. intros q Hq. apply H. cbn. lia.
Qed.

Lemma skipn_slice (l : list A) (i i2 : nat) :
  i <= i2 -> skipn i l = slice l i i2 ++ skipn i2 l.
Proof.
  intros H. unfold slice.
  rewrite <- (firstn_skipn (i2 - i) (skipn i l)) at 1.
  rewrite skipn_skipn. now replace (i2 - i + i) with i2 by lia.
Qed.

Variable l : list A.

(** The removed positions of a run of segments ascend and lie inside
    it. *)
Lemma removed_sorted (segs : list Segment) :
  forall i ie,
    contig i segs ie ->
    StronglySorted lt (flat_map removed_of segs)
    /\ Forall (fun p => i < p <= ie) (flat_map removed_of segs)
    /\ i <= ie.
Proof.
  induction segs as [|[[s e] r] rest IH]; intros i ie H.
  - cbn in *. subst. repeat split; constructor.
  - cbn [contig] in H. destruct H as [-> [Hle Hc]].
    destruct (IH _ _ Hc) as [Hs [Hf Hb]].
    cbn [flat_map]. split; [|split]; [| |lia].
    + assert (Hseq : forall n p0, (forall q, In q (flat_map removed_of rest)
                                             -> p0 + n <= q) ->
                StronglySorted lt (seq p0 n ++ flat_map removed_of rest)).
      { induction n as [|n IHn]; intros p0 Hq; [exact Hs|].
        cbn [seq app]. constructor.
        - apply IHn. intros q Hin. specialize (Hq q Hin). lia.
        - apply Forall_forall. intros q Hin. apply in_app_iff in Hin.
          destruct Hin as [Hin|Hin].
          + apply in_seq in Hin. lia.
          + specialize (Hq q Hin). lia. }
      unfold removed_of. destruct r; [|exact Hs].
      apply Hseq. intros q Hin. rewrite Forall_forall in Hf.
      specialize (Hf q Hin). cbn beta in Hf. lia.
    + apply Forall_app. split.
      * unfold removed_of. destruct r; [|constructor].
        apply Forall_forall. intros q Hin. apply in_seq in Hin. lia.
      * eapply Forall_impl; [|exact Hf]. intros q Hq. cbn beta in Hq. lia.
Qed.

Lemma keep_removed (segs : list Segment) :
  forall i,
    contig i segs (List.length l) ->
    keep_from (i + 1) (flat_map removed_of segs) (skipn i l)
    = flat_map (kept_of l) segs.
Proof.
  induction segs as [|[[s e] r] rest IH]; intros i H.
  - cbn in H. subst i. now rewrite skipn_all.
  - cbn [contig] in H. destruct H as [-> [Hle Hc]].
    destruct (removed_sorted rest e _ Hc) as [_ [Hf Hb]].
    rewrite Forall_forall in Hf.
    rewrite (skipn_slice l i e Hle), keep_from_app.
    rewrite length_slice by assumption.
    replace (i + 1 + (e - i)) with (e + 1) by lia.
    cbn [flat_map]. f_equal.
    + unfold removed_of, kept_of. destruct r.
      * apply keep_from_none. rewrite length_slice by assumption.
        intros q Hq. apply in_app_iff. left. apply in_seq. lia.
      * apply keep_from_all. rewrite length_slice by assumption.
        intros q Hq Hin. cbn [app] in Hin. specialize (Hf q Hin).
        cbn beta in Hf. lia.
    + rewrite <- (IH e Hc). apply keep_from_ext.
      intros q Hq. rewrite in_app_iff. split; [|tauto].
      intros [Hin|Hin]; [|assumption].
      unfold removed_of in Hin. destruct r; [|contradiction].
      apply in_seq in Hin. lia.
Qed.

End Keep.

(** *** The opcodes seen from each file *)

Section Opcodes.

Variables a b : list string.

Lemma flat_map_map' {X Y Z : Type} (f : Y -> list Z) (g : X -> Y)
  (l : list X) :
  flat_map f (map g l) = flat_map (fun x => f (g x)) l.
Proof. induction l as [|x l IH]; [reflexivity | cbn; now rewrite IH]. Qed.

Lemma path_contig (codes : list Opcode) :
  forall i j ie je,
    path a b i j codes ie je ->
    contig i (map seg_a codes) ie /\ contig j (map seg_b codes) je.
Proof.
  induction codes as [|[[[[tag i1] i2] j1] j2] rest IH]; intros i j ie je H.
  - cbn in *. tauto.
  - cbn [path] in H. destruct H as [-> [-> [Hok Hp]]].
    destruct (IH _ _ _ _ Hp) as [H1 H2]. cbn in Hok.
    cbn [map seg_a seg_b contig]. repeat split; try assumption; lia.
Qed.

Lemma removed_seg_a (codes : list Opcode) :
  flat_map removed_of (map seg_a codes) = flat_map deleted_of codes.
Proof.
  rewrite flat_map_map'. apply flat_map_ext.
  intros [[[[[] i1] i2] j1] j2]; reflexivity.
Qed.

Lemma removed_seg_b (codes : list Opcode) :
  flat_map removed_of (map seg_b codes) = flat_map added_of codes.
Proof.
  rewrite flat_map_map'. apply flat_map_ext.
  intros [[[[[] i1] i2] j1] j2]; reflexivity.
Qed.

Lemma same_run_map (n : nat) :
  forall i j, same_run a b i j n ->
              map (item a) (seq i n) = map (item b) (seq j n).
Proof.
  induction n as [|n IH]; intros i j H; [reflexivity|].
  cbn [seq map]. f_equal.
  - specialize (H 0 ltac:(lia)). now rewrite !Nat.add_0_r in H.
  - apply IH. intros t Ht. specialize (H (S t) ltac:(lia)).
    now rewrite <- !Nat.add_succ_comm in H.
Qed.

Lemma slice_items (l : list string) (i1 i2 : nat) :
  i2 <= List.length l ->
  slice l i1 i2 = map (item l) (seq i1 (i2 - i1)).
Proof.
  intros H. apply nth_ext with (d := "") (d' := item l 0).
  - rewrite length_slice, length_map, length_seq by assumption. reflexivity.
  - intros n Hn. rewrite length_slice in Hn by assumption.
    rewrite (map_nth (item l)), seq_nth by assumption.
    unfold slice, item. rewrite nth_firstn, nth_skipn.
    apply Nat.ltb_lt in Hn. now rewrite Hn.
Qed.

Lemma kept_segs (codes : list Opcode) :
  forall i j ie je,
    path a b i j codes ie je ->
    ie <= List.length a -> je <= List.length b ->
    flat_map (kept_of a) (map seg_a codes)
    = flat_map (kept_of b) (map seg_b codes).
Proof.
  induction codes as [|[[[[tag i1] i2] j1] j2] rest IH];
    intros i j ie je H Hie Hje; [reflexivity|].
  cbn [path] in H. destruct H as [-> [-> [Hok Hp]]].
  destruct (path_bounds a b _ _ _ _ _ Hp) as [Hb1 Hb2].
  cbn [map flat_map]. rewrite (IH _ _ _ _ Hp Hie Hje). f_equal.
  cbn in Hok. destruct tag; cbn [seg_a seg_b kept_of].
  - reflexivity.
  - destruct Hok as [_ [_ <-]]. now rewrite slice_empty.
  - destruct Hok as [_ [_ <-]]. now rewrite slice_empty.
  - destruct Hok as [_ [_ [Hlen Hrun]]].
    rewrite !slice_items by lia. rewrite <- Hlen. now apply same_run_map.
Qed.

Lemma added_lines_at (codes : list Opcode) :
  forall i j ie je,
    path a b i j codes ie je -> je <= List.length b ->
    flat_map (added_lines_of b) codes
    = map (fun p => reported (line_at b p)) (flat_map added_of codes).
Proof.
  induction codes as [|[[[[tag i1] i2] j1] j2] rest IH];
    intros i j ie je H Hje; [reflexivity|].
  cbn [path] in H. destruct H as [-> [-> [Hok Hp]]].
  destruct (path_bounds a b _ _ _ _ _ Hp) as [Hb1 Hb2].
  cbn [flat_map]. rewrite map_app, (IH _ _ _ _ Hp Hje). f_equal.
  assert (Hs : map reported (slice b j j2)
               = map (fun p => reported (line_at b p)) (seq (j + 1) (j2 - j))).
  { rewrite slice_items by lia. rewrite map_map.
    replace (j + 1) with (S j) by lia. rewrite <- seq_shift, map_map.
    apply map_ext. intros k. unfold line_at, item.
    now replace (S k - 1) with k by lia. }
  destruct tag; cbn [added_lines_of added_of map]; try reflexivity; exact Hs.
Qed.

(** The diff engine on two lists of lines: the three sequences it
    returns and what they are. *)
Lemma find_new_and_deleted_positions :
  exists addedLines addedLineNumbers deletedLineNumbers,
    find_new_and_deleted a b
    = Ok (addedLines, addedLineNumbers, deletedLineNumbers)
    /\ addedLines
       = map (fun p => reported (line_at b p)) addedLineNumbers
    /\ Forall (fun p => 1 <= p <= List.length b) addedLineNumbers
    /\ StronglySorted lt addedLineNumbers
    /\ Forall (fun p => 1 <= p <= List.length a) deletedLineNumbers
    /\ StronglySorted lt deletedLineNumbers
    /\ remove_positions deletedLineNumbers a
       = remove_positions addedLineNumbers b.
Proof.
  destruct (find_new_and_deleted_eq a b) as [codes [_ [Hp Heq]]].
  destruct (path_contig codes _ _ _ _ Hp) as [Ca Cb].
  destruct (removed_sorted (map seg_a codes) _ _ Ca) as [Sa [Fa _]].
  destruct (removed_sorted (map seg_b codes) _ _ Cb) as [Sb [Fb _]].
  pose proof (keep_removed string a (map seg_a codes) 0 Ca) as Ka.
  pose proof (keep_removed string b (map seg_b codes) 0 Cb) as Kb.
  rewrite removed_seg_a in *. rewrite removed_seg_b in *.
  do 3 eexists. split; [exact Heq|].
  split; [now apply (added_lines_at codes 0 0 (List.length a) (List.length b))|].
  split; [eapply Forall_impl; [|exact Fb]; cbn beta; intros; lia|].
  split; [exact Sb|].
  split; [eapply Forall_impl; [|exact Fa]; cbn beta; intros; lia|].
  split; [exact Sa|].
  unfold remove_positions. cbn [Nat.add skipn] in Ka, Kb.
  rewrite Ka, Kb.
  now apply (kept_segs codes 0 0 (List.length a) (List.length b)).
Qed.

End Opcodes.

End PositionFacts.

(** ** The diff engine: settled claims *)

Module DiffClaims.

Import Py Difflib OpcodeSpec Diff DiffSpec Examples.
Import ScanFacts PositionFacts.

(** C1, at the scenario's input. The old file holds the lines "1 2 3"
    and "4 5 6", the new file the same and "7 8 9", every line ended by a
    line feed. [_findNewLinesAndDeletedIndices] returns the line numbers
    the scenario gives, [3] and none deleted, but the added line comes
    back as "7 8 " (the slice [line[1:-2]] cuts the line feed and the
    character before it), and the relation builder then makes a linkage of
    two members, 7 and 8. *)
Theorem scenario_added_line_is_cut :
  _findNewLinesAndDeletedIndices scenario_fs "stage1.txt" "stage2.txt"
  = Ok (["7 8 "], [3], [])
  /\ Builder._makeNewLinkageDataFrames ["7 8 "] "trackletId" 1%Z 1%Z
     = Ok ({| Builder.m_columns := ["trackletId"; "diaId"];
              Builder.m_rows := [(1%Z, "7"); (1%Z, "8")] |},
           {| Builder.s_columns := ["trackletId"; "numMembers"; "createdBy";
                                    "deletedBy"];
              Builder.s_rows :=
                [{| Builder.linkageId := 1%Z; Builder.numMembers := 2%Z;
                    Builder.createdBy := 1%Z; Builder.deletedBy := 0%Z |}] |}).
Proof. split; vm_compute; reflexivity. Qed.

(** C3, at an input of its kind. The new file is the old one with the
    lines "7 8 9" and "10 11 12" appended: nothing is reported deleted and
    the added line numbers are 2 and 3, but the added lines come back as
    "7 8 " and "10 11 1", not as the appended lines. The other way round,
    the same two lines removed, nothing is reported added and the deleted
    line numbers are 2 and 3. *)
Theorem appended_lines_are_cut :
  _findNewLinesAndDeletedIndices append_fs "short.txt" "long.txt"
  = Ok (["7 8 "; "10 11 1"], [2; 3], [])
  /\ _findNewLinesAndDeletedIndices append_fs "long.txt" "short.txt"
     = Ok ([], [], [2; 3]).
Proof. split; vm_compute; reflexivity. Qed.



End DiffClaims.

(** ** The matcher on two sequences of which one begins the other *)

Module PrefixFacts.

Import Difflib MatcherSpec OpcodeSpec RunSpec Diff.
Import MatcherFacts ScanFacts.

Section Facts.

Variables a b : list string.

Lemma In_indices_from_iff (elt : string) (l : list string) :
  forall n j, In j (indices_from n elt l) <->
              n <= j /\ j - n < List.length l /\ nth (j - n) l "" = elt.
Proof.
  induction l as [|x l IH]; intros n j.
  - cbn. split; [contradiction | lia].
  - assert (Hstep : In j (indices_from (S n) elt l) <->
                    n < j /\ j - n < List.length (x :: l)
                    /\ nth (j - n) (x :: l) "" = elt).
    { rewrite IH. cbn [List.length]. split.
      - intros [H1 [H2 H3]]. split; [lia|]. split; [lia|].
        replace (j - n) with (S (j - S n)) by lia. exact H3.
      - intros [H1 [H2 H3]]. split; [lia|]. split; [lia|].
        replace (j - n) with (S (j - S n)) in H3 by lia. exact H3. }
    cbn [indices_from]. destruct (String.eqb x elt) eqn:E.
    + cbn [In]. rewrite Hstep. apply String.eqb_eq in E. split.
      * intros [<-|[H1 H2]]; [|split; [lia | exact H2]].
        rewrite Nat.sub_diag. cbn. split; [lia|]. split; [lia | exact E].
      * intros [H1 H2]. destruct (Nat.eq_dec n j) as [->|Hne]; [now left|].
        right. split; [lia | exact H2].
    + rewrite Hstep. apply String.eqb_neq in E. split.
      * intros [H1 H2]. split; [lia | exact H2].
      * intros [H1 [H2 H3]]. destruct (Nat.eq_dec n j) as [->|Hne].
        -- rewrite Nat.sub_diag in H3. cbn in H3. contradiction.
        -- split; [lia|]. split; assumption.
Qed.

Lemma indices_from_sorted (elt : string) (l : list string) :
  forall n, StronglySorted lt (indices_from n elt l).
Proof.
  induction l as [|x l IH]; intros n; [constructor|].
  cbn [indices_from]. destruct (String.eqb x elt); [|apply IH].
  constructor; [apply IH|]. apply Forall_forall. intros j Hj.
  apply In_indices_from_iff in Hj. lia.
Qed.

Lemma In_b2j_get_iff (i j : nat) :
  In j (b2j_get b (item a i)) <-> listed a b i j = true.
Proof.
  unfold b2j_get, listed. destruct (popular b (item a i)).
  - rewrite andb_false_r. cbn. split; [contradiction | discriminate].
  - rewrite andb_true_r, In_indices_from_iff, Nat.sub_0_r, andb_true_iff.
    rewrite Nat.ltb_lt, String.eqb_eq. unfold item. split.
    + intros [_ [H1 H2]]. split; assumption.
    + intros [H1 H2]. split; [lia|]. split; assumption.
Qed.

Lemma b2j_get_sorted (elt : string) : StronglySorted lt (b2j_get b elt).
Proof.
  unfold b2j_get. destruct (popular b elt); [constructor|].
  apply indices_from_sorted.
Qed.

(** *** The inner loop *)

Lemma inner_loop_j2len (i bhi : nat) (d : j2len_t) (js : list nat) :
  (forall j, In j js -> j < bhi) ->
  forall nd best x,
    fst (inner_loop i 0 bhi d js nd best) x
    = if existsb (Nat.eqb x) js then j2len_get_pred d x + 1 else nd x.
Proof.
  induction js as [|j js IH]; intros Hjs nd best x; [reflexivity|].
  cbn [inner_loop existsb].
  replace (j <? 0) with false by (symmetry; apply Nat.ltb_ge; lia).
  replace (bhi <=? j) with false
    by (symmetry; apply Nat.leb_gt, Hjs; now left).
  destruct best as [[besti bestj] bestsize].
  rewrite IH by (intros j0 H0; apply Hjs; now right).
  unfold j2len_set.
  destruct (existsb (Nat.eqb x) js) eqn:E.
  - now rewrite orb_true_r.
  - rewrite orb_false_r. destruct (x =? j) eqn:Ex; [|reflexivity].
    apply Nat.eqb_eq in Ex. now subst x.
Qed.

Lemma inner_loop_best (i bhi : nat) (d : j2len_t) (js : list nat) :
  StronglySorted lt js ->
  (forall j, In j js -> j < bhi) ->
  forall nd c s,
    (forall j, In j js -> j <> i ->
       j2len_get_pred d j + 1 <= s
       \/ (In i js /\ i < j /\ j2len_get_pred d j <= j2len_get_pred d i)) ->
    exists c' s',
      snd (inner_loop i 0 bhi d js nd (c, c, s)) = (c', c', s')
      /\ s <= s'
      /\ forall j, In j js -> j2len_get_pred d j + 1 <= s'.
Proof.
  induction js as [|j js IH]; intros Hsort Hjs nd c s H.
  - exists c, s. split; [reflexivity|]. split; [lia | contradiction].
  - inversion Hsort as [|? ? Hsort' Hmin]; subst.
    rewrite Forall_forall in Hmin.
    assert (Hjs' : forall j0, In j0 js -> j0 < bhi)
      by (intros j0 H0; apply Hjs; now right).
    cbn [inner_loop].
    replace (j <? 0) with false by (symmetry; apply Nat.ltb_ge; lia).
    replace (bhi <=? j) with false
      by (symmetry; apply Nat.leb_gt, Hjs; now left).
    set (k := j2len_get_pred d j + 1).
    destruct (Nat.eq_dec j i) as [->|Hne].
    + (* the place on the diagonal *)
      destruct (s <? k) eqn:Es.
      * apply Nat.ltb_lt in Es.
        replace (i + 1 - k, i + 1 - k, k) with (i + 1 - k, i + 1 - k, k)
          by reflexivity.
        destruct (IH Hsort' Hjs' (j2len_set nd i k) (i + 1 - k) k)
          as [c' [s' [E [Hle Hall]]]].
        { intros j0 H0 Hn0. left.
          destruct (H j0 (or_intror H0) Hn0) as [Hl|[_ [_ Hr]]];
            unfold k; lia. }
        exists c', s'. split; [exact E|]. split; [lia|].
        intros j0 [<-|H0]; [fold k; lia | now apply Hall].
      * apply Nat.ltb_ge in Es.
        destruct (IH Hsort' Hjs' (j2len_set nd i k) c s)
          as [c' [s' [E [Hle Hall]]]].
        { intros j0 H0 Hn0. left.
          destruct (H j0 (or_intror H0) Hn0) as [Hl|[_ [_ Hr]]];
            unfold k in Es; lia. }
        exists c', s'. split; [exact E|]. split; [lia|].
        intros j0 [<-|H0]; [fold k; lia | now apply Hall].
    + destruct (H j (or_introl eq_refl) Hne) as [Hl|[Hin [Hlt _]]].
      * fold k in Hl.
        replace (s <? k) with false by (symmetry; apply Nat.ltb_ge; lia).
        destruct (IH Hsort' Hjs' (j2len_set nd j k) c s)
          as [c' [s' [E [Hle Hall]]]].
        { intros j0 H0 Hn0.
          destruct (H j0 (or_intror H0) Hn0) as [Hl0|[Hin0 [Hlt0 Hr0]]];
            [now left|].
          right. split; [|split; assumption].
          destruct Hin0 as [->|Hin0]; [contradiction | assumption]. }
        exists c', s'. split; [exact E|]. split; [lia|].
        intros j0 [<-|H0]; [fold k; lia | now apply Hall].
      * exfalso. destruct Hin as [->|Hin]; [contradiction|].
        specialize (Hmin i Hin). lia.
Qed.

(** *** Runs when one sequence begins the other *)

Hypothesis Hpre :
  forall t, t < List.length a -> t < List.length b -> item a t = item b t.

Lemma run_0_r (i : nat) : run a b i 0 = 0.
Proof. destruct i; reflexivity. Qed.

Lemma get_pred_run (i : nat) (d : j2len_t) :
  (forall j, d j = run a b i (S j)) ->
  forall j, j2len_get_pred d j = run a b i j.
Proof.
  intros H j. destruct j as [|j]; [symmetry; apply run_0_r | apply H].
Qed.

Lemma listed_diag (i j : nat) :
  i < List.length a -> listed a b i j = true ->
  (i <= j -> listed a b i i = true)
  /\ (j <= i -> listed a b j j = true).
Proof.
  intros Hi Hl. unfold listed in *.
  rewrite !andb_true_iff in Hl. destruct Hl as [[H1 H2] H3].
  apply Nat.ltb_lt in H1. apply String.eqb_eq in H2. split; intros Hle.
  - rewrite !andb_true_iff. split; [split|].
    + apply Nat.ltb_lt. lia.
    + apply String.eqb_eq. symmetry. apply Hpre; lia.
    + exact H3.
  - assert (Hj : item a j = item b j) by (apply Hpre; lia).
    rewrite !andb_true_iff. split; [split|].
    + now apply Nat.ltb_lt.
    + apply String.eqb_eq. now symmetry.
    + rewrite Hj, H2. exact H3.
Qed.

Lemma run_right (i : nat) :
  forall j, i <= j -> i <= List.length a -> run a b i j <= run a b i i.
Proof.
  induction i as [|i IH]; intros j Hij Hi; [cbn; lia|].
  destruct j as [|j]; [lia|]. cbn [run].
  destruct (listed a b i j) eqn:E; [|lia].
  destruct (listed_diag i j ltac:(lia) E) as [Hd _].
  rewrite Hd by lia. specialize (IH j ltac:(lia) ltac:(lia)). lia.
Qed.

Lemma run_below (j : nat) :
  forall i, j <= i -> i <= List.length a -> run a b i j <= run a b j j.
Proof.
  induction j as [|j IH]; intros i Hji Hi; [rewrite run_0_r; lia|].
  destruct i as [|i]; [lia|]. cbn [run].
  destruct (listed a b i j) eqn:E; [|lia].
  destruct (listed_diag i j ltac:(lia) E) as [_ Hd].
  rewrite Hd by lia. specialize (IH i ltac:(lia) ltac:(lia)). lia.
Qed.

(** *** The outer loop keeps its best match on the diagonal *)

Lemma outer_loop_diag (cnt : nat) :
  forall i0 d c s,
    i0 + cnt <= List.length a ->
    (forall j, d j = run a b i0 (S j)) ->
    (forall i' j, i' <= i0 -> run a b i' j <= s) ->
    exists c' s',
      snd (outer_loop a b 0 (List.length b) (seq i0 cnt) d (c, c, s))
      = (c', c', s').
Proof.
  induction cnt as [|cnt IH]; intros i0 d c s Hlen Hd Hs.
  - exists c, s. reflexivity.
  - cbn [seq outer_loop].
    set (js := b2j_get b (item a i0)).
    assert (Hjs : forall j, In j js -> j < List.length b).
    { intros j Hj. apply In_b2j_get_iff in Hj. unfold listed in Hj.
      rewrite !andb_true_iff in Hj. destruct Hj as [[Hj _] _].
      now apply Nat.ltb_lt. }
    pose proof (get_pred_run i0 d Hd) as Hg.
    pose proof (inner_loop_j2len i0 (List.length b) d js Hjs j2len_empty
                  (c, c, s)) as Hfst.
    destruct (inner_loop_best i0 (List.length b) d js (b2j_get_sorted _) Hjs
                j2len_empty c s) as [c' [s' [Hsnd [Hle Hall]]]].
    { intros j Hj Hne. rewrite !Hg.
      pose proof Hj as Hl. apply In_b2j_get_iff in Hl.
      destruct (listed_diag i0 j ltac:(lia) Hl) as [Hd1 Hd2].
      destruct (Nat.lt_ge_cases j i0) as [Hlt|Hge].
      - left.
        assert (E : run a b (S i0) (S j) = S (run a b i0 j))
          by (cbn [run]; now rewrite Hl).
        pose proof (run_below (S j) (S i0) ltac:(lia) ltac:(lia)).
        pose proof (Hs (S j) (S j) ltac:(lia)). lia.
      - right. split; [|split].
        + apply In_b2j_get_iff. apply Hd1. lia.
        + lia.
        + apply run_right; lia. }
    destruct (inner_loop i0 0 (List.length b) d js j2len_empty (c, c, s))
      as [nd best'].
    cbn [fst snd] in Hfst, Hsnd. subst best'.
    apply IH.
    + lia.
    + intros j. rewrite Hfst. unfold j2len_empty. cbn [run].
      destruct (listed a b i0 j) eqn:E.
      * apply In_b2j_get_iff in E. fold js in E.
        assert (Hex : existsb (Nat.eqb j) js = true).
        { apply existsb_exists. exists j. split; [exact E|].
          apply Nat.eqb_refl. }
        rewrite Hex, Hg. lia.
      * destruct (existsb (Nat.eqb j) js) eqn:Hex; [|reflexivity].
        apply existsb_exists in Hex. destruct Hex as [x [Hx Hxe]].
        apply Nat.eqb_eq in Hxe. subst x.
        apply In_b2j_get_iff in Hx. congruence.
    + intros i' j Hi'. destruct (Nat.eq_dec i' (S i0)) as [->|Hne].
      * destruct j as [|j]; [cbn; lia|]. cbn [run].
        destruct (listed a b i0 j) eqn:E; [|lia].
        apply In_b2j_get_iff in E. specialize (Hall j E).
        rewrite Hg in Hall. lia.
      * specialize (Hs i' j ltac:(lia)). lia.
Qed.

(** *** The extensions *)

Lemma extend_left_diag (c : nat) :
  forall s,
    c + s <= List.length a -> c + s <= List.length b ->
    extend_left a b false 0 0 c c s = (0, 0, c + s).
Proof.
  induction c as [|c IH]; intros s Ha Hb; [reflexivity|].
  cbn [extend_left]. unfold isbjunk.
  rewrite (Hpre c) by lia. rewrite String.eqb_refl. cbn [Nat.ltb Nat.leb andb Bool.eqb].
  rewrite IH by lia. f_equal. lia.
Qed.

Lemma extend_right_diag (steps : nat) :
  forall s,
    s <= Nat.min (List.length a) (List.length b) ->
    Nat.min (List.length a) (List.length b) - s <= steps ->
    extend_right a b false steps (List.length a) (List.length b) 0 0 s
    = Nat.min (List.length a) (List.length b).
Proof.
  induction steps as [|steps IH]; intros s H1 H2; [cbn; lia|].
  cbn [extend_right Nat.add]. unfold isbjunk.
  destruct (Nat.eq_dec s (Nat.min (List.length a) (List.length b)))
    as [E|E].
  - replace ((s <? List.length a) && (s <? List.length b)) with false.
    + cbn. exact E.
    + symmetry. apply andb_false_iff.
      destruct (Nat.le_ge_cases (List.length a) (List.length b)).
      * left. apply Nat.ltb_ge. lia.
      * right. apply Nat.ltb_ge. lia.
  - replace (s <? List.length a) with true
      by (symmetry; apply Nat.ltb_lt; lia).
    replace (s <? List.length b) with true
      by (symmetry; apply Nat.ltb_lt; lia).
    rewrite (Hpre s) by lia. rewrite String.eqb_refl. cbn [andb Bool.eqb].
    apply IH; lia.
Qed.

Lemma extend_right_junk (steps ahi bhi i j s : nat) :
  extend_right a b true steps ahi bhi i j s = s.
Proof.
  destruct steps as [|steps]; [reflexivity|].
  cbn [extend_right]. unfold isbjunk. cbn [Bool.eqb].
  now rewrite andb_false_r.
Qed.

Lemma find_longest_match_prefix :
  find_longest_match a b 0 (List.length a) 0 (List.length b)
  = (0, 0, Nat.min (List.length a) (List.length b)).
Proof.
  unfold find_longest_match. rewrite Nat.sub_0_r.
  assert (Ha0 : 0 <= List.length a) by lia.
  assert (Hb0 : 0 <= List.length b) by lia.
  pose proof (outer_loop_ok a b 0 (List.length a) 0 (List.length b) Ha0 Hb0
                (List.length a) 0 j2len_empty (0, 0, 0)
                (Nat.le_refl _) ltac:(lia)
                (j2len_ok_empty a b 0 (List.length a) 0 (List.length b)
                   Ha0 Hb0 0)
                (valid_start a b 0 (List.length a) 0 (List.length b) Ha0 Hb0))
    as Hv.
  destruct (outer_loop_diag (List.length a) 0 j2len_empty 0 0 ltac:(lia))
    as [c [s Hd]].
  { intros j. reflexivity. }
  { intros i' j Hi'. replace i' with 0 by lia. cbn. lia. }
  destruct (outer_loop a b 0 (List.length b) (seq 0 (List.length a))
              j2len_empty (0, 0, 0)) as [d best].
  cbn [snd] in Hv, Hd. subst best.
  cbn in Hv. destruct Hv as [_ [V1 [_ [V2 _]]]].
  rewrite extend_left_diag by assumption.
  rewrite extend_right_diag by lia.
  cbn [extend_left]. now rewrite extend_right_junk.
Qed.

(** *** Blocks and opcodes *)

Lemma matching_loop_done (fuel : nat) (blocks : list Match) :
  matching_loop a b fuel [] blocks = Some blocks.
Proof. destruct fuel; reflexivity. Qed.

Lemma get_opcodes_prefix :
  get_opcodes a b
  = Some (prefix_opcodes (List.length a) (List.length b)).
Proof.
  unfold get_opcodes, get_matching_blocks, matching_fuel.
  replace (2 * List.length a + 2) with (S (2 * List.length a + 1)) by lia.
  cbn [matching_loop]. rewrite find_longest_match_prefix.
  unfold prefix_opcodes.
  set (la := List.length a). set (lb := List.length b).
  set (m := Nat.min la lb).
  assert (Hm : m <= la /\ m <= lb /\ (m = la \/ m = lb)) by (unfold m; lia).
  assert (Hf : (m <? la) && (m <? lb) = false).
  { apply andb_false_iff.
    destruct Hm as [_ [_ [->| ->]]]; [left|right]; apply Nat.ltb_irrefl. }
  cbv beta iota. rewrite Nat.ltb_irrefl. cbn [andb Nat.add]. rewrite Hf.
  destruct (m =? 0) eqn:Em; rewrite matching_loop_done.
  - cbn [matching_loop sort_matches fold_right collapse_loop Nat.eqb app
         opcodes_loop].
    apply Nat.eqb_eq in Em. rewrite Em in *. cbn [Nat.add andb].
    assert (H0 : (0 <? la) && (0 <? lb) = false) by exact Hf.
    rewrite H0. cbn [Nat.eqb app].
    destruct (0 <? la); [reflexivity|]. destruct (0 <? lb); reflexivity.
  - cbn [matching_loop sort_matches fold_right insert_match collapse_loop
         Nat.add Nat.eqb andb app].
    rewrite Em.
    cbn [app opcodes_loop Nat.add]. rewrite Nat.ltb_irrefl. cbn [andb].
    rewrite Em, Hf. cbn [Nat.eqb app].
    destruct (m <? la); [reflexivity|]. destruct (m <? lb); reflexivity.
Qed.

(** The diff engine on the lines of two such files. *)
Lemma find_new_and_deleted_prefix :
  find_new_and_deleted a b
  = Ok (map reported (skipn (List.length a) b),
        seq (List.length a + 1) (List.length b - List.length a),
        seq (List.length b + 1) (List.length a - List.length b)).
Proof.
  destruct (find_new_and_deleted_eq a b) as [codes [Hc [_ ->]]].
  rewrite get_opcodes_prefix in Hc. inversion Hc; subst codes; clear Hc.
  unfold prefix_opcodes.
  set (la := List.length a). set (lb := List.length b).
  set (m := Nat.min la lb).
  assert (Hsk : forall n, lb <= n -> skipn n b = []).
  { intros n Hn. apply skipn_all2. exact Hn. }
  rewrite !flat_map_app.
  assert (He : forall (X : Type) (f : Opcode -> list X),
             (forall i1 i2 j1 j2, f (Equal, i1, i2, j1, j2) = []) ->
             flat_map f (if m =? 0 then [] else [(Equal, 0, m, 0, m)]) = []).
  { intros X f Hf. destruct (m =? 0); [reflexivity|]. cbn. now rewrite Hf. }
  rewrite !He by reflexivity. cbn [app].
  destruct (m <? la) eqn:E1.
  - apply Nat.ltb_lt in E1. assert (Hm : m = lb) by (unfold m in *; lia).
    cbn. rewrite Hm, Hsk by lia.
    replace (lb - la) with 0 by lia. now rewrite ?app_nil_r.
  - apply Nat.ltb_ge in E1. assert (Hm : m = la) by (unfold m in *; lia).
    destruct (m <? lb) eqn:E2.
    + apply Nat.ltb_lt in E2. cbn. rewrite Hm.
      replace (la - lb) with 0 by lia. cbn. rewrite ?app_nil_r. do 2 f_equal.
      unfold slice. rewrite firstn_all2; [reflexivity|].
      rewrite length_skipn. fold lb. lia.
    + apply Nat.ltb_ge in E2. cbn.
      assert (la = lb) by lia.
      rewrite Hsk by lia. replace (lb - la) with 0 by lia.
      replace (la - lb) with 0 by lia. now rewrite ?app_nil_r.
Qed.

End Facts.

End PrefixFacts.

(** ** The diff engine: further properties *)

Module DiffProps.

Import Py Difflib MatcherSpec OpcodeSpec Diff DiffSpec Examples MoreExamples.
Import MatcherFacts ScanFacts PositionFacts PrefixFacts.

(** *** Helper lemmas *)

Lemma item_app_l (l1 l2 : list string) (t : nat) :
  t < List.length l1 -> item l1 t = item (l1 ++ l2) t.
Proof. intros H. unfold item. symmetry. now apply app_nth1. Qed.

Lemma skipn_app_all {A : Type} (l1 l2 : list A) :
  skipn (List.length l1) (l1 ++ l2) = l2.
Proof.
  rewrite skipn_app, Nat.sub_diag, skipn_all2 by lia. reflexivity.
Qed.

Lemma length_keep_from {A : Type} (l : list A) :
  forall p ps,
    StronglySorted lt ps ->
    Forall (fun q => p <= q < p + List.length l) ps ->
    List.length (keep_from p ps l) + List.length ps = List.length l.
Proof.
  induction l as [|x r IH]; intros p ps Hs Hr.
  - destruct ps as [|h t]; [reflexivity|].
    inversion Hr; subst. cbn in *. lia.
  - cbn [keep_from]. destruct ps as [|h t].
    + cbn [existsb List.length].
      pose proof (IH (S p) [] (SSorted_nil _) (Forall_nil _)) as E.
      cbn [List.length] in E. lia.
    + inversion Hs as [|? ? Hs' Hmin]; subst.
      inversion Hr as [|? ? Hh Hr']; subst.
      rewrite Forall_forall in Hmin, Hr'. cbn [List.length] in *.
      destruct (Nat.eq_dec h p) as [->|Hne].
      * cbn [existsb]. rewrite Nat.eqb_refl. cbn [orb].
        rewrite (keep_from_ext A (p :: t) t r (S p)).
        -- assert (E : List.length (keep_from (S p) t r) + List.length t
                       = List.length r).
           { apply IH; [exact Hs'|]. apply Forall_forall. intros q Hq.
             specialize (Hmin q Hq). specialize (Hr' q Hq). lia. }
           lia.
        -- intros q Hq. cbn [In]. split; [|now right].
           intros [->|H]; [lia | exact H].
      * replace (existsb (Nat.eqb p) (h :: t)) with false.
        -- assert (E : List.length (keep_from (S p) (h :: t) r)
                       + List.length (h :: t) = List.length r).
           { apply IH; [exact Hs|]. apply Forall_forall.
             intros q [<-|Hq]; [lia|].
             specialize (Hmin q Hq). specialize (Hr' q Hq). lia. }
           cbn [List.length] in *. lia.
        -- symmetry. apply not_true_is_false. intros E.
           apply existsb_eqb_In in E. destruct E as [->|E]; [lia|].
           specialize (Hmin p E). lia.
Qed.

Lemma substring_0_app (s t : string) :
  substring 0 (String.length s) (s ++ t) = s.
Proof. induction s as [|c s IH]; cbn; [now destruct t | now rewrite IH]. Qed.

Lemma length_app_string (s t : string) :
  String.length (s ++ t) = String.length s + String.length t.
Proof. induction s as [|c s IH]; cbn; [reflexivity | now rewrite IH]. Qed.

Lemma reported_two (text : string) (c d : ascii) :
  reported (text ++ String c (String d EmptyString)) = text.
Proof.
  unfold reported, slice_1_m2. cbn [append String.length substring].
  rewrite length_app_string. cbn [String.length].
  replace (S (String.length text + 2) - 2 - 1) with (String.length text)
    by lia.
  apply substring_0_app.
Qed.

(** *** Sequences with nothing in common *)

Section Apart.

Variables a b : list string.

Hypothesis Hapart : forall x, In x a -> ~ In x b.

Lemma b2j_get_apart (i : nat) :
  i < List.length a -> b2j_get b (item a i) = [].
Proof.
  intros Hi. unfold b2j_get. destruct (popular b (item a i)); [reflexivity|].
  destruct (indices_from 0 (item a i) b) as [|j js] eqn:E; [reflexivity|].
  exfalso. assert (Hj : In j (indices_from 0 (item a i) b))
    by (rewrite E; now left).
  apply In_indices_from_iff in Hj. destruct Hj as [_ [H1 H2]].
  rewrite Nat.sub_0_r in H1, H2.
  apply (Hapart (item a i)).
  - unfold item. now apply nth_In.
  - rewrite <- H2. now apply nth_In.
Qed.

Lemma outer_loop_apart (cnt : nat) :
  forall i0 d best,
    i0 + cnt <= List.length a ->
    snd (outer_loop a b 0 (List.length b) (seq i0 cnt) d best) = best.
Proof.
  induction cnt as [|cnt IH]; intros i0 d best H; [reflexivity|].
  cbn [seq outer_loop]. rewrite b2j_get_apart by lia.
  cbn [inner_loop]. apply IH. lia.
Qed.

Lemma find_longest_match_apart :
  find_longest_match a b 0 (List.length a) 0 (List.length b) = (0, 0, 0).
Proof.
  unfold find_longest_match. rewrite Nat.sub_0_r.
  pose proof (outer_loop_apart (List.length a) 0 j2len_empty (0, 0, 0)
                ltac:(lia)) as H.
  destruct (outer_loop a b 0 (List.length b) (seq 0 (List.length a))
              j2len_empty (0, 0, 0)) as [d best].
  cbn [snd] in H. subst best. cbn [extend_left Nat.add].
  assert (Hr : extend_right a b false (List.length a - 0)
                 (List.length a) (List.length b) 0 0 0 = 0).
  { destruct (List.length a - 0) as [|steps] eqn:Es; [reflexivity|].
    cbn [extend_right Nat.add].
    destruct (0 <? List.length a) eqn:E1; [|reflexivity].
    destruct (0 <? List.length b) eqn:E2; [|reflexivity].
    apply Nat.ltb_lt in E1, E2.
    replace (String.eqb (item a 0) (item b 0)) with false.
    - now rewrite andb_false_r.
    - symmetry. apply String.eqb_neq. intros E.
      apply (Hapart (item a 0)).
      + unfold item. now apply nth_In.
      + rewrite E. unfold item. now apply nth_In. }
  rewrite Hr. cbn [extend_left]. now rewrite extend_right_junk.
Qed.

Lemma get_opcodes_apart :
  get_opcodes a b
  = Some (if (0 <? List.length a) && (0 <? List.length b)
          then [(Replace, 0, List.length a, 0, List.length b)]
          else if 0 <? List.length a
               then [(Delete, 0, List.length a, 0, List.length b)]
               else if 0 <? List.length b
                    then [(Insert, 0, List.length a, 0, List.length b)]
                    else []).
Proof.
  unfold get_opcodes, get_matching_blocks, matching_fuel.
  replace (2 * List.length a + 2) with (S (2 * List.length a + 1)) by lia.
  cbn [matching_loop]. rewrite find_longest_match_apart.
  cbv beta iota. cbn [Nat.eqb]. rewrite matching_loop_done.
  cbn [sort_matches fold_right collapse_loop Nat.eqb app opcodes_loop].
  destruct ((0 <? List.length a) && (0 <? List.length b)); [reflexivity|].
  destruct (0 <? List.length a); [reflexivity|].
  destruct (0 <? List.length b); reflexivity.
Qed.

Lemma find_new_and_deleted_apart :
  find_new_and_deleted a b
  = Ok (map reported b, seq 1 (List.length b), seq 1 (List.length a)).
Proof.
  destruct (find_new_and_deleted_eq a b) as [codes [Hc [_ ->]]].
  rewrite get_opcodes_apart in Hc. inversion Hc; subst codes; clear Hc.
  assert (Hb : slice b 0 (List.length b) = b).
  { unfold slice. rewrite Nat.sub_0_r. cbn [skipn]. apply firstn_all. }
  assert (Hz : forall l : list string,
             (0 <? List.length l) = false -> List.length l = 0).
  { intros l E. apply Nat.ltb_ge in E. lia. }
  destruct (0 <? List.length a) eqn:Ea; destruct (0 <? List.length b) eqn:Eb;
    cbn [andb flat_map added_lines_of added_of deleted_of app Nat.add];
    rewrite ?Nat.sub_0_r, ?Hb, ?app_nil_r;
    try (apply Hz in Ea; rewrite Ea);
    try (apply Hz in Eb; rewrite Eb; apply length_zero_iff_nil in Eb;
         rewrite Eb);
    reflexivity.
Qed.

End Apart.

(** *** Lines added at the end *)

Lemma find_new_and_deleted_append (a suffix : list string) :
  find_new_and_deleted a (a ++ suffix)
  = Ok (map reported suffix,
        seq (List.length a + 1) (List.length suffix), []).
Proof.
  rewrite find_new_and_deleted_prefix.
  - rewrite skipn_app_all, length_app.
    replace (List.length a + List.length suffix - List.length a)
      with (List.length suffix) by lia.
    replace (List.length a - (List.length a + List.length suffix))
      with 0 by lia.
    reflexivity.
  - intros t Ht _. now apply item_app_l.
Qed.

(** *** Files that are not there *)

Lemma open_read_missing (fs : FileSystem) (path : string) :
  ~ In path (map fst fs) -> open_read fs path = Raise (IOError path).
Proof.
  induction fs as [|[p c] fs IH]; intros Hn; [reflexivity|].
  cbn [open_read]. destruct (String.eqb p path) eqn:E.
  - apply String.eqb_eq in E. exfalso. apply Hn. now left.
  - apply IH. intros H. apply Hn. now right.
Qed.

Lemma open_read_present (fs : FileSystem) (path : string) :
  In path (map fst fs) -> exists content, open_read fs path = Ok content.
Proof.
  induction fs as [|[p c] fs IH]; intros Hin; [contradiction|].
  cbn [open_read]. destruct (String.eqb p path) eqn:E.
  - now exists c.
  - apply IH. destruct Hin as [H|H]; [|exact H].
    cbn in H. subst p. now rewrite String.eqb_refl in E.
Qed.

(** *** Properties *)

(** X1. Lines appended. When the new file holds the lines of the old one and
    then some more, [_findNewLinesAndDeletedIndices] reports no deleted line,
    the positions of the appended lines in the new file, and for each appended
    line its text cut by [line[1:-2]]. A new file with the very lines of the
    old one gives three empty results. *)
Theorem append_reports_suffix
  (fs : FileSystem) (file1 file2 old new : string) (suffix : list string) :
  open_read fs file1 = Ok old ->
  open_read fs file2 = Ok new ->
  readlines new = readlines old ++ suffix ->
  _findNewLinesAndDeletedIndices fs file1 file2
  = Ok (map reported suffix,
        seq (List.length (readlines old) + 1) (List.length suffix),
        []).
Proof.
  intros H1 H2 Hn. unfold _findNewLinesAndDeletedIndices.
  rewrite H1, H2. cbn [bind]. rewrite Hn.
  apply find_new_and_deleted_append.
Qed.

Lemma append_reports_suffix_witness :
  _findNewLinesAndDeletedIndices append_fs "short.txt" "long.txt"
  = Ok (map reported [("7 8 9" ++ newline)%string;
                      ("10 11 12" ++ newline)%string],
        seq (List.length (readlines (file_of ["1 2 3"])) + 1) 2,
        []).
Proof.
  apply (append_reports_suffix append_fs "short.txt" "long.txt"
           (file_of ["1 2 3"]) (file_of ["1 2 3"; "7 8 9"; "10 11 12"])
           [("7 8 9" ++ newline)%string; ("10 11 12" ++ newline)%string]);
    reflexivity.
Defined.

(** X2. Lines removed at the end. When the old file holds the lines of the new
    one and then some more, nothing is reported added and the deleted line
    numbers are the positions of those last lines in the old file. *)
Theorem truncation_reports_positions
  (fs : FileSystem) (file1 file2 old new : string) (suffix : list string) :
  open_read fs file1 = Ok old ->
  open_read fs file2 = Ok new ->
  readlines old = readlines new ++ suffix ->
  _findNewLinesAndDeletedIndices fs file1 file2
  = Ok ([], [],
        seq (List.length (readlines new) + 1) (List.length suffix)).
Proof.
  intros H1 H2 Ho. unfold _findNewLinesAndDeletedIndices.
  rewrite H1, H2. cbn [bind]. rewrite Ho.
  rewrite find_new_and_deleted_prefix.
  - rewrite length_app, skipn_all2 by lia.
    replace (List.length (readlines new)
             - (List.length (readlines new) + List.length suffix))
      with 0 by lia.
    replace (List.length (readlines new) + List.length suffix
             - List.length (readlines new)) with (List.length suffix) by lia.
    reflexivity.
  - intros t _ Ht. symmetry. now apply item_app_l.
Qed.

Lemma truncation_reports_positions_witness :
  _findNewLinesAndDeletedIndices append_fs "long.txt" "short.txt"
  = Ok ([], [], seq (List.length (readlines (file_of ["1 2 3"])) + 1) 2).
Proof.
  apply (truncation_reports_positions append_fs "long.txt" "short.txt"
           (file_of ["1 2 3"; "7 8 9"; "10 11 12"]) (file_of ["1 2 3"])
           [("7 8 9" ++ newline)%string; ("10 11 12" ++ newline)%string]);
    reflexivity.
Defined.

(** X3. No change. Two files with the same content, of any length and with any
    repetition of lines, give three empty results. *)
Theorem same_content_reports_nothing
  (fs : FileSystem) (file1 file2 content : string) :
  open_read fs file1 = Ok content ->
  open_read fs file2 = Ok content ->
  _findNewLinesAndDeletedIndices fs file1 file2 = Ok ([], [], []).
Proof.
  intros H1 H2. unfold _findNewLinesAndDeletedIndices.
  rewrite H1, H2. cbn [bind]. rewrite find_new_and_deleted_prefix.
  - rewrite skipn_all2, Nat.sub_diag by lia. reflexivity.
  - intros t _ _. reflexivity.
Qed.

Lemma same_content_reports_nothing_witness :
  _findNewLinesAndDeletedIndices scenario_fs "stage1.txt" "stage1.txt"
  = Ok ([], [], []).
Proof.
  apply (same_content_reports_nothing scenario_fs "stage1.txt" "stage1.txt"
           (file_of ["1 2 3"; "4 5 6"])); reflexivity.
Defined.

(** X4. The counts balance. Whatever the two files hold, the lines of the old
    file plus the lines reported added are as many as the lines of the new
    file plus the lines reported deleted, and there are as many added texts as
    added line numbers. *)
Theorem line_counts_balance
  (fs : FileSystem) (file1 file2 old new : string) :
  open_read fs file1 = Ok old ->
  open_read fs file2 = Ok new ->
  exists addedLines addedLineNumbers deletedLineNumbers,
    _findNewLinesAndDeletedIndices fs file1 file2
    = Ok (addedLines, addedLineNumbers, deletedLineNumbers)
    /\ List.length addedLines = List.length addedLineNumbers
    /\ List.length (readlines old) + List.length addedLineNumbers
       = List.length (readlines new) + List.length deletedLineNumbers.
Proof.
  intros H1 H2. unfold _findNewLinesAndDeletedIndices.
  rewrite H1, H2. cbn [bind].
  destruct (find_new_and_deleted_positions (readlines old) (readlines new))
    as [al [an [dn [E [Hal [Hra [Hsa [Hrd [Hsd Hk]]]]]]]]].
  exists al, an, dn. split; [exact E|]. split.
  - rewrite Hal. apply length_map.
  - pose proof (length_keep_from (readlines old) 1 dn Hsd) as Ld.
    pose proof (length_keep_from (readlines new) 1 an Hsa) as La.
    unfold remove_positions in Hk. rewrite Hk in Ld.
    rewrite <- Ld, <- La.
    + lia.
    + eapply Forall_impl; [|exact Hra]. cbn beta. intros q Hq. lia.
    + eapply Forall_impl; [|exact Hrd]. cbn beta. intros q Hq. lia.
Qed.

Lemma line_counts_balance_witness :
  exists addedLines addedLineNumbers deletedLineNumbers,
    _findNewLinesAndDeletedIndices hunks_fs "before.txt" "after.txt"
    = Ok (addedLines, addedLineNumbers, deletedLineNumbers)
    /\ List.length addedLines = List.length addedLineNumbers
    /\ List.length
         (readlines (file_of ["1 2"; "3 4"; "5 6"; "7 8"; "9 10"; "11 12";
                              "13 14"; "15 16"]))
       + List.length addedLineNumbers
       = List.length
           (readlines (file_of ["1 2"; "30 40"; "5 6"; "7 8"; "11 12";
                                "13 14"; "17 18"; "19 20"; "15 16";
                                "15 16"]))
         + List.length deletedLineNumbers.
Proof.
  apply (line_counts_balance hunks_fs "before.txt" "after.txt"); reflexivity.
Defined.

(** X5. Nothing in common. When no line of the old file occurs in the new one,
    every line of the old file is reported deleted and every line of the new
    file is reported added, each cut by [line[1:-2]]. *)
Theorem nothing_in_common_reports_everything
  (fs : FileSystem) (file1 file2 old new : string) :
  open_read fs file1 = Ok old ->
  open_read fs file2 = Ok new ->
  (forall line, In line (readlines old) -> ~ In line (readlines new)) ->
  _findNewLinesAndDeletedIndices fs file1 file2
  = Ok (map reported (readlines new),
        seq 1 (List.length (readlines new)),
        seq 1 (List.length (readlines old))).
Proof.
  intros H1 H2 Hap. unfold _findNewLinesAndDeletedIndices.
  rewrite H1, H2. cbn [bind]. now apply find_new_and_deleted_apart.
Qed.

Lemma nothing_in_common_reports_everything_witness :
  _findNewLinesAndDeletedIndices rewrite_fs "all_old.txt" "all_new.txt"
  = Ok (map reported (readlines (file_of ["5 6"; "7 8"; "9 10"])),
        seq 1 (List.length (readlines (file_of ["5 6"; "7 8"; "9 10"]))),
        seq 1 (List.length (readlines (file_of ["1 2"; "3 4"])))).
Proof.
  apply (nothing_in_common_reports_everything rewrite_fs
           "all_old.txt" "all_new.txt"
           (file_of ["1 2"; "3 4"]) (file_of ["5 6"; "7 8"; "9 10"]));
    try reflexivity.
  intros line Ho Hn. vm_compute in Ho, Hn.
  destruct Ho as [<-|[<-|[]]]; destruct Hn as [H|[H|[H|[]]]]; discriminate H.
Defined.

(** X6. The cut. The text kept for a line of the diff that adds is the line
    without its last two characters, whatever they are: for a line that ends
    with a line feed, the line feed and the character before it. *)
Theorem added_line_loses_last_two_characters
  (st : ScanState) (text : string) (c d : ascii) (f2 : nat) :
  file2_index st = Some f2 ->
  exists st',
    scan_line st ("+" ++ text ++ String c (String d EmptyString)) = Ok st'
    /\ new_lines st' = new_lines st ++ [text]
    /\ new_line_nums st' = new_line_nums st ++ [f2].
Proof.
  intros Hf. eexists. split; [apply (scan_line_plus st _ f2 Hf)|].
  cbn [new_lines new_line_nums]. now rewrite reported_two.
Qed.

Lemma added_line_loses_last_two_characters_witness :
  exists st',
    scan_line {| new_lines := []; new_line_nums := [];
                 deleted_lines := []; deleted_line_nums := [];
                 file1_index := Some 2; file2_index := Some 3 |}
              ("+" ++ "7 8" ++ String " " (String "9" EmptyString)) = Ok st'
    /\ new_lines st' = [] ++ ["7 8"]
    /\ new_line_nums st' = [] ++ [3].
Proof.
  apply (added_line_loses_last_two_characters
           {| new_lines := []; new_line_nums := [];
              deleted_lines := []; deleted_line_nums := [];
              file1_index := Some 2; file2_index := Some 3 |}
           "7 8" " " "9" 3).
  reflexivity.
Defined.

(** X7. Files that are not there. A first file that cannot be opened makes the
    call raise [IOError] for it, whether the second file is there or not; with
    the first file there, a second file that cannot be opened makes it raise
    [IOError] for the second. *)
Theorem missing_file_raises_IOError
  (fs : FileSystem) (file1 file2 : string) :
  (~ In file1 (map fst fs) ->
   _findNewLinesAndDeletedIndices fs file1 file2 = Raise (IOError file1))
  /\ (In file1 (map fst fs) -> ~ In file2 (map fst fs) ->
      _findNewLinesAndDeletedIndices fs file1 file2 = Raise (IOError file2)).
Proof.
  unfold _findNewLinesAndDeletedIndices. split.
  - intros H1. now rewrite (open_read_missing fs file1 H1).
  - intros H1 H2. destruct (open_read_present fs file1 H1) as [c E].
    rewrite E. cbn [bind]. now rewrite (open_read_missing fs file2 H2).
Qed.

End DiffProps.

(** ** The relation builder: further properties *)

Module BuilderProps.

Import Pandas Builder BuilderSpec BuilderRows BuilderFacts.
Open Scope Z_scope.

(** *** Helper lemmas *)

Lemma sorted_lt_ext (l1 : list Z) :
  forall l2,
    StronglySorted Z.lt l1 -> StronglySorted Z.lt l2 ->
    (forall x, In x l1 <-> In x l2) -> l1 = l2.
Proof.
  induction l1 as [|x l1 IH]; intros l2 H1 H2 Hiff.
  - destruct l2 as [|y l2]; [reflexivity|].
    exfalso. apply (proj2 (Hiff y)). now left.
  - destruct l2 as [|y l2].
    + exfalso. apply (proj1 (Hiff x)). now left.
    + inversion H1 as [|? ? H1' M1]; subst.
      inversion H2 as [|? ? H2' M2]; subst.
      rewrite Forall_forall in M1, M2.
      assert (x = y).
      { destruct (proj1 (Hiff x) (or_introl eq_refl)) as [E|E]; [now symmetry|].
        destruct (proj2 (Hiff y) (or_introl eq_refl)) as [E'|E']; [exact E'|].
        specialize (M1 y E'). specialize (M2 x E). lia. }
      subst y. f_equal. apply IH; try assumption.
      intros z. split; intros Hz.
      * destruct (proj1 (Hiff z) (or_intror Hz)) as [E|E]; [|exact E].
        subst z. specialize (M1 x Hz). lia.
      * destruct (proj2 (Hiff z) (or_intror Hz)) as [E|E]; [|exact E].
        subst z. specialize (M2 x Hz). lia.
Qed.

Lemma filter_flat_map {A B : Type} (p : B -> bool) (f : A -> list B)
  (l : list A) :
  filter p (flat_map f l) = flat_map (fun x => filter p (f x)) l.
Proof.
  induction l as [|x l IH]; [reflexivity|].
  cbn [flat_map]. now rewrite filter_app, IH.
Qed.

Lemma flat_map_only {B : Type} (g : nat -> list B) (k : nat) (n : nat) :
  forall s,
    (forall k', k' <> k -> g k' = []) ->
    flat_map g (seq s n)
    = if ((s <=? k) && (k <? s + n))%nat then g k else [].
Proof.
  induction n as [|n IH]; intros s Hg.
  - cbn [seq flat_map].
    replace ((s <=? k) && (k <? s + 0))%nat with false; [reflexivity|].
    symmetry. apply andb_false_iff.
    destruct (Nat.le_gt_cases s k);
      [right; apply Nat.ltb_ge | left; apply Nat.leb_gt]; lia.
  - cbn [seq flat_map]. rewrite (IH (S s) Hg).
    destruct (Nat.eq_dec s k) as [->|Hne].
    + replace ((S k <=? k) && (k <? S k + n))%nat with false
        by (symmetry; apply andb_false_iff; left; apply Nat.leb_gt; lia).
      replace ((k <=? k) && (k <? k + S n))%nat with true.
      * apply app_nil_r.
      * symmetry. apply andb_true_iff.
        split; [apply Nat.leb_le | apply Nat.ltb_lt]; lia.
    + rewrite (Hg s Hne). cbn [app].
      destruct (Nat.le_gt_cases s k) as [Hle|Hgt].
      * replace (S s <=? k)%nat with true
          by (symmetry; apply Nat.leb_le; lia).
        replace (s <=? k)%nat with true by (symmetry; apply Nat.leb_le; lia).
        replace (S s + n)%nat with (s + S n)%nat by lia. reflexivity.
      * replace (S s <=? k)%nat with false
          by (symmetry; apply Nat.leb_gt; lia).
        replace (s <=? k)%nat with false
          by (symmetry; apply Nat.leb_gt; lia).
        reflexivity.
Qed.

Lemma flat_map_ext_seq {B : Type} (f g : nat -> list B) (s n : nat) :
  (forall k, In k (seq s n) -> f k = g k) ->
  flat_map f (seq s n) = flat_map g (seq s n).
Proof.
  intros H. induction (seq s n) as [|k l IH]; [reflexivity|].
  cbn [flat_map]. rewrite (H k) by now left.
  rewrite IH; [reflexivity|]. intros k' Hk'. apply H. now right.
Qed.

Lemma filter_rows_of_line (newLines : list string) (idStart : Z) (k k' : nat) :
  filter (fun r => Z.eqb (idStart + Z.of_nat k) (fst r))
         (rows_of_line newLines idStart k')
  = if (k' =? k)%nat then rows_of_line newLines idStart k else [].
Proof.
  unfold rows_of_line. destruct (k' =? k)%nat eqn:E.
  - apply Nat.eqb_eq in E. subst k'.
    induction (tokens (nth k newLines "")) as [|t ts IH]; [reflexivity|].
    cbn [map filter fst]. rewrite Z.eqb_refl. now rewrite IH.
  - apply Nat.eqb_neq in E.
    induction (tokens (nth k' newLines "")) as [|t ts IH]; [reflexivity|].
    cbn [map filter fst].
    replace (idStart + Z.of_nat k =? idStart + Z.of_nat k') with false
      by (symmetry; apply Z.eqb_neq; lia).
    exact IH.
Qed.

(** The member rows under the ID of line [k]. *)
Lemma rows_under (newLines : list string) (idStart : Z) (k : nat) :
  (k < List.length newLines)%nat ->
  filter (fun r => Z.eqb (idStart + Z.of_nat k) (fst r))
         (member_rows newLines idStart)
  = rows_of_line newLines idStart k.
Proof.
  intros Hk. rewrite BuilderClaims.member_rows_by_line, filter_flat_map.
  rewrite (flat_map_only _ k).
  - replace ((0 <=? k) && (k <? 0 + List.length newLines))%nat with true.
    + now rewrite filter_rows_of_line, Nat.eqb_refl.
    + symmetry. apply andb_true_iff.
      split; [apply Nat.leb_le | apply Nat.ltb_lt]; lia.
  - intros k' Hne. rewrite filter_rows_of_line.
    now replace (k' =? k)%nat with false by (symmetry; now apply Nat.eqb_neq).
Qed.

Lemma ids_of_lines_sorted (newLines : list string) (idStart : Z) (n : nat) :
  forall s,
    StronglySorted Z.lt (flat_map (id_of_line newLines idStart) (seq s n))
    /\ forall x, In x (flat_map (id_of_line newLines idStart) (seq s n)) <->
                 exists k, (s <= k < s + n)%nat /\ x = idStart + Z.of_nat k
                           /\ tokens (nth k newLines "") <> [].
Proof.
  induction n as [|n IH]; intros s.
  - cbn. split; [constructor|]. intros x. split; [contradiction|].
    intros [k [Hk _]]. lia.
  - destruct (IH (S s)) as [Hs Hin]. cbn [seq flat_map].
    assert (Hhead : forall x, In x (id_of_line newLines idStart s) <->
                      x = idStart + Z.of_nat s
                      /\ tokens (nth s newLines "") <> []).
    { intros x. unfold id_of_line.
      destruct (tokens (nth s newLines "")) as [|t ts].
      - split; [contradiction|]. intros [_ H]. now contradiction H.
      - cbn. split.
        + intros [<-|[]]. split; [reflexivity | discriminate].
        + intros [-> _]. now left. }
    split.
    + unfold id_of_line at 1.
      destruct (tokens (nth s newLines "")) as [|t ts]; [exact Hs|].
      cbn [app]. constructor; [exact Hs|].
      apply Forall_forall. intros x Hx. apply Hin in Hx.
      destruct Hx as [k [Hk [-> _]]]. lia.
    + intros x. rewrite in_app_iff, Hhead, Hin. split.
      * intros [[-> Hne]|[k [Hk [-> Hne]]]].
        -- exists s. split; [lia|]. split; [reflexivity | exact Hne].
        -- exists k. split; [lia|]. split; [reflexivity | exact Hne].
      * intros [k [Hk [-> Hne]]]. destruct (Nat.eq_dec k s) as [->|Hd].
        -- left. split; [reflexivity | exact Hne].
        -- right. exists k. split; [lia|]. split; [reflexivity | exact Hne].
Qed.

Lemma unique_ids (newLines : list string) (idStart : Z) :
  unique (map fst (member_rows newLines idStart))
  = flat_map (id_of_line newLines idStart) (seq 0 (List.length newLines)).
Proof.
  destruct (ids_of_lines_sorted newLines idStart (List.length newLines) 0%nat)
    as [Hs Hin].
  apply sorted_lt_ext.
  - apply unique_from_sorted, members_of_sorted, arange_sorted.
  - exact Hs.
  - intros x. unfold unique. rewrite In_unique_from, Hin.
    rewrite BuilderClaims.In_member_rows_ids. split.
    + intros [[k [Hk Hr]] _]. exists k. split; [lia | exact Hr].
    + intros [k [Hk Hr]]. split; [|intros []].
      exists k. split; [lia | exact Hr].
Qed.

Lemma summary_rows_eq (newLines : list string) (createdBy idStart : Z) :
  summary_rows newLines createdBy idStart
  = flat_map (summary_of_line newLines createdBy idStart)
             (seq 0 (List.length newLines)).
Proof.
  unfold summary_rows. rewrite unique_ids.
  set (col := map fst (member_rows newLines idStart)).
  set (f := fun x => {| linkageId := x; numMembers := count_of x col;
                        createdBy := createdBy; deletedBy := 0 |}).
  assert (Hmf : forall l : list nat,
             map f (flat_map (id_of_line newLines idStart) l)
             = flat_map (fun k => map f (id_of_line newLines idStart k)) l).
  { induction l as [|k l IH]; [reflexivity|].
    cbn [flat_map]. now rewrite map_app, IH. }
  rewrite Hmf. apply flat_map_ext_seq. intros k Hk. apply in_seq in Hk.
  unfold id_of_line, summary_of_line.
  destruct (tokens (nth k newLines "")) as [|t ts] eqn:E; [reflexivity|].
  cbn [map]. unfold f. do 2 f_equal. unfold col.
  rewrite BuilderClaims.count_of_map_fst, rows_under by lia.
  unfold rows_of_line. now rewrite length_map, E.
Qed.

(** Joining what [split] cut gives the string back. *)
Lemma split_on_not_nil (sep : ascii) (s : string) : Py.split_on sep s <> [].
Proof.
  induction s as [|c s IH]; cbn; [discriminate|].
  destruct (Ascii.eqb c sep); [discriminate|].
  destruct (Py.split_on sep s); [contradiction | discriminate].
Qed.

Lemma concat_split_on (sep : ascii) (s : string) :
  String.concat (String sep EmptyString) (Py.split_on sep s) = s.
Proof.
  induction s as [|c s IH]; [reflexivity|].
  cbn [Py.split_on]. pose proof (split_on_not_nil sep s) as Hne.
  destruct (Ascii.eqb c sep) eqn:E.
  - apply Ascii.eqb_eq in E. subst c.
    destruct (Py.split_on sep s) as [|t ts]; [contradiction|].
    change (String.concat (String sep "") (""%string :: t :: ts))
      with (String sep (String.concat (String sep "") (t :: ts))).
    now rewrite IH.
  - destruct (Py.split_on sep s) as [|t ts]; [contradiction|].
    destruct ts as [|u us].
    + cbn [String.concat] in *. now rewrite IH.
    + change (String.concat (String sep "") (String c t :: u :: us))
        with (String c (String.concat (String sep "") (t :: u :: us))).
      now rewrite IH.
Qed.

Lemma member_rows_app (l1 l2 : list string) :
  forall idStart,
    member_rows (l1 ++ l2) idStart
    = member_rows l1 idStart
      ++ member_rows l2 (idStart + Z.of_nat (List.length l1)).
Proof.
  unfold member_rows, members_of.
  induction l1 as [|x l1 IH]; intros idStart.
  - cbn [app List.length]. now rewrite Z.add_0_r.
  - cbn [app List.length map]. rewrite !arange_S.
    cbn [combine flat_map fst snd].
    rewrite <- app_assoc. f_equal. rewrite IH.
    replace (idStart + 1 + Z.of_nat (List.length l1))
      with (idStart + Z.of_nat (S (List.length l1))) by lia.
    reflexivity.
Qed.

Lemma flat_map_seq_shift {B : Type} (f : nat -> list B) (d n : nat) :
  forall s,
    flat_map f (seq (d + s) n) = flat_map (fun k => f (d + k)%nat) (seq s n).
Proof.
  induction n as [|n IH]; intros s; [reflexivity|].
  cbn [seq flat_map]. f_equal.
  replace (S (d + s)) with (d + S s)%nat by lia. apply IH.
Qed.

Lemma summary_rows_app (l1 l2 : list string) (createdBy idStart : Z) :
  summary_rows (l1 ++ l2) createdBy idStart
  = summary_rows l1 createdBy idStart
    ++ summary_rows l2 createdBy (idStart + Z.of_nat (List.length l1)).
Proof.
  rewrite !summary_rows_eq, length_app, seq_app, flat_map_app. f_equal.
  - apply flat_map_ext_seq. intros k Hk. apply in_seq in Hk.
    unfold summary_of_line. now rewrite app_nth1 by lia.
  - cbn [Nat.add].
    replace (seq (List.length l1) (List.length l2))
      with (seq (List.length l1 + 0) (List.length l2))
      by now rewrite Nat.add_0_r.
    rewrite flat_map_seq_shift. apply flat_map_ext_seq. intros k Hk.
    unfold summary_of_line.
    rewrite app_nth2 by lia.
    replace (List.length l1 + k - List.length l1)%nat with k by lia.
    destruct (tokens (nth k l2 "")) as [|t ts]; [reflexivity|].
    do 2 f_equal. lia.
Qed.

(** *** Properties *)


(** X9. Round trip. A line with no empty token (it is not empty, does not
    begin or end with a space and has no two spaces in a row) can be read back
    from the members relation: the member tokens under its ID, joined by
    single spaces, are the line. *)
Theorem line_is_rebuilt_from_members
  (newLines : list string) (linkageType : string) (createdBy idStart : Z)
  (k : nat) :
  (k < List.length newLines)%nat ->
  Forall (fun t => t <> ""%string) (Py.split_on " " (nth k newLines "")) ->
  exists m s,
    _makeNewLinkageDataFrames newLines linkageType createdBy idStart
    = Ok (m, s)
    /\ String.concat " " (members_under (idStart + Z.of_nat k) m)
       = nth k newLines ""%string.
Proof.
  intros Hk Hne. eexists. eexists.
  split; [apply makeNewLinkageDataFrames_eq|].
  unfold members_under. cbn [m_rows]. rewrite rows_under by exact Hk.
  unfold rows_of_line. rewrite map_map. cbn [snd]. rewrite map_id.
  unfold tokens.
  replace (filter (fun t => negb (String.eqb t "")) (Py.split_on " " (nth k newLines "")))
    with (Py.split_on " " (nth k newLines "")).
  - apply concat_split_on.
  - symmetry. apply forallb_filter_id. apply forallb_forall.
    rewrite Forall_forall in Hne. intros t Ht.
    apply negb_true_iff, String.eqb_neq. now apply Hne.
Qed.

Lemma line_is_rebuilt_from_members_witness :
  exists m s,
    _makeNewLinkageDataFrames ["1 2 3"; ""; "40 50"]%string "trackId" 5 10
    = Ok (m, s)
    /\ String.concat " " (members_under (10 + Z.of_nat 2) m)
       = nth 2 ["1 2 3"; ""; "40 50"]%string ""%string.
Proof.
  apply (line_is_rebuilt_from_members
           ["1 2 3"; ""; "40 50"]%string "trackId" 5 10 2).
  - cbn. lia.
  - repeat constructor; discriminate.
Defined.

(** X10. Batches. Building the relations of two batches of lines, the second
    with [idStart] moved on by the number of lines of the first, gives rows
    which put one after the other are the rows built from all the lines at
    once: the IDs go on from batch to batch. *)
Theorem batches_compose
  (lines1 lines2 : list string) (linkageType : string)
  (createdBy idStart : Z) :
  exists m s m1 s1 m2 s2,
    _makeNewLinkageDataFrames (lines1 ++ lines2) linkageType createdBy idStart
    = Ok (m, s)
    /\ _makeNewLinkageDataFrames lines1 linkageType createdBy idStart
       = Ok (m1, s1)
    /\ _makeNewLinkageDataFrames lines2 linkageType createdBy
         (idStart + Z.of_nat (List.length lines1))
       = Ok (m2, s2)
    /\ m_rows m = m_rows m1 ++ m_rows m2
    /\ s_rows s = s_rows s1 ++ s_rows s2.
Proof.
  do 6 eexists.
  split; [apply makeNewLinkageDataFrames_eq|].
  split; [apply makeNewLinkageDataFrames_eq|].
  split; [apply makeNewLinkageDataFrames_eq|].
  cbn [m_rows s_rows]. split; [apply member_rows_app | apply summary_rows_app].
Qed.

End BuilderProps.

(** ** The diff engine and the relation builder together *)

Module PipelineProps.

Import Py Difflib OpcodeSpec Diff Builder BuilderSpec BuilderRows
       PipelineSpec Examples MoreExamples.
Import PyFacts BuilderFacts.
Open Scope Z_scope.

Lemma split_on_concat (sep : ascii) (row : list string) :
  row <> [] ->
  Forall (fun t => PyAux.all_chars (fun ch => negb (Ascii.eqb ch sep)) t = true)
         row ->
  split_on sep (String.concat (String sep EmptyString) row) = row.
Proof.
  induction row as [|t ts IH]; intros Hne Hall; [contradiction|].
  inversion Hall as [|? ? Ht Hts]; subst.
  destruct ts as [|u us].
  - cbn [String.concat]. now apply split_on_no_sep.
  - change (String.concat (String sep "") (t :: u :: us))
      with (t ++ String sep (String.concat (String sep "") (u :: us)))%string.
    rewrite split_on_first by exact Ht. f_equal.
    apply IH; [discriminate | exact Hts].
Qed.

Lemma tokens_of_linkage (row : list string) :
  linkage row -> tokens (String.concat " " row) = row.
Proof.
  intros [Hne Hall]. unfold tokens. rewrite split_on_concat.
  - apply forallb_filter_id, forallb_forall. intros t Ht.
    rewrite Forall_forall in Hall. destruct (Hall t Ht) as [H _].
    now apply negb_true_iff, String.eqb_neq.
  - exact Hne.
  - eapply Forall_impl; [|exact Hall]. now intros t [_ H].
Qed.

Lemma reported_linkage_line (c : ascii) (row : list string) :
  reported (linkage_line c row) = String.concat " " row.
Proof. unfold linkage_line, newline. apply DiffProps.reported_two. Qed.

Lemma nth_concat (rows : list (list string)) (k : nat) :
  nth k (map (String.concat " ") rows) ""%string
  = String.concat " " (nth k rows []).
Proof.
  change ""%string with (String.concat " " []).
  apply map_nth.
Qed.

Lemma flat_map_singleton {A B : Type} (g : A -> B) (l : list A) :
  flat_map (fun x => [g x]) l = map g l.
Proof. induction l as [|x l IH]; [reflexivity | cbn; now rewrite IH]. Qed.

(** X11. From the files to the relations. The new file holds the lines of the
    old one and then linkages written as member tokens separated by single
    spaces, each line ended by one more character and the line feed. Then the
    diff engine reports those linkages with no member cut, at their positions
    in the new file, and the relation builder applied to what it reports gives
    the members relation with every token of linkage [k] under the ID [idStart
    + k], and the summary relation with one row for each linkage holding its
    number of tokens. *)
Theorem appended_linkages_become_relations
  (fs : FileSystem) (file1 file2 old new : string) (c : ascii)
  (rows : list (list string)) (linkageType : string)
  (createdBy idStart : Z) :
  open_read fs file1 = Ok old ->
  open_read fs file2 = Ok new ->
  readlines new = readlines old ++ map (linkage_line c) rows ->
  Forall linkage rows ->
  exists addedLines m s,
    _findNewLinesAndDeletedIndices fs file1 file2
    = Ok (addedLines,
          seq (List.length (readlines old) + 1) (List.length rows), [])
    /\ addedLines = map (String.concat " ") rows
    /\ _makeNewLinkageDataFrames addedLines linkageType createdBy idStart
       = Ok (m, s)
    /\ m_rows m
       = flat_map (fun k => map (pair (idStart + Z.of_nat k)) (nth k rows []))
                  (seq 0 (List.length rows))
    /\ s_rows s
       = map (fun k => {| linkageId := idStart + Z.of_nat k;
                          numMembers := Z.of_nat (List.length (nth k rows []));
                          createdBy := createdBy;
                          deletedBy := 0 |})
             (seq 0 (List.length rows)).
Proof.
  intros H1 H2 Hn Hrows.
  exists (map (String.concat " ") rows). eexists. eexists.
  assert (Htok : forall k, In k (seq 0 (List.length rows)) ->
                   tokens (nth k (map (String.concat " ") rows) "")
                   = nth k rows []).
  { intros k Hk. apply in_seq in Hk. rewrite nth_concat.
    apply tokens_of_linkage. rewrite Forall_forall in Hrows.
    apply Hrows, nth_In. lia. }
  split; [|split; [reflexivity|split; [apply makeNewLinkageDataFrames_eq|]]].
  - unfold _findNewLinesAndDeletedIndices. rewrite H1, H2. cbn [bind].
    rewrite Hn, DiffProps.find_new_and_deleted_append.
    rewrite map_map, length_map. do 3 f_equal.
    apply map_ext. intros row. apply reported_linkage_line.
  - cbn [m_rows s_rows]. split.
    + rewrite BuilderClaims.member_rows_by_line, length_map.
      apply BuilderProps.flat_map_ext_seq. intros k Hk.
      unfold rows_of_line. now rewrite Htok.
    + rewrite BuilderProps.summary_rows_eq, length_map.
      rewrite (BuilderProps.flat_map_ext_seq _
                 (fun k => [ {| linkageId := idStart + Z.of_nat k;
                                numMembers :=
                                  Z.of_nat (List.length (nth k rows []));
                                createdBy := createdBy;
                                deletedBy := 0 |} ])).
      * apply flat_map_singleton.
      * intros k Hk. unfold summary_of_line. rewrite (Htok k Hk).
        destruct (nth k rows []) as [|t ts] eqn:E; [|reflexivity].
        exfalso. apply in_seq in Hk. rewrite Forall_forall in Hrows.
        assert (Hin : In (nth k rows []) rows) by (apply nth_In; lia).
        destruct (Hrows _ Hin) as [Hne _]. now rewrite E in Hne.
Qed.

Lemma appended_linkages_become_relations_witness :
  exists addedLines m s,
    _findNewLinesAndDeletedIndices spaced_fs "night1.txt" "night2.txt"
    = Ok (addedLines,
          seq (List.length (readlines (file_of ["1 2 "; "3 4 "]%string)) + 1)
              (List.length [["5"; "6"; "7"]; ["8"; "9"]]%string), [])
    /\ addedLines = ["5 6 7"; "8 9"]%string
    /\ _makeNewLinkageDataFrames addedLines "trackletId" 2 3 = Ok (m, s)
    /\ m_rows m
       = [(3, "5"); (3, "6"); (3, "7"); (4, "8"); (4, "9")]%string
    /\ s_rows s
       = [ {| linkageId := 3; numMembers := 3; createdBy := 2;
              deletedBy := 0 |};
           {| linkageId := 4; numMembers := 2; createdBy := 2;
              deletedBy := 0 |} ].
Proof.
  apply (appended_linkages_become_relations spaced_fs
           "night1.txt" "night2.txt"
           (file_of ["1 2 "; "3 4 "]%string)
           (file_of ["1 2 "; "3 4 "; "5 6 7 "; "8 9 "]%string)
           " "%char [["5"; "6"; "7"]; ["8"; "9"]]%string "trackletId" 2 3);
    try reflexivity.
  repeat constructor; discriminate.
Defined.

End PipelineProps.

(** ** Database assembly: further properties *)

Module AssemblyProps.

Import Store Assembly AssemblySpec.
Import PyFacts.

(** *** Helper lemmas *)

Lemma str_of_nat_inj (n m : nat) :
  Py.str_of_nat n = Py.str_of_nat m -> n = m.
Proof.
  intros H. pose proof (int_of_str_of_nat n) as Hn.
  rewrite H, int_of_str_of_nat in Hn. now inversion Hn.
Qed.

Lemma NoDup_map_inj {A B : Type} (f : A -> B) (l : list A) :
  (forall x y, f x = f y -> x = y) -> NoDup l -> NoDup (map f l).
Proof.
  intros Hinj Hl. induction Hl as [|x l Hx Hl IH]; [constructor|].
  cbn [map]. constructor; [|exact IH].
  intros Hin. apply in_map_iff in Hin. destruct Hin as [y [Hy Hin]].
  apply Hinj in Hy. now subst y.
Qed.

Lemma attach_names (databases : list string) :
  map attach_name (enumerate databases)
  = map (fun i => ("db" ++ Py.str_of_nat i)%string)
        (seq 0 (List.length databases)).
Proof.
  rewrite <- (AssemblyClaims.map_fst_enumerate databases), map_map.
  reflexivity.
Qed.

Lemma attached_statements (con : Connection) (l : list (nat * string)) :
  attached (map (attach_statement con) l)
  = map (fun item => (snd item, attach_name item)) l.
Proof.
  unfold attached. induction l as [|x l IH]; [reflexivity|].
  cbn [map flat_map attach_statement snd app]. now rewrite IH.
Qed.

Lemma attached_app (l1 l2 : list (Connection * Statement)) :
  attached (l1 ++ l2) = attached l1 ++ attached l2.
Proof. apply flat_map_app. Qed.

Lemma enumerate_combine (databases : list string) :
  map (fun item => (snd item, attach_name item)) (enumerate databases)
  = combine databases (map attach_name (enumerate databases)).
Proof.
  unfold enumerate. generalize 0%nat.
  induction databases as [|d l IH]; intros n; [reflexivity|].
  cbn [List.length seq combine map snd]. now rewrite IH.
Qed.

(** [attachDatabases] in closed form. *)
Lemma attachDatabases_eq (con : Connection) (databases : list string)
  (st : State) :
  attachDatabases con databases st
  = (Ok (map attach_name (enumerate (firstn 10 databases))),
     {| console := console st
                   ++ (if (10 <? List.length databases)%nat
                       then too_many_warning else [])
                   ++ map attach_message (enumerate (firstn 10 databases));
        sent := sent st
                ++ map (attach_statement con)
                       (enumerate (firstn 10 databases)) |}).
Proof.
  unfold attachDatabases. destruct (10 <? List.length databases)%nat eqn:E.
  - unfold mbind at 1. unfold mbind at 1 2. unfold print, ret.
    cbn [console sent]. rewrite AssemblyClaims.attach_loop_eq.
    cbn [console sent app]. unfold Py.take, too_many_warning.
    now rewrite <- !app_assoc.
  - apply Nat.ltb_ge in E. unfold mbind at 1. unfold ret.
    rewrite AssemblyClaims.attach_loop_eq. cbn [app].
    now rewrite firstn_all2 by exact E.
Qed.

(** *** Properties *)




(** *** The statements of database creation *)

(** X14. Views rest on what was created. Once the connection is made,
    [buildTrackletDatabase] and [buildTrackDatabase] send all their statements
    on the connection they return; every view they define selects from a table
    the same call created before it and filters on columns that table has; the
    tables created are [DiaSources], [AllTracklets] and [TrackletMembers] for
    tracklets, [AllTracks] and [TrackMembers] for tracks. *)
Theorem views_rest_on_created_tables
  (abspath : string -> string) (globals : Globals)
  (database outDir : string) (st : State) :
  lookup "sql" globals = Some Module_sqlite3 ->
  (exists con path st' new,
      buildTrackletDatabase abspath globals database outDir st
      = (Ok (con, path), st')
      /\ sent st' = sent st ++ new
      /\ Forall (fun cs => fst cs = con) new
      /\ resolves [] new = true
      /\ tables_created new = ["DiaSources"; "AllTracklets"; "TrackletMembers"])
  /\ (exists con path st' new,
      buildTrackDatabase abspath globals database outDir st
      = (Ok (con, path), st')
      /\ sent st' = sent st ++ new
      /\ Forall (fun cs => fst cs = con) new
      /\ resolves [] new = true
      /\ tables_created new = ["AllTracks"; "TrackMembers"]).
Proof.
  intros Hsql. split.
  - unfold buildTrackletDatabase, load_global. rewrite Hsql.
    destruct st as [c s]. eexists. eexists. eexists. eexists.
    split; [reflexivity|]. cbn [sent]. split.
    + rewrite <- !app_assoc. reflexivity.
    + split; [repeat constructor|]. split; [|reflexivity].
      cbn. now rewrite !String.eqb_refl.
  - unfold buildTrackDatabase, load_global. rewrite Hsql.
    destruct st as [c s]. eexists. eexists. eexists. eexists.
    split; [reflexivity|]. cbn [sent]. split.
    + rewrite <- !app_assoc. reflexivity.
    + split; [repeat constructor|]. split; [|reflexivity].
      cbn. now rewrite !String.eqb_refl.
Qed.

Lemma views_rest_on_created_tables_witness :
  exists con path st' new,
    buildTrackDatabase (fun d => d) (("sql", Module_sqlite3) :: io_globals)
                       "tracks.db" "/data" initial
    = (Ok (con, path), st')
    /\ sent st' = sent initial ++ new
    /\ Forall (fun cs => fst cs = con) new
    /\ resolves [] new = true
    /\ tables_created new = ["AllTracks"; "TrackMembers"].
Proof.
  apply (views_rest_on_created_tables
           (fun d => d) (("sql", Module_sqlite3) :: io_globals)
           "tracks.db" "/data" initial).
  reflexivity.
Defined.

(** X15. Where the database is. Once the connection is made, the connection is
    opened on the very path returned. A database name that begins with a slash
    is that path, whatever [outDir] is; any other name is put after the
    absolute form of [outDir] and one slash. *)
Theorem database_path_is_under_outDir
  (abspath : string -> string) (globals : Globals)
  (database outDir : string) (st : State) :
  lookup "sql" globals = Some Module_sqlite3 ->
  exists con path st',
    buildTrackletDatabase abspath globals database outDir st
    = (Ok (con, path), st')
    /\ (exists con2 st2,
          buildTrackDatabase abspath globals database outDir st
          = (Ok (con2, path), st2) /\ con2 = path)
    /\ con = path
    /\ (starts_with_slash database = true -> path = database)
    /\ (starts_with_slash database = false ->
        abspath outDir <> ""%string ->
        ends_with_slash (abspath outDir) = false ->
        path = (abspath outDir ++ "/" ++ database)%string)
    /\ (starts_with_slash database = false ->
        ends_with_slash (abspath outDir) = true ->
        path = (abspath outDir ++ database)%string).
Proof.
  intros Hsql.
  unfold buildTrackletDatabase, buildTrackDatabase, load_global.
  rewrite Hsql. eexists. eexists. eexists. split; [reflexivity|].
  split; [eexists; eexists; split; reflexivity|]. split; [reflexivity|].
  unfold os_path_join. cbn [fold_left starts_with_slash].
  assert (Hends : forall s, s <> ""%string -> ends_with_slash (s ++ "/") = true).
  { induction s as [|ch s IH]; intros Hne; [contradiction|].
    destruct s as [|ch2 s2]; [reflexivity|].
    cbn [append ends_with_slash] in *. apply IH. discriminate. }
  assert (Happ : forall s, (s ++ "")%string = s).
  { induction s as [|ch s IH]; [reflexivity | cbn; now rewrite IH]. }
  split; [|split].
  - intros ->. reflexivity.
  - intros Hd Hne He. rewrite Hd, He.
    replace (String.eqb (abspath outDir) "") with false
      by (symmetry; now apply String.eqb_neq).
    cbn [orb]. rewrite Happ.
    replace (String.eqb (abspath outDir ++ "/") "") with false.
    + rewrite (Hends _ Hne). cbn [orb].
      rewrite <- PyFacts.append_assoc. reflexivity.
    + symmetry. apply String.eqb_neq.
      destruct (abspath outDir); [contradiction | discriminate].
  - intros Hd He. rewrite Hd, He, orb_true_r, Happ, He, orb_true_r.
    reflexivity.
Qed.

Lemma database_path_is_under_outDir_witness :
  exists con path st',
    buildTrackletDatabase (fun d => d) (("sql", Module_sqlite3) :: io_globals)
                          "tracklets.db" "/data" initial
    = (Ok (con, path), st')
    /\ path = "/data/tracklets.db".
Proof.
  destruct (database_path_is_under_outDir
              (fun d => d) (("sql", Module_sqlite3) :: io_globals)
              "tracklets.db" "/data" initial eq_refl)
    as [con [path [st' [H [_ [_ [_ [Hp _]]]]]]]].
  exists con, path, st'. split; [exact H|].
  apply Hp; [reflexivity | discriminate | reflexivity].
Defined.

End AssemblyProps.

(** ** The linkage file loaders: properties *)

Module LoaderProps.

Import Pandas Builder BuilderSpec Store Assembly Loader.
Import BuilderFacts.
Open Scope Z_scope.

(** *** Helper lemmas *)

Lemma chunk_rows_eq (chunk : list string) (first_id : Z) :
  chunk_rows chunk first_id = Ok (member_rows chunk first_id).
Proof.
  unfold chunk_rows, frame_of_lists.
  rewrite length_arange, length_map, Nat.eqb_refl. cbn [bind].
  fold (clean (stack (combine (arange first_id (List.length chunk))
     (map (pad (width (map (Py.split_on " ") chunk)))
          (map (Py.split_on " ") chunk))))).
  now rewrite clean_stack.
Qed.

Lemma load_chunks_eq (table id_column : string) (con : Connection)
  (idOffset chunksize : Z) (chunks : list (list string)) :
  forall i log,
    Forall (fun c => Z.of_nat (List.length c) = chunksize)
           (removelast chunks) ->
    exists writes,
      load_chunks table id_column con idOffset chunksize
                  (combine (seq i (List.length chunks)) chunks) log
      = (Ok tt, log ++ writes)
      /\ List.length writes = List.length chunks
      /\ Forall (track_write table id_column con) writes
      /\ flat_map w_rows writes
         = member_rows (List.concat chunks)
                       (idOffset + chunksize * Z.of_nat i + 1).
Proof.
  induction chunks as [|chunk rest IH]; intros i log Hfull.
  - exists []. cbn. rewrite app_nil_r. repeat split; constructor.
  - cbn [List.length seq combine load_chunks]. rewrite chunk_rows_eq.
    assert (Hrest : Forall (fun c => Z.of_nat (List.length c) = chunksize)
                           (removelast rest)).
    { destruct rest as [|c2 rest']; [constructor|].
      cbn [removelast] in Hfull. now inversion Hfull. }
    destruct (IH (S i)
                (log ++ [ {| w_table := table; w_con := con;
                             w_columns := [id_column; "diaId"%string];
                             w_rows := member_rows chunk
                               (idOffset + chunksize * Z.of_nat i + 1) |} ])
                Hrest) as [writes [E [Hl [Hw Hr]]]].
    eexists (_ :: writes). rewrite E, <- app_assoc. cbn [app].
    split; [reflexivity|]. cbn [List.length]. split; [now rewrite Hl|].
    split.
    + constructor; [|exact Hw]. repeat split.
    + cbn [flat_map w_rows List.concat]. rewrite BuilderProps.member_rows_app, Hr.
      f_equal. destruct rest as [|c2 rest']; [reflexivity|].
      cbn [removelast] in Hfull. inversion Hfull as [|? ? Hc _]; subst.
      f_equal. lia.
Qed.

(** *** Properties *)

(** X16. The tracklet loader cannot run. With the global names the module has,
    every call of [readTrackletsIntoDatabase] raises a [NameError] for
    [trackFile] before anything is read or written, whatever the reader and
    the arguments; and whatever the global names are, the file named by the
    argument [trackletFile] plays no part in the outcome. *)
Theorem readTracklets_raises_NameError
  (read_csv : Value -> Z -> Result (list (list string) * option PyError))
  (trackletFile : string) (con : Connection)
  (trackletIdOffset chunksize : Z) (log : list Write) :
  lookup_name "trackFile" module_names = None
  /\ readTrackletsIntoDatabase read_csv module_names trackletFile con
       trackletIdOffset chunksize log
     = (Raise (NameError "trackFile"), log)
  /\ forall names otherFile,
       readTrackletsIntoDatabase read_csv names trackletFile con
         trackletIdOffset chunksize log
       = readTrackletsIntoDatabase read_csv names otherFile con
           trackletIdOffset chunksize log.
Proof. repeat split. Qed.



End LoaderProps.

(** ** The detection file reader: properties *)

Module DetectionsProps.

Import Store Detections.
Open Scope Z_scope.

(** *** Sorting by [objectId] *)

Lemma insert_by_id_perm (r : option string * Z) (l : list (option string * Z)) :
  Permutation (insert_by_id r l) (r :: l).
Proof.
  induction l as [|h t IH]; [reflexivity|].
  cbn [insert_by_id]. destruct (snd r <? snd h); [reflexivity|].
  rewrite IH. apply perm_swap.
Qed.

Lemma sort_values_perm (l : list (option string * Z)) :
  Permutation (sort_values l) l.
Proof.
  induction l as [|r l IH]; [reflexivity|].
  cbn [sort_values fold_right]. rewrite insert_by_id_perm.
  now apply perm_skip.
Qed.

Lemma insert_by_id_sorted (r : option string * Z)
  (l : list (option string * Z)) :
  StronglySorted id_le l -> StronglySorted id_le (insert_by_id r l).
Proof.
  induction l as [|h t IH]; intros Hs.
  - repeat constructor.
  - inversion Hs as [|? ? Hs' Hh]; subst. cbn [insert_by_id].
    destruct (snd r <? snd h) eqn:E.
    + apply Z.ltb_lt in E. constructor; [exact Hs|].
      constructor; [unfold id_le; lia|].
      eapply Forall_impl; [|exact Hh]. unfold id_le. intros x Hx. lia.
    + apply Z.ltb_ge in E. constructor; [now apply IH|].
      apply Forall_forall. intros x Hx.
      apply (Permutation_in _ (insert_by_id_perm r t)) in Hx.
      destruct Hx as [<-|Hx]; [exact E|].
      rewrite Forall_forall in Hh. now apply Hh.
Qed.

Lemma sort_values_sorted (l : list (option string * Z)) :
  StronglySorted id_le (sort_values l).
Proof.
  induction l as [|r l IH]; [constructor|].
  cbn [sort_values fold_right]. now apply insert_by_id_sorted.
Qed.

(** A row whose ID is above those of [low] and below that of the head of
    [high] goes between them. *)
Lemma insert_by_id_between (r : option string * Z)
  (low high : list (option string * Z)) :
  Forall (fun x => snd x <= snd r) low ->
  match high with
  | [] => True
  | h :: _ => snd r < snd h
  end ->
  insert_by_id r (low ++ high) = low ++ r :: high.
Proof.
  induction low as [|x low IH]; intros Hlow Hhigh.
  - cbn [app]. destruct high as [|h t]; [reflexivity|].
    cbn [insert_by_id].
    now replace (snd r <? snd h) with true by (symmetry; now apply Z.ltb_lt).
  - inversion Hlow as [|? ? Hx Hlow']; subst. cbn [app insert_by_id].
    replace (snd r <? snd x) with false by (symmetry; apply Z.ltb_ge; lia).
    now rewrite IH.
Qed.

Lemma numbered_from (names : list string) :
  forall s low,
    Forall (fun x => snd x <= Z.of_nat s) low ->
    fold_right insert_by_id low
      (combine (map Some names)
               (map (fun k => Z.of_nat k + 1) (seq s (List.length names))))
    = low ++ combine (map Some names)
               (map (fun k => Z.of_nat k + 1) (seq s (List.length names))).
Proof.
  induction names as [|x names IH]; intros s low Hlow.
  - cbn. now rewrite app_nil_r.
  - cbn [List.length seq map combine fold_right].
    rewrite (IH (S s) low).
    + apply insert_by_id_between.
      * eapply Forall_impl; [|exact Hlow]. cbn. intros r Hr. lia.
      * destruct names as [|y names']; [exact I|]. cbn. lia.
    + eapply Forall_impl; [|exact Hlow]. cbn. intros r Hr. lia.
Qed.

Lemma sort_values_numbered (found : list string) (special : Dict Z) :
  Forall (fun kv => snd kv <= 0) special ->
  sort_values (numbered found ++ special_rows special)
  = sort_values (special_rows special) ++ numbered found.
Proof.
  intros Hsp. unfold sort_values at 1. rewrite fold_right_app.
  fold (sort_values (special_rows special)). unfold numbered.
  apply numbered_from. apply Forall_forall. intros r Hr.
  apply (Permutation_in _ (sort_values_perm _)) in Hr.
  unfold special_rows in Hr. apply in_map_iff in Hr.
  destruct Hr as [kv [<- Hin]]. rewrite Forall_forall in Hsp.
  cbn. now apply Hsp.
Qed.

Lemma sort_values_ascending (names : list string) :
  sort_values (numbered names) = numbered names.
Proof.
  unfold sort_values, numbered. rewrite (numbered_from names 0%nat []).
  - reflexivity.
  - constructor.
Qed.

Section Facts.

Variables Chunk ReadParams : Type.
Variable read_csv :
  string -> Z -> ReadParams -> Result (list Chunk * option PyError).
Variable read_sql :
  Query -> Connection -> list (@Event Chunk) -> Result (list string).

Lemma write_chunks_eq (table : string) (con : Connection)
  (chunks : list Chunk) :
  forall log,
    write_chunks Chunk table con chunks log
    = (Done tt, log ++ map (ChunkWritten table con) chunks).
Proof.
  induction chunks as [|c chunks IH]; intros log.
  - cbn. now rewrite app_nil_r.
  - cbn [write_chunks map]. unfold dbind, emit. rewrite IH.
    now rewrite <- app_assoc.
Qed.

Lemma dict_get_own_key {V : Type} (d : Dict V) (key : string) :
  In key (map fst d) -> dict_get d key <> None.
Proof.
  induction d as [|[k v] d IH]; intros Hin; [contradiction|].
  cbn [dict_get]. destruct (String.eqb k key) eqn:E; [discriminate|].
  apply IH. destruct Hin as [H|H]; [|exact H].
  cbn in H. subst k. now rewrite String.eqb_refl in E.
Qed.

Lemma print_specials_eq (special : Dict Z) (keys : list string) :
  (forall key, In key keys -> dict_get special key <> None) ->
  forall log,
    exists lines,
      print_specials Chunk special keys log
      = (Done tt, log ++ map Printed lines).
Proof.
  induction keys as [|key keys IH]; intros Hk log.
  - exists []. cbn. now rewrite app_nil_r.
  - cbn [print_specials]. unfold dbind at 1. unfold getitem.
    destruct (dict_get special key) as [value|] eqn:E.
    + unfold dret. unfold dbind at 1. unfold dprint, emit.
      destruct (IH (fun k H => Hk k (or_intror H))
                   (log ++ [Printed (tab ++ key ++ " : " ++ str_of_int value)]))
        as [lines Hl].
      rewrite Hl. eexists (_ :: lines). cbn [map].
      now rewrite <- app_assoc.
    + exfalso. apply (Hk key); [now left | exact E].
Qed.

Lemma print_columns_eq (d : Dict string)
  (diaId visitId objectId ra dec mjd mag snr : string) (log : list (Event Chunk)) :
  names_columns d diaId visitId objectId ra dec mjd mag snr ->
  print_columns Chunk d log
  = (Done tt,
     log ++ map Printed
              (column_lines diaId visitId objectId ra dec mjd mag snr)).
Proof.
  intros [H1 [H2 [H3 [H4 [H5 [H6 [H7 H8]]]]]]].
  unfold print_columns, getitem. rewrite H1, H2, H3, H4, H5, H6, H7, H8.
  cbv beta iota delta [dbind dret dprint emit].
  unfold column_lines. cbn [map]. now rewrite <- !app_assoc.
Qed.

(** The events projected. *)
Lemma chunk_writes_app (l1 l2 : list (@Event Chunk)) :
  chunk_writes (l1 ++ l2) = chunk_writes l1 ++ chunk_writes l2.
Proof. apply flat_map_app. Qed.

Lemma object_writes_app (l1 l2 : list (@Event Chunk)) :
  object_writes (l1 ++ l2) = object_writes l1 ++ object_writes l2.
Proof. apply flat_map_app. Qed.

Lemma statements_app (l1 l2 : list (@Event Chunk)) :
  statements (l1 ++ l2) = statements l1 ++ statements l2.
Proof. apply flat_map_app. Qed.

Lemma queries_app (l1 l2 : list (@Event Chunk)) :
  queries (l1 ++ l2) = queries l1 ++ queries l2.
Proof. apply flat_map_app. Qed.

Lemma projections_printed (lines : list string) :
  chunk_writes (map (@Printed Chunk) lines) = []
  /\ object_writes (map (@Printed Chunk) lines) = []
  /\ statements (map (@Printed Chunk) lines) = []
  /\ queries (map (@Printed Chunk) lines) = [].
Proof.
  induction lines as [|l lines [H1 [H2 [H3 H4]]]]; [repeat split|].
  repeat split; cbn; assumption.
Qed.

Lemma projections_chunks (table : string) (con : Connection)
  (chunks : list Chunk) :
  chunk_writes (map (ChunkWritten table con) chunks)
  = map (fun c => (table, con, c)) chunks
  /\ object_writes (map (ChunkWritten table con) chunks) = []
  /\ statements (map (ChunkWritten table con) chunks) = []
  /\ queries (map (ChunkWritten table con) chunks) = [].
Proof.
  induction chunks as [|c chunks [H1 [H2 [H3 H4]]]]; [repeat split|].
  repeat split; cbn; try assumption.
  unfold chunk_writes in H1. now rewrite H1.
Qed.

(** *** The function in closed form *)

Ltac run :=
  cbv beta iota delta [dbind dret dfail dprint emit lift];
  cbn [fst snd].

Lemma without_mapping_eq
  (detsFile : string) (con : Connection)
  (detectionsTable diaSourcesTable mappingTable : string)
  (d : Dict string) (specialIds : option (Dict Z)) (readParams : ReadParams)
  (chunksize : Z) (chunks : list Chunk) (log : list (Event Chunk))
  (diaId visitId objectId ra dec mjd mag snr : string) :
  read_csv detsFile chunksize readParams = Ok (chunks, None) ->
  names_columns d diaId visitId objectId ra dec mjd mag snr ->
  readDetectionsIntoDatabase Chunk ReadParams read_csv read_sql
    detsFile con detectionsTable diaSourcesTable mappingTable d specialIds
    readParams chunksize false log
  = (Done tt,
     log ++ [Printed ("Reading " ++ detsFile ++ " into " ++ detectionsTable
                      ++ " table")]
         ++ map (ChunkWritten detectionsTable con) chunks
         ++ [Printed ("Creating " ++ diaSourcesTable
                      ++ " view using the following columns:")]
         ++ map Printed
              (column_lines diaId visitId objectId ra dec mjd mag snr)
         ++ [Executed con
               (direct_view diaSourcesTable detectionsTable
                  diaId visitId objectId ra dec mjd mag snr);
             Printed "Done."]).
Proof.
  intros Hread Hcols. unfold readDetectionsIntoDatabase.
  rewrite Hread. run. rewrite write_chunks_eq. run.
  rewrite (print_columns_eq d diaId visitId objectId ra dec mjd mag snr _ Hcols).
  destruct Hcols as [H1 [H2 [H3 [H4 [H5 [H6 [H7 H8]]]]]]].
  unfold getitem. rewrite H1, H2, H3, H4, H5, H6, H7, H8. run.
  unfold direct_view. now rewrite <- !app_assoc.
Qed.

Lemma mapping_special_eq
  (detsFile : string) (con : Connection)
  (detectionsTable diaSourcesTable mappingTable : string)
  (d : Dict string) (special : Dict Z) (readParams : ReadParams)
  (chunksize : Z) (chunks : list Chunk) (found : list string)
  (log : list (Event Chunk))
  (diaId visitId objectId ra dec mjd mag snr : string) :
  read_csv detsFile chunksize readParams = Ok (chunks, None) ->
  names_columns d diaId visitId objectId ra dec mjd mag snr ->
  (forall q l, read_sql q con l = Ok found) ->
  objectId <> "objectId"%string ->
  exists lines,
    readDetectionsIntoDatabase Chunk ReadParams read_csv read_sql
      detsFile con detectionsTable diaSourcesTable mappingTable d
      (Some special) readParams chunksize true log
    = (Done tt,
       log ++ [Printed ("Reading " ++ detsFile ++ " into " ++ detectionsTable
                        ++ " table")]
           ++ map (ChunkWritten detectionsTable con) chunks
           ++ [Printed ("Creating " ++ mappingTable ++ " table");
               Executed con
                 (Stmt (CreateTable "Mapping"
                          [("objectId", "INTEGER PRIMARY KEY");
                           (objectId, "VARCHAR")]));
               Printed ("Mapping " ++ objectId
                        ++ " to MOPS-friendly integer objectIds");
               Queried con
                 {| q_column := objectId; q_table := detectionsTable;
                    q_not_in :=
                      Some (String.concat "', '" (map fst special)) |};
               Printed ("Found " ++ Py.str_of_nat (List.length found)
                        ++ " unique objectIds");
               Printed "Mapping the following specialIds to:"]
           ++ map Printed lines
           ++ [Printed ("Building " ++ mappingTable ++ " table");
               ObjectsWritten mappingTable con
                 {| o_columns := [objectId; "objectId"%string];
                    o_rows := sort_values
                                (numbered found ++ special_rows special) |};
               Printed ("Creating " ++ diaSourcesTable
                        ++ " view using the following columns:")]
           ++ map Printed
                (column_lines diaId visitId objectId ra dec mjd mag snr)
           ++ [Executed con
                 (joined_view diaSourcesTable detectionsTable mappingTable
                    diaId visitId objectId ra dec mjd mag snr);
               Printed "Done."]).
Proof.
  intros Hread Hcols Hsql Hne. unfold readDetectionsIntoDatabase.
  rewrite Hread. run. rewrite write_chunks_eq. run.
  pose proof Hcols as [H1 [H2 [H3 [H4 [H5 [H6 [H7 H8]]]]]]].
  unfold getitem. rewrite H1, H2, H3, H4, H5, H6, H7, H8. run.
  rewrite Hsql. run.
  match goal with
  | |- context [print_specials Chunk special (map fst special) ?l] =>
      destruct (print_specials_eq special (map fst special)
                  (fun key H => dict_get_own_key special key H) l)
        as [lines Hl]
  end.
  exists lines. rewrite Hl. run.
  unfold number_objects.
  replace (String.eqb objectId "objectId") with false
    by (symmetry; now apply String.eqb_neq).
  cbn [o_columns o_rows]. run.
  rewrite (print_columns_eq d diaId visitId objectId ra dec mjd mag snr _ Hcols).
  run. unfold joined_view, numbered, special_rows.
  now rewrite <- !app_assoc.
Qed.

Lemma mapping_plain_eq
  (detsFile : string) (con : Connection)
  (detectionsTable diaSourcesTable mappingTable : string)
  (d : Dict string) (readParams : ReadParams)
  (chunksize : Z) (chunks : list Chunk) (found : list string)
  (log : list (Event Chunk))
  (diaId visitId objectId ra dec mjd mag snr : string) :
  read_csv detsFile chunksize readParams = Ok (chunks, None) ->
  names_columns d diaId visitId objectId ra dec mjd mag snr ->
  (forall q l, read_sql q con l = Ok found) ->
  readDetectionsIntoDatabase Chunk ReadParams read_csv read_sql
    detsFile con detectionsTable diaSourcesTable mappingTable d
    None readParams chunksize true log
  = (Done tt,
     log ++ [Printed ("Reading " ++ detsFile ++ " into " ++ detectionsTable
                      ++ " table")]
         ++ map (ChunkWritten detectionsTable con) chunks
         ++ [Printed ("Creating " ++ mappingTable ++ " table");
             Executed con
               (Stmt (CreateTable "Mapping"
                        [("objectId", "INTEGER PRIMARY KEY");
                         (objectId, "VARCHAR")]));
             Printed ("Mapping " ++ objectId
                      ++ " to MOPS-friendly integer objectIds");
             Queried con
               {| q_column := objectId; q_table := detectionsTable;
                  q_not_in := None |};
             Printed ("Found " ++ Py.str_of_nat (List.length found)
                      ++ " unique objectIds");
             Printed ("Building " ++ mappingTable ++ " table");
             ObjectsWritten mappingTable con
               {| o_columns := o_columns (number_objects objectId found);
                  o_rows := sort_values
                              (o_rows (number_objects objectId found)) |};
             Printed ("Creating " ++ diaSourcesTable
                      ++ " view using the following columns:")]
         ++ map Printed
              (column_lines diaId visitId objectId ra dec mjd mag snr)
         ++ [Executed con
               (joined_view diaSourcesTable detectionsTable mappingTable
                  diaId visitId objectId ra dec mjd mag snr);
             Printed "Done."]).
Proof.
  intros Hread Hcols Hsql. unfold readDetectionsIntoDatabase.
  rewrite Hread. run. rewrite write_chunks_eq. run.
  pose proof Hcols as [H1 [H2 [H3 [H4 [H5 [H6 [H7 H8]]]]]]].
  unfold getitem. rewrite H1, H2, H3, H4, H5, H6, H7, H8. run.
  rewrite Hsql. run.
  rewrite (print_columns_eq d diaId visitId objectId ra dec mjd mag snr _ Hcols).
  run. unfold joined_view. now rewrite <- !app_assoc.
Qed.

Lemma mapping_clash_eq
  (detsFile : string) (con : Connection)
  (detectionsTable diaSourcesTable mappingTable : string)
  (d : Dict string) (special : Dict Z) (readParams : ReadParams)
  (chunksize : Z) (chunks : list Chunk) (found : list string)
  (log : list (Event Chunk)) :
  read_csv detsFile chunksize readParams = Ok (chunks, None) ->
  dict_get d "objectId" = Some "objectId"%string ->
  (forall q l, read_sql q con l = Ok found) ->
  exists lines,
    readDetectionsIntoDatabase Chunk ReadParams read_csv read_sql
      detsFile con detectionsTable diaSourcesTable mappingTable d
      (Some special) readParams chunksize true log
    = (Failed (Raised (IndexError
                         "index 1 is out of bounds for axis 0 with size 1")),
       log ++ [Printed ("Reading " ++ detsFile ++ " into " ++ detectionsTable
                        ++ " table")]
           ++ map (ChunkWritten detectionsTable con) chunks
           ++ [Printed ("Creating " ++ mappingTable ++ " table");
               Executed con
                 (Stmt (CreateTable "Mapping"
                          [("objectId", "INTEGER PRIMARY KEY");
                           ("objectId", "VARCHAR")]));
               Printed ("Mapping " ++ "objectId"
                        ++ " to MOPS-friendly integer objectIds");
               Queried con
                 {| q_column := "objectId"; q_table := detectionsTable;
                    q_not_in :=
                      Some (String.concat "', '" (map fst special)) |};
               Printed ("Found " ++ Py.str_of_nat (List.length found)
                        ++ " unique objectIds");
               Printed "Mapping the following specialIds to:"]
           ++ map Printed lines).
Proof.
  intros Hread Hkey Hsql. unfold readDetectionsIntoDatabase.
  rewrite Hread. run. rewrite write_chunks_eq. run.
  unfold getitem. rewrite Hkey. run.
  rewrite Hsql. run.
  match goal with
  | |- context [print_specials Chunk special (map fst special) ?l] =>
      destruct (print_specials_eq special (map fst special)
                  (fun key H => dict_get_own_key special key H) l)
        as [lines Hl]
  end.
  exists lines. rewrite Hl. run.
  unfold number_objects. cbn [String.eqb Ascii.eqb Bool.eqb andb o_columns].
  now rewrite <- !app_assoc.
Qed.

(** *** Properties *)

(** X18. Without mapping. When [mapObjectIds] is not [True], the detection
    file read and its eight columns named, the call returns after writing
    every chunk to the detections table, in the order read, on the connection
    given; it writes no mapping, asks the store nothing, and executes one
    statement only: the view over the detections table alone, its [objectId]
    being the column of the detections table. *)
Theorem without_mapping_only_detections_are_written
  (detsFile : string) (con : Connection)
  (detectionsTable diaSourcesTable mappingTable : string)
  (d : Dict string) (specialIds : option (Dict Z)) (readParams : ReadParams)
  (chunksize : Z) (chunks : list Chunk) (log : list (Event Chunk))
  (diaId visitId objectId ra dec mjd mag snr : string) :
  read_csv detsFile chunksize readParams = Ok (chunks, None) ->
  names_columns d diaId visitId objectId ra dec mjd mag snr ->
  exists events,
    readDetectionsIntoDatabase Chunk ReadParams read_csv read_sql
      detsFile con detectionsTable diaSourcesTable mappingTable d specialIds
      readParams chunksize false log
    = (Done tt, log ++ events)
    /\ chunk_writes events = map (fun c => (detectionsTable, con, c)) chunks
    /\ object_writes events = []
    /\ queries events = []
    /\ statements events
       = [(con, direct_view diaSourcesTable detectionsTable
                  diaId visitId objectId ra dec mjd mag snr)].
Proof.
  intros Hread Hcols. eexists. split.
  - apply (without_mapping_eq _ _ _ _ _ _ _ _ _ _ _ _ _ _ _ _ _ _ _ Hread
             Hcols).
  - destruct (projections_chunks detectionsTable con chunks)
      as [C1 [C2 [C3 C4]]].
    destruct (projections_printed
                (column_lines diaId visitId objectId ra dec mjd mag snr))
      as [P1 [P2 [P3 P4]]].
    rewrite !chunk_writes_app, !object_writes_app, !queries_app,
      !statements_app, C1, C2, C3, C4, P1, P2, P3, P4.
    cbn. rewrite ?app_nil_r. repeat split; reflexivity.
Qed.


(** X20. The numbers given. With special IDs none of which is above 0 and an
    object column not itself named [objectId], the frame written to the
    mapping table holds first the special IDs in ascending order of their
    values, then each object name the query found with its rank, from 1, in
    the order the query gave them. *)
Theorem objects_are_numbered_in_query_order
  (detsFile : string) (con : Connection)
  (detectionsTable diaSourcesTable mappingTable : string)
  (d : Dict string) (special : Dict Z) (readParams : ReadParams)
  (chunksize : Z) (chunks : list Chunk) (found : list string)
  (log : list (Event Chunk))
  (diaId visitId objectId ra dec mjd mag snr : string) :
  read_csv detsFile chunksize readParams = Ok (chunks, None) ->
  names_columns d diaId visitId objectId ra dec mjd mag snr ->
  (forall q l, read_sql q con l = Ok found) ->
  objectId <> "objectId"%string ->
  Forall (fun kv => snd kv <= 0) special ->
  exists events sorted_special,
    readDetectionsIntoDatabase Chunk ReadParams read_csv read_sql
      detsFile con detectionsTable diaSourcesTable mappingTable d
      (Some special) readParams chunksize true log
    = (Done tt, log ++ events)
    /\ object_writes events
       = [(mappingTable, con,
           {| o_columns := [objectId; "objectId"%string];
              o_rows := sorted_special ++ numbered found |})]
    /\ Permutation sorted_special (special_rows special)
    /\ StronglySorted id_le sorted_special.
Proof.
  intros Hread Hcols Hsql Hne Hsp.
  destruct (projections_chunks detectionsTable con chunks)
    as [C1 [C2 [C3 C4]]].
  destruct (projections_printed
              (column_lines diaId visitId objectId ra dec mjd mag snr))
    as [P1 [P2 [P3 P4]]].
  destruct (mapping_special_eq detsFile con detectionsTable diaSourcesTable
              mappingTable d special readParams chunksize chunks found log
              diaId visitId objectId ra dec mjd mag snr Hread Hcols Hsql Hne)
    as [lines E].
  destruct (projections_printed lines) as [L1 [L2 [L3 L4]]].
  eexists. exists (sort_values (special_rows special)).
  split; [exact E|]. split; [|split].
  - rewrite !object_writes_app, C2, P2, L2. cbn. rewrite ?app_nil_r.
    now rewrite sort_values_numbered.
  - apply sort_values_perm.
  - apply sort_values_sorted.
Qed.

(** X21. A missing column name. When [mapObjectIds] is [True] and the dict of
    column names has no [objectId], the call raises [KeyError] for it only
    after every chunk of the detection file has been written to the store:
    what was written stays. *)
Theorem missing_object_column_fails_after_loading
  (detsFile : string) (con : Connection)
  (detectionsTable diaSourcesTable mappingTable : string)
  (d : Dict string) (specialIds : option (Dict Z)) (readParams : ReadParams)
  (chunksize : Z) (chunks : list Chunk) (log : list (Event Chunk)) :
  read_csv detsFile chunksize readParams = Ok (chunks, None) ->
  dict_get d "objectId" = None ->
  exists events,
    readDetectionsIntoDatabase Chunk ReadParams read_csv read_sql
      detsFile con detectionsTable diaSourcesTable mappingTable d specialIds
      readParams chunksize true log
    = (Failed (KeyError "objectId"), log ++ events)
    /\ chunk_writes events = map (fun c => (detectionsTable, con, c)) chunks
    /\ statements events = []
    /\ object_writes events = [].
Proof.
  intros Hread Hkey.
  destruct (projections_chunks detectionsTable con chunks)
    as [C1 [C2 [C3 C4]]].
  exists ([Printed ("Reading " ++ detsFile ++ " into " ++ detectionsTable
                    ++ " table")]
          ++ map (ChunkWritten detectionsTable con) chunks
          ++ [Printed ("Creating " ++ mappingTable ++ " table")]).
  split.
  - unfold readDetectionsIntoDatabase. rewrite Hread. run.
    rewrite write_chunks_eq. run. unfold getitem. rewrite Hkey. run.
    now rewrite <- !app_assoc.
  - rewrite !chunk_writes_app, !object_writes_app, !statements_app,
      C1, C2, C3.
    cbn. rewrite ?app_nil_r. repeat split; reflexivity.
Qed.


End Facts.

Lemma without_mapping_only_detections_are_written_witness :
  exists events,
    readDetectionsIntoDatabase string unit
      (chunks_reader ["chunk 1"; "chunk 2"]%string) (answers [])
      "dets.csv" "mops.db" "detections" "DiaSources" "Mapping"
      example_columns None tt 10000 false []
    = (Done tt, [] ++ events)
    /\ chunk_writes events
       = [("detections", "mops.db", "chunk 1");
          ("detections", "mops.db", "chunk 2")]%string
    /\ queries events = [].
Proof.
  destruct (without_mapping_only_detections_are_written string unit
              (chunks_reader ["chunk 1"; "chunk 2"]%string) (answers [])
              "dets.csv" "mops.db" "detections" "DiaSources" "Mapping"
              example_columns None tt 10000
              ["chunk 1"; "chunk 2"]%string []
              "det_id" "visit_id" "obj_name" "ra_deg" "dec_deg" "epoch_mjd"
              "mag" "snr")
    as [events [E [Hc [_ [Hq _]]]]].
  - reflexivity.
  - repeat split.
  - exists events. split; [exact E|]. split; [exact Hc | exact Hq].
Defined.


Lemma objects_are_numbered_in_query_order_witness :
  exists events sorted_special,
    readDetectionsIntoDatabase string unit
      (chunks_reader ["chunk 1"]%string) (answers ["S1"; "S2"]%string)
      "dets.csv" "mops.db" "detections" "DiaSources" "Mapping"
      example_columns (Some [("NS"%string, -1); ("FD"%string, -2)])
      tt 10000 true []
    = (Done tt, [] ++ events)
    /\ object_writes events
       = [("Mapping"%string, "mops.db"%string,
           {| o_columns := ["obj_name"; "objectId"]%string;
              o_rows := sorted_special
                        ++ [(Some "S1"%string, 1); (Some "S2"%string, 2)] |})].
Proof.
  destruct (objects_are_numbered_in_query_order string unit
              (chunks_reader ["chunk 1"]%string) (answers ["S1"; "S2"]%string)
              "dets.csv" "mops.db" "detections" "DiaSources" "Mapping"
              example_columns [("NS"%string, -1); ("FD"%string, -2)]
              tt 10000 ["chunk 1"]%string ["S1"; "S2"]%string []
              "det_id" "visit_id" "obj_name" "ra_deg" "dec_deg" "epoch_mjd"
              "mag" "snr")
    as [events [sp [E [Hw _]]]].
  - reflexivity.
  - repeat split.
  - reflexivity.
  - discriminate.
  - repeat constructor; cbn; lia.
  - exists events, sp. split; [exact E | exact Hw].
Defined.

Lemma missing_object_column_fails_after_loading_witness :
  exists events,
    readDetectionsIntoDatabase string unit
      (chunks_reader ["chunk 1"; "chunk 2"]%string) (answers [])
      "dets.csv" "mops.db" "detections" "DiaSources" "Mapping"
      [("diaId", "det_id")]%string None tt 10000 true []
    = (Failed (KeyError "objectId"), [] ++ events)
    /\ chunk_writes events
       = [("detections", "mops.db", "chunk 1");
          ("detections", "mops.db", "chunk 2")]%string.
Proof.
  destruct (missing_object_column_fails_after_loading string unit
              (chunks_reader ["chunk 1"; "chunk 2"]%string) (answers [])
              "dets.csv" "mops.db" "detections" "DiaSources" "Mapping"
              [("diaId", "det_id")]%string None tt 10000
              ["chunk 1"; "chunk 2"]%string [])
    as [events [E [Hc _]]].
  - reflexivity.
  - reflexivity.
  - exists events. split; [exact E | exact Hc].
Defined.


End DetectionsProps.
